(** * business_contact_scraper: a shallow embedding of [main.py]

    The program searches a places API for businesses, fetches the details
    of every place, crawls each business website for e-mail addresses and
    writes the result to a CSV file.  This development embeds the class
    [BusinessContactScraper] and [main] as state-passing functions over an
    explicit world (the heap of Python dictionaries and the trace of
    observable events) and proves properties of them.

    Conventions of the embedding.
    - A Python [str] is a [string]; a character is a code point below 256.
      [lower] and the word characters of [\b] follow Python on that range.
    - A Python [int] is a [Z]; a [float] is a [spec_float] at binary64, and
      the division of two integers is [SFdiv] on their exact values.
    - A Python [dict] is a [gmap string pyval], stored in the heap and
      handled through its location, so that aliasing is visible; a [set]
      of strings is a [gset string], and [list(set)] is [elements].
    - The standard library and the network ([urlparse], [urljoin], the
      HTTP session, the places API) are the fields of an environment
      [Env]; their answers may depend on the events so far.  The JSON
      bodies of the API are taken well formed: a status is always there,
      a result comes with the status [OK], every place has its id.
    - Requests, delays, printed lines, item assignments and rows written
      are events, appended to the trace in the order they happen.
      Delays are in milliseconds.
    - Opening the CSV file is taken to succeed. *)

From Stdlib Require Import ZArith Ascii String List Bool Lia.
From Stdlib Require Import Floats.SpecFloat.
From stdpp Require Import base strings list gmap pretty.

Open Scope string_scope.
Open Scope list_scope.
Open Scope Z_scope.

(* ===================================================================== *)
(** * Python values and exceptions *)
(* ===================================================================== *)

(** The exceptions the program can meet.  [RequestException] is the only
    one the API methods catch; the crawler catches every [exn]. *)
Inductive exn :=
  | RequestException (msg : string)
  | ValueError (msg : string)
  | IndexError (msg : string)
  | KeyError (msg : string)
  | TypeError (msg : string)
  | AttributeError (msg : string)
  | ZeroDivisionError (msg : string)
  | OverflowError (msg : string)
  | OSError (msg : string).

(** [str(e)] as it appears in the logged messages. *)
Definition exn_str (e : exn) : string :=
  match e with
  | RequestException m | ValueError m | IndexError m | TypeError m | AttributeError m
  | ZeroDivisionError m | OverflowError m | OSError m => m
  | KeyError m => "'" +:+ m +:+ "'"
  end.

Inductive result (A : Type) :=
  | Ok (a : A)
  | Raise (e : exn).
Arguments Ok {A} a.
Arguments Raise {A} e.

(** The values stored in a business dictionary. *)
Inductive pyval :=
  | VNone
  | VStr (s : string)
  | VInt (n : Z)
  | VList (l : list string).

(** Truthiness, as tested by [if x] and [not x]. *)
Definition truthy (v : pyval) : bool :=
  match v with
  | VNone => false
  | VStr s => negb (String.eqb s EmptyString)
  | VInt n => negb (n =? 0)
  | VList l => match l with [] => false | _ => true end
  end.

(** [repr(s)] of a string, on code points below 256.  The string stands
    between apostrophes, or between double quotes when it holds an
    apostrophe and no double quote.  The quote in use and the backslash
    are escaped with a backslash; tab, line feed and carriage return are
    written [\t], [\n], [\r]; every other code point that is not printable
    is written [\xNN] with two lower-case hexadecimal digits. *)
Definition apostrophe : ascii := ascii_of_nat 39.
Definition double_quote : ascii := ascii_of_nat 34.
Definition backslash : ascii := ascii_of_nat 92.

Fixpoint occurs (c : ascii) (s : string) : bool :=
  match s with
  | EmptyString => false
  | String a rest => Ascii.eqb a c || occurs c rest
  end.

(** [c.isprintable()]: below 256 the printable code points are 32-126 and
    161-255 without the soft hyphen 173. *)
Definition isprintable (c : ascii) : bool :=
  let n := nat_of_ascii c in
  ((32 <=? n) && (n <=? 126) || (161 <=? n) && negb (n =? 173))%nat.

Definition hex_digit (n : nat) : ascii :=
  ascii_of_nat (if (n <? 10)%nat then 48 + n else 87 + n).

Definition hex_escape (c : ascii) : string :=
  let n := nat_of_ascii c in
  String backslash (String "x"
    (String (hex_digit (n / 16)) (String (hex_digit (n mod 16)) EmptyString))).

Definition repr_char (quote c : ascii) : string :=
  if Ascii.eqb c quote || Ascii.eqb c backslash then String backslash (String c EmptyString)
  else if Ascii.eqb c (ascii_of_nat 9) then String backslash "t"
  else if Ascii.eqb c (ascii_of_nat 10) then String backslash "n"
  else if Ascii.eqb c (ascii_of_nat 13) then String backslash "r"
  else if isprintable c then String c EmptyString
  else hex_escape c.

Fixpoint repr_chars (quote : ascii) (s : string) : string :=
  match s with
  | EmptyString => EmptyString
  | String c rest => repr_char quote c +:+ repr_chars quote rest
  end.

Definition py_repr (s : string) : string :=
  let quote := if occurs apostrophe s && negb (occurs double_quote s)
               then double_quote else apostrophe in
  String quote (repr_chars quote s +:+ String quote EmptyString).

(** [str(v)]: a string is itself, an integer its decimal digits, and a
    list shows the [repr] of its elements between brackets. *)
Definition py_str (v : pyval) : string :=
  match v with
  | VNone => "None"
  | VStr s => s
  | VInt n => pretty n
  | VList l => "[" +:+ String.concat ", " (map py_repr l) +:+ "]"
  end.

(* ===================================================================== *)
(** * Strings *)
(* ===================================================================== *)

(** [c.lower()] on code points below 256: A-Z and the accented capitals
    192-222 (but not the multiplication sign 215) move up by 32. *)
Definition lower_ascii (c : ascii) : ascii :=
  let n := nat_of_ascii c in
  if ((65 <=? n)%nat && (n <=? 90)%nat)
     || ((192 <=? n)%nat && (n <=? 222)%nat && negb (n =? 215)%nat)
  then ascii_of_nat (n + 32) else c.

Fixpoint lower (s : string) : string :=
  match s with
  | EmptyString => EmptyString
  | String c s' => String (lower_ascii c) (lower s')
  end.

(** [s.split(sep)] for a separator of one character: the segments between
    the separators, never an empty list. *)
Fixpoint split (sep : ascii) (s : string) : list string :=
  match s with
  | EmptyString => [EmptyString]
  | String c s' =>
      if Ascii.eqb c sep then EmptyString :: split sep s'
      else match split sep s' with
           | seg :: segs => String c seg :: segs
           | [] => [String c EmptyString]
           end
  end.

(** [s.replace(old, new)] for a non-empty [old]: every occurrence found
    from the left, without overlap.  [skip] counts the characters of an
    occurrence that are still to be dropped. *)
Fixpoint replace_from (skip : nat) (old new s : string) : string :=
  match s with
  | EmptyString => EmptyString
  | String c s' =>
      match skip with
      | S k => replace_from k old new s'
      | O =>
          if String.prefix old s
          then new +:+ replace_from (Nat.pred (String.length old)) old new s'
          else String c (replace_from 0 old new s')
      end
  end.

Definition replace (old new s : string) : string := replace_from 0 old new s.

(** [sep.join(l)]. *)
Definition join (sep : string) (l : list string) : string := String.concat sep l.

(** Whether [c] occurs in [s]. *)
Definition has_char (c : ascii) (s : string) : bool :=
  existsb (Ascii.eqb c) (list_ascii_of_string s).

(** The number of occurrences of [c] in [s]. *)
Fixpoint count_char (c : ascii) (s : string) : nat :=
  match s with
  | EmptyString => 0
  | String c' s' => (if Ascii.eqb c' c then 1 else 0) + count_char c s'
  end.

(** What precedes the first [sep] of [s]: [s.split(sep)[0]]. *)
Definition before_first (sep : ascii) (s : string) : string :=
  hd EmptyString (split sep s).

(** The first [n] characters of [s] are free of [sep]. *)
Fixpoint free_for (sep : ascii) (n : nat) (s : string) : Prop :=
  match n, s with
  | S k, String c s' => c <> sep /\ free_for sep k s'
  | _, _ => True
  end.

(** [l[:k]]: the first [k] elements, or all but the last [-k] when [k] is
    negative. *)
Definition slice_to {A} (l : list A) (k : Z) : list A :=
  if k <? 0 then take (Z.to_nat (Z.of_nat (length l) + k)) l
  else take (Z.to_nat k) l.

(* ===================================================================== *)
(** * Numbers *)
(* ===================================================================== *)

(** [a // b] on integers: floor division, [ZeroDivisionError] on zero. *)
Definition py_floordiv (a b : Z) : result Z :=
  if b =? 0 then Raise (ZeroDivisionError "integer division or modulo by zero")
  else Ok (a / b).

(** binary64 *)
Definition prec : Z := 53.
Definition emax : Z := 1024.

Definition float_of_sign_mag (neg : bool) (m : positive) : spec_float :=
  S754_finite neg m 0.

(** [a / b] on integers: the binary64 number nearest to the quotient,
    [ZeroDivisionError] on zero, [OverflowError] beyond the range. *)
Definition py_truediv (a b : Z) : result spec_float :=
  match b with
  | Z0 => Raise (ZeroDivisionError "division by zero")
  | _ =>
      match a with
      | Z0 => Ok (S754_zero (b <? 0))
      | _ =>
          match SFdiv prec emax
                  (float_of_sign_mag (a <? 0) (Z.to_pos (Z.abs a)))
                  (float_of_sign_mag (b <? 0) (Z.to_pos (Z.abs b))) with
          | S754_infinity _ | S754_nan =>
              Raise (OverflowError "integer division result too large for a float")
          | q => Ok q
          end
      end
  end.

(** A float that is a number: zero or finite. *)
Definition is_number (x : spec_float) : bool :=
  match x with
  | S754_zero _ | S754_finite _ _ _ => true
  | S754_infinity _ | S754_nan => false
  end.

(** Round the fraction [num / den] ([den] positive) to an integer, ties to
    the even one. *)
Definition round_half_even (num den : Z) : Z :=
  let q := num / den in
  let r := num mod den in
  match 2 * r ?= den with
  | Lt => q
  | Gt => q + 1
  | Eq => if Z.even q then q else q + 1
  end.

(** The magnitude of a finite float in tenths, rounded to the nearest
    tenth of its exact binary value. *)
Definition tenths_of (m : positive) (e : Z) : Z :=
  if 0 <=? e then 10 * Z.pos m * 2 ^ e
  else round_half_even (10 * Z.pos m) (2 ^ (- e)).

(** [f"{x:.1f}"] *)
Definition format_1f (x : spec_float) : string :=
  match x with
  | S754_zero s => (if s then "-" else EmptyString) +:+ "0.0"
  | S754_infinity s => (if s then "-" else EmptyString) +:+ "inf"
  | S754_nan => "nan"
  | S754_finite s m e =>
      let t := tenths_of m e in
      (if s then "-" else EmptyString) +:+ pretty (t / 10) +:+ "." +:+ pretty (t mod 10)
  end.

(* ===================================================================== *)
(** * The world: heap, events, environment *)
(* ===================================================================== *)

(** A dictionary lives in the heap; the program holds its location. *)
Definition loc := nat.

(** The observable effects, in the order they happen. *)
Inductive event :=
  | EvRequestsGet (url : string) (params : list (string * string))
      (** [requests.get(url, params=params)] *)
  | EvSessionGet (url : string)
      (** [self.session.get(url, timeout=10)] *)
  | EvSleep (ms : Z)
      (** [time.sleep], in milliseconds *)
  | EvPrint (line : string)
  | EvSetItem (l : loc) (key : string) (v : pyval)
      (** [d[key] = v] on the dictionary at [l] *)
  | EvOpen (filename : string)
  | EvWriteRow (cells : list string).

Record World := mkWorld {
  heap : list (gmap string pyval);
  trace : list event
}.

Definition emit (e : event) (w : World) : World :=
  mkWorld (heap w) (trace w ++ [e]).

(** A dictionary display [{...}]: a new object at the next location. *)
Definition alloc (d : gmap string pyval) (w : World) : loc * World :=
  (length (heap w), mkWorld (heap w ++ [d]) (trace w)).

(** What [BeautifulSoup] gives of a fetched page: the visible text and the
    [href] of every anchor that has one, in document order. *)
Record Page := mkPage {
  page_text : string;
  page_hrefs : list string
}.

(** The JSON body of a text search. *)
Record SearchData := mkSearchData {
  search_status : string;
  search_error_message : option string;
  search_results : option (list string)   (** the [place_id] of every result *)
}.

(** The JSON body of a details lookup. *)
Record PlaceResult := mkPlaceResult {
  r_name : option string;
  r_formatted_address : option string;
  r_formatted_phone_number : option string;
  r_website : option string;
  r_types : option (list string)
}.

Record DetailsData := mkDetailsData {
  details_status : string;
  details_result : PlaceResult
}.

(** The libraries and the network.  [urlparse] gives the scheme and the
    netloc of a URL or raises [ValueError]; [session_get] stands for the
    request, [raise_for_status] and the parse of one page and may raise
    anything; on the API side [inl msg] is a [RequestException]. *)
Record Env := mkEnv {
  urlparse : string -> result (string * string);
  urljoin : string -> string -> result string;
  session_get : list event -> string -> result Page;
  places_textsearch : list event -> list (string * string) -> string + SearchData;
  places_details : list event -> list (string * string) -> string + DetailsData
}.

(* ===================================================================== *)
(** * The e-mail pattern *)
(* ===================================================================== *)

(** The pieces the pattern
    [\b[A-Za-z0-9._%+-]+@[A-Za-z0-9.-]+\.[A-Z|a-z]{2,}\b] is made of. *)
Inductive re_item :=
  | ReClass (p : ascii -> bool) (min : nat)   (** [[...]{min,}], greedy *)
  | ReLit (c : ascii)
  | ReWordBoundary.

Definition in_range (lo hi : nat) (c : ascii) : bool :=
  let n := nat_of_ascii c in ((lo <=? n) && (n <=? hi))%nat.

Definition is_alpha (c : ascii) : bool := in_range 65 90 c || in_range 97 122 c.
Definition is_digit (c : ascii) : bool := in_range 48 57 c.

Definition one_of (s : string) (c : ascii) : bool :=
  existsb (Ascii.eqb c) (list_ascii_of_string s).

Definition local_class (c : ascii) : bool := is_alpha c || is_digit c || one_of "._%+-" c.
Definition domain_class (c : ascii) : bool := is_alpha c || is_digit c || one_of ".-" c.
Definition tld_class (c : ascii) : bool := is_alpha c || one_of "|" c.

Definition email_pattern : list re_item :=
  [ReWordBoundary; ReClass local_class 1; ReLit "@"; ReClass domain_class 1;
   ReLit "."; ReClass tld_class 2; ReWordBoundary].

(** The number of [@] a pattern asks for, when its classes have none. *)
Fixpoint at_literals (items : list re_item) : nat :=
  match items with
  | [] => 0
  | ReLit c :: rest => (if Ascii.eqb c "@" then 1 else 0) + at_literals rest
  | _ :: rest => at_literals rest
  end.

(** A class of the pattern that does not take [@]. *)
Definition class_without_at (item : re_item) : Prop :=
  match item with
  | ReClass p _ => p "@"%char = false
  | _ => True
  end.

(** [\w] on code points below 256. *)
Definition is_word (c : ascii) : bool :=
  is_alpha c || is_digit c || one_of "_" c
  || existsb (Nat.eqb (nat_of_ascii c)) [170; 178; 179; 181; 185; 186; 188; 189; 190]%nat
  || in_range 192 214 c || in_range 216 246 c || in_range 248 255 c.

Definition at_boundary (prev : option ascii) (s : string) : bool :=
  let before := match prev with Some c => is_word c | None => false end in
  let after := match s with String c _ => is_word c | EmptyString => false end in
  xorb before after.

(** A greedy class: take one more character when that leads to a match,
    stop here otherwise.  [k] matches what follows and gives the length it
    consumed. *)
Fixpoint greedy (p : ascii -> bool) (min : nat)
    (k : option ascii -> string -> option nat)
    (prev : option ascii) (s : string) : option nat :=
  let stop := if (min =? 0)%nat then k prev s else None in
  match s with
  | String c s' =>
      if p c then
        match greedy p (Nat.pred min) k (Some c) s' with
        | Some n => Some (S n)
        | None => stop
        end
      else stop
  | EmptyString => stop
  end.

(** The length of the match of [items] at the start of [s], [prev] being
    the character before it. *)
Fixpoint match_items (items : list re_item) (prev : option ascii) (s : string)
    : option nat :=
  match items with
  | [] => Some 0%nat
  | ReLit c :: items' =>
      match s with
      | String c' s' =>
          if Ascii.eqb c c' then S <$> match_items items' (Some c') s' else None
      | EmptyString => None
      end
  | ReWordBoundary :: items' =>
      if at_boundary prev s then match_items items' prev s else None
  | ReClass p min :: items' => greedy p min (match_items items') prev s
  end.

(** [re.findall(items, s)] for a pattern that matches no empty string:
    the matches from the left, without overlap. *)
Fixpoint findall_from (items : list re_item) (skip : nat) (prev : option ascii)
    (s : string) : list string :=
  match s with
  | EmptyString => []
  | String c s' =>
      match skip with
      | S k => findall_from items k (Some c) s'
      | O =>
          match match_items items prev s with
          | Some (S n) => substring 0 (S n) s :: findall_from items n (Some c) s'
          | _ => findall_from items 0 (Some c) s'
          end
      end
  end.

Definition findall (items : list re_item) (s : string) : list string :=
  findall_from items 0 None s.

(* ===================================================================== *)
(** * A monad for state and exceptions *)
(* ===================================================================== *)

(** A computation takes the world and gives a value or an exception, and
    the world it leaves.  An exception keeps the effects done before it. *)
Definition M (A : Type) : Type := World -> result A * World.

Definition ret {A} (a : A) : M A := fun w => (Ok a, w).

Definition raise {A} (e : exn) : M A := fun w => (Raise e, w).

Definition bind {A B} (m : M A) (f : A -> M B) : M B :=
  fun w =>
    match m w with
    | (Ok a, w') => f a w'
    | (Raise e, w') => (Raise e, w')
    end.

Declare Scope py_scope.
Delimit Scope py_scope with py.
Notation "x <- m ;; k" := (bind m (fun x => k))
  (at level 100, m at next level, right associativity) : py_scope.
Notation "m ;; k" := (bind m (fun _ => k))
  (at level 100, right associativity) : py_scope.

Definition lift_result {A} (r : result A) : M A := fun w => (r, w).

(** A step that cannot raise. *)
Definition total {A} (f : World -> A * World) : M A :=
  fun w => let '(a, w') := f w in (Ok a, w').

Definition print (line : string) : M unit := fun w => (Ok tt, emit (EvPrint line) w).

Definition sleep (ms : Z) : M unit := fun w => (Ok tt, emit (EvSleep ms) w).

(** [d[key]] *)
Definition getitem (l : loc) (key : string) : M pyval :=
  fun w =>
    match default ∅ (heap w !! l) !! key with
    | Some v => (Ok v, w)
    | None => (Raise (KeyError key), w)
    end.

(** [d[key] = v] *)
Definition setitem (l : loc) (key : string) (v : pyval) : M unit :=
  fun w =>
    let d := default ∅ (heap w !! l) in
    (Ok tt, mkWorld (<[l := <[key := v]> d]> (heap w))
                    (trace w ++ [EvSetItem l key v])).

(** [d.copy()]: a new dictionary with the same items. *)
Definition dict_copy (l : loc) : M loc :=
  total (fun w => alloc (default ∅ (heap w !! l)) w).

(** [len(v)] *)
Definition py_len (v : pyval) : result Z :=
  match v with
  | VList l => Ok (Z.of_nat (length l))
  | VStr s => Ok (Z.of_nat (String.length s))
  | VNone => Raise (TypeError "object of type 'NoneType' has no len()")
  | VInt _ => Raise (TypeError "object of type 'int' has no len()")
  end.

(** [sep.join(v)]: a list gives its elements, a string its characters. *)
Definition py_join (sep : string) (v : pyval) : result string :=
  match v with
  | VList l => Ok (join sep l)
  | VStr s => Ok (join sep (map (fun c => String c EmptyString) (list_ascii_of_string s)))
  | VNone | VInt _ => Raise (TypeError "can only join an iterable")
  end.

Definition result_bind {A B} (r : result A) (f : A -> result B) : result B :=
  match r with
  | Ok a => f a
  | Raise e => Raise e
  end.

(* ===================================================================== *)
(** * class BusinessContactScraper *)
(* ===================================================================== *)

Definition places_base_url : string := "https://maps.googleapis.com/maps/api/place".

Definition excluded_domains : list string :=
  ["example.com"; "test.com"; "gmail.com"; "yahoo.com"; "hotmail.com"].

(** The address of a [mailto:] link:
    [link['href'].replace('mailto:', '').split('?')[0]]. *)
Definition mailto_address (href : string) : string :=
  hd EmptyString (split "?" (replace "mailto:" EmptyString href)).

(** The anchors [find_all('a', href=re.compile(r'^mailto:'))] selects. *)
Definition mailto_links (page : Page) : list string :=
  List.filter (String.prefix "mailto:") (page_hrefs page).

(** The candidate pool of one page: the matches of the pattern in the
    text, then the address of every [mailto:] link. *)
Definition found_emails (page : Page) : list string :=
  findall email_pattern (page_text page) ++ map mailto_address (mailto_links page).

(** The filter loop over the candidates.  [emails] is the set the crawler
    fills; an [IndexError] leaves in it what was added before. *)
Fixpoint filter_emails (found : list string) (emails : gset string)
    : gset string * option exn :=
  match found with
  | [] => (emails, None)
  | email :: rest =>
      match split "@" email !! 1%nat with
      | None => (emails, Some (IndexError "list index out of range"))
      | Some seg =>
          let domain := lower seg in
          if negb (bool_decide (domain ∈ excluded_domains))
             && negb (bool_decide (lower email ∈ emails))
          then filter_emails rest ({[lower email]} ∪ emails)
          else filter_emails rest emails
      end
  end.

(** An address the filter lets through: it is in lower case and the
    segment after its first [@] is not an excluded domain. *)
Definition accepted (e : string) : Prop :=
  lower e = e /\
  exists seg, split "@" e !! 1%nat = Some seg /\ seg ∉ excluded_domains.

(** The Email Extractor on one parsed page, from an empty set. *)
Definition extract_emails (page : Page) : list string :=
  elements (fst (filter_emails (found_emails page) ∅)).

Section Scraper.

Variable env : Env.
Variable google_api_key : option string.

Definition key_param : list (string * string) :=
  match google_api_key with
  | Some k => [("key", k)]
  | None => []
  end.

(** ** get_place_details *)

Definition details_params (place_id : string) : list (string * string) :=
  [("place_id", place_id);
   ("fields", "name,formatted_address,formatted_phone_number,website,business_status,types")]
  ++ key_param.

Definition business_dict (r : PlaceResult) : gmap string pyval :=
  <["name" := VStr (default EmptyString (r_name r))]>
  (<["address" := VStr (default EmptyString (r_formatted_address r))]>
  (<["phone" := VStr (default EmptyString (r_formatted_phone_number r))]>
  (<["website" := VStr (default EmptyString (r_website r))]>
  (<["business_types" := VStr (join ", " (default [] (r_types r)))]>
  (<["emails" := VList []]> ∅))))).

Definition get_place_details (place_id : string) (w : World) : option loc * World :=
  let w1 := emit (EvRequestsGet (places_base_url +:+ "/details/json")
                                (details_params place_id)) w in
  match places_details env (trace w) (details_params place_id) with
  | inl msg => (None, emit (EvPrint ("Error getting place details: " +:+ msg)) w1)
  | inr data =>
      if String.eqb (details_status data) "OK"
      then let '(l, w2) := alloc (business_dict (details_result data)) w1 in (Some l, w2)
      else (None, w1)
  end.

(** ** search_businesses *)

Definition search_params (query location : string) (radius : Z) : list (string * string) :=
  [("query", query +:+ " in " +:+ location)] ++ key_param ++ [("radius", pretty radius)].

(** The loop over the places of the answer. *)
Fixpoint search_loop (places : list string) (max_results : Z)
    (businesses : list loc) (w : World) : list loc * World :=
  match places with
  | [] => (businesses, w)
  | place_id :: rest =>
      if Z.of_nat (length businesses) >=? max_results then (businesses, w)
      else
        let '(business_info, w1) := get_place_details place_id w in
        let businesses' :=
          match business_info with
          | Some b => businesses ++ [b]
          | None => businesses
          end in
        search_loop rest max_results businesses' (emit (EvSleep 100) w1)
  end.

Definition api_key_line : string :=
  match google_api_key with
  | Some k => if String.eqb k EmptyString then "No API key provided"
              else "API Key being used: " +:+ substring 0 10 k +:+ "..."
  | None => "No API key provided"
  end.

Definition search_businesses (query location : string) (radius max_results : Z)
    (w : World) : list loc * World :=
  let params := search_params query location radius in
  let w1 := emit (EvRequestsGet (places_base_url +:+ "/textsearch/json") params) w in
  match places_textsearch env (trace w) params with
  | inl msg => ([], emit (EvPrint ("Error searching businesses: " +:+ msg)) w1)
  | inr data =>
      if negb (String.eqb (search_status data) "OK") then
        let w2 := emit (EvPrint ("API Error: " +:+ search_status data)) w1 in
        let w3 := match search_error_message data with
                  | Some m => emit (EvPrint ("Error details: " +:+ m)) w2
                  | None => w2
                  end in
        ([], emit (EvPrint api_key_line) w3)
      else search_loop (default [] (search_results data)) max_results [] w1
  end.

(** ** extract_emails_from_website *)

(** [pages_to_check]: the URL itself, then the four paths joined to the
    scheme and host of the URL. *)
Definition pages_to_check (website_url : string) : result (list string) :=
  result_bind (urlparse env website_url) (fun '(scheme, netloc) =>
  let base_url := scheme +:+ "://" +:+ netloc in
  result_bind (urljoin env base_url "/contact") (fun p1 =>
  result_bind (urljoin env base_url "/contact-us") (fun p2 =>
  result_bind (urljoin env base_url "/about") (fun p3 =>
  result_bind (urljoin env base_url "/about-us") (fun p4 =>
  Ok ([website_url] ++ [p1; p2; p3; p4])))))).

Definition scrape_error_line (page_url : string) (e : exn) : string :=
  "Error scraping " +:+ page_url +:+ ": " +:+ exn_str e.

(** The loop over the pages.  The body of the [try] is the request, the
    extraction, the filter loop, the count and the delay; the handler
    logs and goes on with the next page. *)
Fixpoint crawl_loop (pages : list string) (max_pages pages_checked : Z)
    (emails : gset string) (w : World) : gset string * World :=
  match pages with
  | [] => (emails, w)
  | page_url :: rest =>
      if pages_checked >=? max_pages then (emails, w)
      else
        let w1 := emit (EvSessionGet page_url) w in
        match session_get env (trace w) page_url with
        | Raise e =>
            crawl_loop rest max_pages pages_checked emails
              (emit (EvPrint (scrape_error_line page_url e)) w1)
        | Ok page =>
            match filter_emails (found_emails page) emails with
            | (emails', Some e) =>
                crawl_loop rest max_pages pages_checked emails'
                  (emit (EvPrint (scrape_error_line page_url e)) w1)
            | (emails', None) =>
                crawl_loop rest max_pages (pages_checked + 1) emails'
                  (emit (EvSleep 1000) w1)
            end
        end
  end.

Definition extract_emails_from_website (website_url : pyval) (max_pages : Z)
    : M (list string) :=
  if negb (truthy website_url) then ret []
  else
    match website_url with
    | VStr url =>
        (pages <- lift_result (pages_to_check url) ;;
         total (fun w =>
           let '(emails, w') := crawl_loop (slice_to pages max_pages) max_pages 0 ∅ w in
           (elements emails, w')))%py
    | _ => raise (AttributeError "object has no attribute 'decode'")
    end.

(** ** scrape_business_contacts *)

(** The body of the inner loop, up to the last message: the website of
    the business is crawled when there is one, and the result stored. *)
Definition process_business (business : loc) : M unit :=
  (name <- getitem business "name" ;;
   print ("Processing: " +:+ py_str name) ;;
   website <- getitem business "website" ;;
   if truthy website then
     website' <- getitem business "website" ;;
     emails <- extract_emails_from_website website' 3 ;;
     setitem business "emails" (VList emails) ;;
     print ("  Found " +:+ pretty (Z.of_nat (length emails)) +:+ " email(s)")
   else print "  No website available")%py.

(** The inner loop over the businesses of one search. *)
Fixpoint process_businesses (businesses : list loc) (all_businesses : list loc)
    : M (list loc) :=
  match businesses with
  | [] => ret all_businesses
  | business :: rest =>
      (process_business business ;;
       sleep 2000 ;;
       process_businesses rest (all_businesses ++ [business]))%py
  end.

(** The outer loop: [business_types] is the whole list, [remaining] what
    is left of it. *)
Fixpoint scrape_types (business_types remaining : list string) (location : string)
    (max_results : Z) (all_businesses : list loc) : M (list loc) :=
  match remaining with
  | [] => ret all_businesses
  | business_type :: rest =>
      (print ("Searching for " +:+ business_type +:+ " businesses in " +:+ location +:+ "...") ;;
       share <- lift_result (py_floordiv max_results (Z.of_nat (length business_types))) ;;
       businesses <- total (search_businesses business_type location 5000 share) ;;
       all_businesses' <- process_businesses businesses all_businesses ;;
       scrape_types business_types rest location max_results all_businesses')%py
  end.

Definition scrape_business_contacts (business_types : list string) (location : string)
    (max_results : Z) : M (list loc) :=
  scrape_types business_types business_types location max_results [].

(** ** save_to_csv *)

Definition fieldnames : list string :=
  ["name"; "address"; "phone"; "website"; "business_types"; "emails"; "email_count"].

(** A cell as the writer shows it: [None] is empty, the rest is [str]. *)
Definition csv_cell (v : option pyval) : string :=
  match v with
  | None | Some VNone => EmptyString
  | Some v => py_str v
  end.

(** [writer.writerow(d)]: a key outside the field names is a
    [ValueError]; a missing one gives an empty cell. *)
Definition writerow (l : loc) : M unit :=
  fun w =>
    let d := default ∅ (heap w !! l) in
    if bool_decide (dom d ⊆ list_to_set fieldnames)
    then (Ok tt, emit (EvWriteRow (map (fun f => csv_cell (d !! f)) fieldnames)) w)
    else (Raise (ValueError "dict contains fields not in fieldnames"), w).

Fixpoint write_rows (businesses : list loc) : M unit :=
  match businesses with
  | [] => ret tt
  | business :: rest =>
      (business_copy <- dict_copy business ;;
       emails <- getitem business "emails" ;;
       joined <- lift_result (py_join "; " emails) ;;
       setitem business_copy "emails" (VStr joined) ;;
       emails' <- getitem business "emails" ;;
       n <- lift_result (py_len emails') ;;
       setitem business_copy "email_count" (VInt n) ;;
       writerow business_copy ;;
       write_rows rest)%py
  end.

Definition save_to_csv (businesses : list loc) (filename : string) : M unit :=
  (total (fun w => (tt, emit (EvOpen filename) w)) ;;
   total (fun w => (tt, emit (EvWriteRow fieldnames) w)) ;;
   write_rows businesses ;;
   print ("Saved " +:+ pretty (Z.of_nat (length businesses)) +:+ " businesses to " +:+ filename))%py.

End Scraper.

(* ===================================================================== *)
(** * main *)
(* ===================================================================== *)

Section Main.

Variable env : Env.

(** [GOOGLE_PLACES_API = os.getenv("GOOGLE_PLACES_API")] *)
Variable GOOGLE_PLACES_API : option string.

Definition LOCATION : string := "Caringbah, NSW".

Definition BUSINESS_TYPES : list string :=
  ["marketing agency"; "law firm"; "accounting firm"; "consulting firm";
   "real estate agency"].

Definition MAX_RESULTS : Z := 20.

(** [sum(len(b['emails']) for b in businesses)] *)
Fixpoint total_emails_of (businesses : list loc) : M Z :=
  match businesses with
  | [] => ret 0
  | b :: rest =>
      (emails <- getitem b "emails" ;;
       n <- lift_result (py_len emails) ;;
       s <- total_emails_of rest ;;
       ret (n + s))%py
  end.

(** [sum(1 for b in businesses if b['emails'])] *)
Fixpoint businesses_with_emails_of (businesses : list loc) : M Z :=
  match businesses with
  | [] => ret 0
  | b :: rest =>
      (emails <- getitem b "emails" ;;
       s <- businesses_with_emails_of rest ;;
       ret ((if truthy emails then 1 else 0) + s))%py
  end.

(** The last line of the summary: the quotient is formed only when the
    list is not empty. *)
Definition average_line (total_emails : Z) (businesses : list loc) : result string :=
  match businesses with
  | _ :: _ =>
      result_bind (py_truediv total_emails (Z.of_nat (length businesses))) (fun q =>
      Ok ("Average emails per business: " +:+ format_1f q))
  | [] => Ok "Average emails per business: 0.0"
  end.

Definition newline : string := String (ascii_of_nat 10) EmptyString.

(** The summary block that ends [main]. *)
Definition print_summary (businesses : list loc) : M unit :=
  (total_emails <- total_emails_of businesses ;;
   businesses_with_emails <- businesses_with_emails_of businesses ;;
   print (newline +:+ "=== SCRAPING SUMMARY ===") ;;
   print ("Total businesses found: " +:+ pretty (Z.of_nat (length businesses))) ;;
   print ("Businesses with emails: " +:+ pretty businesses_with_emails) ;;
   print ("Total emails found: " +:+ pretty total_emails) ;;
   line <- lift_result (average_line total_emails businesses) ;;
   print line)%py.

Definition main : M unit :=
  (print "Starting business contact scraping..." ;;
   businesses <- scrape_business_contacts env GOOGLE_PLACES_API
                   BUSINESS_TYPES LOCATION MAX_RESULTS ;;
   save_to_csv businesses "business_contacts.csv" ;;
   print_summary businesses)%py.

End Main.

(* ===================================================================== *)
(** * Reading a trace *)
(* ===================================================================== *)

(** The pages requested through the session, in order. *)
Definition session_gets (tr : list event) : list string :=
  omap (fun e => match e with EvSessionGet u => Some u | _ => None end) tr.

(** The [place_id] of every details lookup, in order. *)
Definition details_lookups (tr : list event) : list string :=
  omap (fun e =>
          match e with
          | EvRequestsGet url (("place_id", p) :: _) =>
              if String.eqb url (places_base_url +:+ "/details/json") then Some p else None
          | _ => None
          end) tr.

(** The delays, in order. *)
Definition sleeps (tr : list event) : list Z :=
  omap (fun e => match e with EvSleep ms => Some ms | _ => None end) tr.

(** The items assigned to the dictionary at [l], in order. *)
Definition assignments (l : loc) (tr : list event) : list (string * pyval) :=
  omap (fun e =>
          match e with
          | EvSetItem l' key v => if (l' =? l)%nat then Some (key, v) else None
          | _ => None
          end) tr.

(** A delay of one second comes before the next request. *)
Fixpoint delay_before_next_get (tr : list event) : bool :=
  match tr with
  | [] => false
  | EvSleep 1000 :: _ => true
  | EvSessionGet _ :: _ => false
  | _ :: rest => delay_before_next_get rest
  end.

(** Every request through the session is followed by a delay of one
    second before the next request or the end of the trace. *)
Fixpoint delay_after_each_get (tr : list event) : bool :=
  match tr with
  | [] => true
  | EvSessionGet _ :: rest => delay_before_next_get rest && delay_after_each_get rest
  | _ :: rest => delay_after_each_get rest
  end.

(** The domain of an address as the specification reads it: what follows
    the last [@]. *)
Definition domain_after_last_at (email : string) : string :=
  List.last (split "@" email) EmptyString.

(* ===================================================================== *)
(** * The vocabulary of the statements *)
(* ===================================================================== *)

(** What one attempt at a page ends with: nothing, or the exception the
    request or the filter loop raised. *)
Definition attempt_outcome (env : Env) (h : list event) (page_url : string) : option exn :=
  match session_get env h page_url with
  | Raise e => Some e
  | Ok page => snd (filter_emails (found_emails page) ∅)
  end.

(** The events of one attempt: the request, then the delay or the log. *)
Definition attempt_events (env : Env) (h : list event) (page_url : string) : list event :=
  [EvSessionGet page_url;
   match attempt_outcome env h page_url with
   | None => EvSleep 1000
   | Some e => EvPrint (scrape_error_line page_url e)
   end].

(** The events of the attempts at [pages], one after the other, [h] being
    the events before. *)
Fixpoint crawl_events (env : Env) (h : list event) (pages : list string) : list event :=
  match pages with
  | [] => []
  | page_url :: rest =>
      attempt_events env h page_url
      ++ crawl_events env (h ++ attempt_events env h page_url) rest
  end.

(** The places of the answer to a text search: none when the request
    fails or the status is not [OK]. *)
Definition places_of (answer : string + SearchData) : list string :=
  match answer with
  | inr data =>
      if String.eqb (search_status data) "OK" then default [] (search_results data) else []
  | inl _ => []
  end.

(** The place has a website, that is a non-empty one. *)
Definition has_website (r : PlaceResult) : bool :=
  negb (String.eqb (default EmptyString (r_website r)) EmptyString).

(** The state of the record made of [r] at [b] once the coordinator is
    done with it, [tr] being the events since it was made: with a website
    its e-mails were assigned once, the value being what a crawl of that
    website returned; without one nothing was assigned. *)
Definition record_after (env : Env) (r : PlaceResult) (b : loc) (tr : list event)
    (h : list (gmap string pyval)) : Prop :=
  if has_website r
  then exists emails w0,
         fst (extract_emails_from_website env
                (VStr (default EmptyString (r_website r))) 3 w0) = Ok emails /\
         assignments b tr = [("emails", VList emails)] /\
         h !! b = Some (<["emails" := VList emails]> (business_dict r))
  else assignments b tr = [] /\ h !! b = Some (business_dict r).

(** The dictionaries at the locations in [P] are the same in [w'] as in
    [w], and nothing was assigned to them on the way. *)
Definition untouched (P : loc -> Prop) (w w' : World) : Prop :=
  (length (heap w) <= length (heap w'))%nat /\
  (forall l, P l -> heap w' !! l = heap w !! l) /\
  exists tr, trace w' = trace w ++ tr /\ forall l, P l -> assignments l tr = [].

(** A computation that leaves the dictionaries in [P] alone, whatever it
    returns or raises, and whose value satisfies [Q]. *)
Definition keeps {A} (P : loc -> Prop) (m : M A) (Q : A -> Prop) : Prop :=
  forall w, (forall l, P l -> (l < length (heap w))%nat) ->
    untouched P w (snd (m w)) /\ forall a, fst (m w) = Ok a -> Q a.

Section CoordinatorSpec.

Variable env : Env.
Variable google_api_key : option string.

(** The coordinator as the specification words it: every type is searched
    with the same [share] of the results. *)
Fixpoint scrape_with_share (share : Z) (business_types : list string)
    (location : string) (all_businesses : list loc) : M (list loc) :=
  match business_types with
  | [] => ret all_businesses
  | business_type :: rest =>
      (print ("Searching for " +:+ business_type +:+ " businesses in " +:+ location +:+ "...") ;;
       businesses <- total (search_businesses env google_api_key business_type location 5000 share) ;;
       all_businesses' <- process_businesses env businesses all_businesses ;;
       scrape_with_share share rest location all_businesses')%py
  end.

End CoordinatorSpec.

(* ===================================================================== *)
(** * More vocabulary: events, records, rows, patterns *)
(* ===================================================================== *)

(** ** Reading more of a trace *)

(** The lines printed, in order. *)
Definition prints (tr : list event) : list string :=
  omap (fun e => match e with EvPrint line => Some line | _ => None end) tr.

(** The rows written to the CSV file, in order. *)
Definition csv_rows (tr : list event) : list (list string) :=
  omap (fun e => match e with EvWriteRow cells => Some cells | _ => None end) tr.

(** The parameters of every text search, in order. *)
Definition text_searches (tr : list event) : list (list (string * string)) :=
  omap (fun e =>
          match e with
          | EvRequestsGet url params =>
              if String.eqb url (places_base_url +:+ "/textsearch/json")
              then Some params else None
          | _ => None
          end) tr.

(** The delays of two seconds in a trace. *)
Definition long_delays (tr : list event) : list Z :=
  List.filter (Z.eqb 2000) (sleeps tr).

(** ** Classes of events *)

(** What a search may do once its text search is made: look places up,
    log, and wait a tenth of a second. *)
Definition lookup_event (e : event) : Prop :=
  match e with
  | EvRequestsGet url _ => url = places_base_url +:+ "/details/json"
  | EvSleep ms => ms = 100
  | EvPrint _ => True
  | _ => False
  end.

(** A step of the crawler or of a search: a request, a log line, or a
    delay of a second or of a tenth of one. *)
Definition fetch_event (e : event) : Prop :=
  match e with
  | EvRequestsGet _ _ | EvSessionGet _ | EvPrint _ => True
  | EvSleep ms => ms = 100 \/ ms = 1000
  | _ => False
  end.

(** What the coordinator may do: the steps of a search or of a crawl, an
    assignment to the [emails] of a record, a delay of two seconds. *)
Definition coordinator_event (e : event) : Prop :=
  match e with
  | EvSetItem _ key _ => key = "emails"
  | EvSleep ms => ms = 100 \/ ms = 1000 \/ ms = 2000
  | EvRequestsGet _ _ | EvSessionGet _ | EvPrint _ => True
  | _ => False
  end.

(** The same without the delay of two seconds: what is done for one
    business. *)
Definition business_event (e : event) : Prop :=
  coordinator_event e /\ e <> EvSleep 2000.

(** What writing the file and printing the summary may do: open, write
    rows, assign items, print.  No request and no delay. *)
Definition report_event (e : event) : Prop :=
  match e with
  | EvOpen _ | EvWriteRow _ | EvSetItem _ _ _ | EvPrint _ => True
  | _ => False
  end.

(** Every event a computation adds to the trace is one of [Q]. *)
Definition emits_only {A} (Q : event -> Prop) (m : M A) : Prop :=
  forall w, exists tr, trace (snd (m w)) = trace w ++ tr /\ Forall Q tr.

(** ** Records and rows *)

(** The keys of a record as [get_place_details] makes it. *)
Definition record_keys : gset string :=
  list_to_set ["name"; "address"; "phone"; "website"; "business_types"; "emails"].

(** The record was made of the result of a details lookup that the API
    answered with the status [OK]. *)
Definition from_details (env : Env) (google_api_key : option string)
    (r : PlaceResult) : Prop :=
  exists h place_id data,
    places_details env h (details_params google_api_key place_id) = inr data /\
    details_status data = "OK" /\ r = details_result data.

(** The e-mails of a record, when it has a list of them. *)
Definition emails_of (d : gmap string pyval) : list string :=
  match d !! "emails" with
  | Some (VList emails) => emails
  | _ => []
  end.

(** The e-mails of the record at [b]. *)
Definition emails_at (w : World) (b : loc) : list string :=
  emails_of (default ∅ (heap w !! b)).

(** The record at [b] has a list of e-mails. *)
Definition has_emails (w : World) (b : loc) : Prop :=
  exists d emails, heap w !! b = Some d /\ d !! "emails" = Some (VList emails).

(** A record [save_to_csv] can write: its [emails] are a list and it has
    no key beyond the field names. *)
Definition writable (d : gmap string pyval) : Prop :=
  (exists emails, d !! "emails" = Some (VList emails)) /\
  dom d ⊆ list_to_set fieldnames.

(** The row of a record, as the file should show it. *)
Definition csv_row (d : gmap string pyval) : list string :=
  [csv_cell (d !! "name"); csv_cell (d !! "address"); csv_cell (d !! "phone");
   csv_cell (d !! "website"); csv_cell (d !! "business_types");
   join "; " (emails_of d); pretty (Z.of_nat (length (emails_of d)))].

(** The copy of a record once the two cells are set. *)
Definition row_dict (d : gmap string pyval) : gmap string pyval :=
  <["email_count" := VInt (Z.of_nat (length (emails_of d)))]>
    (<["emails" := VStr (join "; " (emails_of d))]> d).

(** The number of e-mails of all the records together. *)
Definition count_emails (w : World) (businesses : list loc) : Z :=
  Z.of_nat (length (concat (map (emails_at w) businesses))).

(** The number of records that have one e-mail at least. *)
Definition count_with_emails (w : World) (businesses : list loc) : Z :=
  Z.of_nat (length (List.filter (fun b => negb (Nat.eqb (length (emails_at w b)) 0))
                      businesses)).

(** ** The quotient of two integers *)

(** [q] is the binary64 number nearest to the fraction [num / den], for
    [num] not negative and [den] positive.  A finite [q] has a mantissa
    [m] and an exponent [e] in the form of the format ([bounded]: the
    mantissa has 53 bits at most and the exponent is the least that the
    format has for it); [m * 2 ^ e] and the fraction differ by half of
    [2 ^ e] at most, and by exactly that half only when [m] is even.
    The two sides are multiplied by the denominators, so that only
    integers are compared.  A zero stands for a fraction of
    [2 ^ (-1075)] at most, half of the least positive number of the
    format. *)
Definition nearest_binary64 (num den : Z) (q : spec_float) : Prop :=
  match q with
  | S754_zero false => 2 ^ 1075 * num <= den
  | S754_finite false m e =>
      bounded prec emax m e = true /\
      let err := Z.abs (2 * (num * 2 ^ Z.max 0 (- e) - Z.pos m * den * 2 ^ Z.max 0 e)) in
      err <= den * 2 ^ Z.max 0 e /\
      (err = den * 2 ^ Z.max 0 e -> Z.even (Z.pos m) = true)
  | _ => False
  end.

(** The record [mrs] of a shift locates the fraction [N / D]: its
    mantissa is the integer part of the fraction, its round bit says
    that the rest is one half at least, its sticky bit that the rest is
    neither nothing nor one half. *)
Definition locates (N D : Z) (mrs : shr_record) : Prop :=
  shr_m mrs = N / D /\
  shr_r mrs = (D <=? 2 * (N mod D)) /\
  shr_s mrs = negb ((N mod D =? 0) || (2 * (N mod D) =? D)).

(** ** The strings of a pattern *)

(** Every character of [s] is in the class [p]. *)
Definition all_in (p : ascii -> bool) (s : string) : bool :=
  forallb p (list_ascii_of_string s).

(** The strings a pattern stands for, the word boundaries left aside:
    one piece for every item, a class giving [min] characters of the
    class at least, a literal its character. *)
Fixpoint pieces (items : list re_item) (m : string) : Prop :=
  match items with
  | [] => m = EmptyString
  | ReClass p min :: rest =>
      exists seg m', m = seg +:+ m' /\ (min <= String.length seg)%nat /\
                     all_in p seg = true /\ pieces rest m'
  | ReLit c :: rest => exists m', m = String c m' /\ pieces rest m'
  | ReWordBoundary :: rest => pieces rest m
  end.

(* ===================================================================== *)
(** * A small environment for examples *)
(* ===================================================================== *)

Module Sample.

(** The scheme is what precedes the first colon, the netloc what lies
    between [//] and the next [/], [?] or [#]; a bracket without its
    partner in the netloc is a [ValueError], as in [urllib]. *)
Fixpoint take_until (stop : ascii -> bool) (s : string) : string * string :=
  match s with
  | EmptyString => (EmptyString, EmptyString)
  | String c s' =>
      if stop c then (EmptyString, s)
      else let '(a, b) := take_until stop s' in (String c a, b)
  end.

Definition parse_url (url : string) : result (string * string) :=
  let '(scheme, rest) := take_until (Ascii.eqb ":") url in
  match rest with
  | String _ (String "/" (String "/" after)) =>
      let netloc := fst (take_until (one_of "/?#") after) in
      if xorb (existsb (Ascii.eqb "[") (list_ascii_of_string netloc))
              (existsb (Ascii.eqb "]") (list_ascii_of_string netloc))
      then Raise (ValueError "Invalid IPv6 URL")
      else Ok (lower scheme, netloc)
  | _ => Ok (EmptyString, EmptyString)
  end.

(** Joining an absolute path to [scheme://netloc]. *)
Definition join_url (base url : string) : result string := Ok (base +:+ url).

Fixpoint assoc {A} (key : string) (table : list (string * A)) : option A :=
  match table with
  | [] => None
  | (k, v) :: rest => if String.eqb k key then Some v else assoc key rest
  end.

(** An environment given by tables: the pages of the web, the answer to
    every query, the details of every place.  What is not in a table
    fails. *)
Definition table_env (web : list (string * Page))
    (searches : list (string * SearchData))
    (places : list (string * DetailsData)) : Env :=
  {| urlparse := parse_url;
     urljoin := join_url;
     session_get := fun _ url =>
       match assoc url web with
       | Some page => Ok page
       | None => Raise (RequestException ("404 Client Error: Not Found for url: " +:+ url))
       end;
     places_textsearch := fun _ params =>
       match assoc (default EmptyString (assoc "query" params)) searches with
       | Some data => inr data
       | None => inl "connection error"
       end;
     places_details := fun _ params =>
       match assoc (default EmptyString (assoc "place_id" params)) places with
       | Some data => inr data
       | None => inl "connection error"
       end |}.

Definition empty_world : World := mkWorld [] [].

Definition place (name website : string) : DetailsData :=
  mkDetailsData "OK"
    (mkPlaceResult (Some name) (Some "1 Main St") None
       (if String.eqb website EmptyString then None else Some website) (Some ["point_of_interest"])).

Definition found (ids : list string) : SearchData := mkSearchData "OK" None (Some ids).

(** A site with one page, and two places: one with that site, one
    without a website. *)
Definition web1 : list (string * Page) :=
  [("http://a.example",
    mkPage "Write to Info@A.example or joe@gmail.com"
      ["mailto:sales@a.example?subject=Hi"; "/about"])].

Definition env1 : Env :=
  table_env web1 [("law firm in Town", found ["pA"; "pB"])]
    [("pA", place "A" "http://a.example"); ("pB", place "B" EmptyString)].

(** Nothing answers. *)
Definition offline : Env := table_env [] [] [].

End Sample.

(** More sites and heaps for the examples. *)
Module MoreSamples.

Import Sample.

(** A site whose page has an address in its text and a link without
    address. *)
Definition web2 : list (string * Page) :=
  [("http://shop.example",
    mkPage "Orders: Orders@Shop.example" ["mailto:?subject=Hello"])].

Definition env2 : Env := table_env web2 [] [].

(** The sample site and places, found under the type [law firm] at the
    location of [main]. *)
Definition caringbah : Env :=
  table_env web1 [("law firm in Caringbah, NSW", found ["pA"; "pB"])]
    [("pA", place "A" "http://a.example"); ("pB", place "B" EmptyString)].

(** The sample site and places, found under the type [law firm] at the
    location of [main], behind URL functions that accept everything:
    where [urllib] would raise, [urlparse] gives an empty scheme and
    host. *)
Definition lenient : Env :=
  let base := table_env web1 [("law firm in Caringbah, NSW", found ["pA"; "pB"])]
                [("pA", place "A" "http://a.example"); ("pB", place "B" EmptyString)] in
  {| urlparse := fun url =>
       match parse_url url with
       | Ok r => Ok r
       | Raise _ => Ok (EmptyString, EmptyString)
       end;
     urljoin := join_url;
     session_get := session_get base;
     places_textsearch := places_textsearch base;
     places_details := places_details base |}.

(** Two records as a scrape leaves them, one with two e-mails and one
    with none, and a third dictionary that is no record. *)
Definition three_dicts : World :=
  mkWorld
    [<["emails" := VList ["sales@a.example"; "info@a.example"]]>
       (business_dict (details_result (place "A" "http://a.example")));
     business_dict (details_result (place "B" EmptyString));
     <["name" := VStr "C"]> ∅]
    [].

(** Four records with three, two, two and no e-mails. *)
Definition four_records : World :=
  mkWorld
    [<["emails" := VList ["info@a.example"; "sales@a.example"; "jobs@a.example"]]>
       (business_dict (details_result (place "A" "http://a.example")));
     <["emails" := VList ["info@b.example"; "sales@b.example"]]>
       (business_dict (details_result (place "B" "http://b.example")));
     <["emails" := VList ["info@c.example"; "sales@c.example"]]>
       (business_dict (details_result (place "C" "http://c.example")));
     business_dict (details_result (place "D" EmptyString))]
    [].

End MoreSamples.

(* ===================================================================== *)
(** * Properties *)
(* ===================================================================== *)

Import Sample.

(* --------------------------------------------------------------------- *)
(** ** Strings: lower, split, replace *)
(* --------------------------------------------------------------------- *)

Lemma lower_ascii_idem (c : ascii) : lower_ascii (lower_ascii c) = lower_ascii c.
Proof. destruct c as [[] [] [] [] [] [] [] []]; reflexivity. Qed.

Lemma lower_idem (s : string) : lower (lower s) = lower s.
Proof. induction s as [|c s IH]; simpl; [done|]. by rewrite lower_ascii_idem, IH. Qed.

Lemma split_cons (sep : ascii) (s : string) : exists seg segs, split sep s = seg :: segs.
Proof.
  induction s as [|c s (seg & segs & IH)]; simpl; [by eauto|].
  destruct (Ascii.eqb c sep); [by eauto|]. rewrite IH. eauto.
Qed.

Lemma split_hd_no_sep (sep : ascii) (s : string) :
  has_char sep (hd EmptyString (split sep s)) = false.
Proof.
  induction s as [|c s IH]; simpl; [done|].
  destruct (Ascii.eqb c sep) eqn:E; [done|].
  destruct (split_cons sep s) as (seg & segs & Hs). rewrite Hs in *. simpl in *.
  unfold has_char in *. simpl. rewrite IH, orb_false_r.
  rewrite Ascii.eqb_sym. exact E.
Qed.

Lemma split_with_sep (sep : ascii) (s : string) :
  has_char sep s = true ->
  exists rest, s = hd EmptyString (split sep s) +:+ String sep rest.
Proof.
  unfold has_char. induction s as [|c s IH]; simpl; [done|].
  intros H. destruct (Ascii.eqb c sep) eqn:E.
  - apply Ascii.eqb_eq in E as ->. by exists s.
  - rewrite Ascii.eqb_sym, E in H. simpl in H.
    destruct (IH H) as [rest Hr].
    destruct (split_cons sep s) as (seg & segs & Hs). rewrite Hs in *. simpl in *.
    exists rest. by rewrite Hr at 1.
Qed.

Lemma before_first_cons (sep c : ascii) (s : string) :
  before_first sep (String c s) =
  if Ascii.eqb c sep then EmptyString else String c (before_first sep s).
Proof.
  unfold before_first. simpl. destruct (Ascii.eqb c sep); [done|].
  by destruct (split_cons sep s) as (seg & segs & ->).
Qed.

Lemma prefix_before_first (sep : ascii) (old s : string) :
  has_char sep old = false ->
  String.prefix old (before_first sep s) = String.prefix old s.
Proof.
  unfold has_char. revert s. induction old as [|a old IH]; intros s H; simpl.
  - by destruct (before_first sep s), s.
  - simpl in H. apply orb_false_elim in H as [H1 H2].
    destruct s as [|c s]; [done|]. rewrite before_first_cons.
    destruct (Ascii.eqb c sep) eqn:E.
    + apply Ascii.eqb_eq in E as ->. simpl.
      destruct (ascii_dec a sep) as [->|Hne]; [|done].
      by rewrite Ascii.eqb_refl in H1.
    + simpl. destruct (ascii_dec a c); [|done]. by apply IH.
Qed.

Lemma prefix_free_for (sep : ascii) (old s : string) :
  has_char sep old = false -> String.prefix old s = true ->
  free_for sep (String.length old) s.
Proof.
  unfold has_char. revert s. induction old as [|a old IH]; intros s H Hp; simpl; [done|].
  destruct s as [|c s]; [done|]. simpl in *.
  apply orb_false_elim in H as [H1 H2].
  destruct (ascii_dec a c) as [->|]; [|done]. split; [|by apply IH].
  intros ->. by rewrite Ascii.eqb_refl in H1.
Qed.

Lemma before_first_cons_ne (sep c : ascii) (s : string) :
  c <> sep -> before_first sep (String c s) = String c (before_first sep s).
Proof.
  intros H. rewrite before_first_cons.
  destruct (Ascii.eqb c sep) eqn:E; [by apply Ascii.eqb_eq in E|done].
Qed.

Lemma replace_from_before_first (sep : ascii) (old : string) (skip : nat) (s : string) :
  has_char sep old = false -> old <> EmptyString -> free_for sep skip s ->
  before_first sep (replace_from skip old EmptyString s) =
  replace_from skip old EmptyString (before_first sep s).
Proof.
  intros Hold Hne. revert skip. induction s as [|c s IH]; intros skip Hfree.
  - by destruct skip.
  - destruct skip as [|k].
    + cbn [replace_from].
      destruct (String.prefix old (String c s)) eqn:Hp.
      * pose proof (prefix_free_for sep old _ Hold Hp) as Hf.
        destruct old as [|a old]; [done|]. destruct Hf as [Hc Hf].
        rewrite (before_first_cons_ne sep c s Hc). cbn [replace_from].
        rewrite <- (before_first_cons_ne sep c s Hc).
        rewrite prefix_before_first, Hp by done.
        cbn [String.append String.length Nat.pred]. by apply IH.
      * rewrite before_first_cons.
        destruct (Ascii.eqb c sep) eqn:E; [by rewrite before_first_cons, E|].
        assert (c <> sep) as Hc by (intros ->; by rewrite Ascii.eqb_refl in E).
        rewrite (before_first_cons_ne sep c s Hc). cbn [replace_from].
        rewrite <- (before_first_cons_ne sep c s Hc).
        rewrite prefix_before_first, Hp by done.
        f_equal. by apply IH.
    + destruct Hfree as [Hc Hf].
      rewrite (before_first_cons_ne sep c s Hc). cbn [replace_from]. by apply IH.
Qed.

Lemma mailto_address_before_query (href : string) :
  mailto_address href = replace "mailto:" EmptyString (before_first "?" href).
Proof.
  unfold mailto_address, replace.
  by apply (replace_from_before_first "?" "mailto:" 0 href).
Qed.

Lemma has_char_cons (sep c : ascii) (s : string) :
  has_char sep (String c s) = Ascii.eqb sep c || has_char sep s.
Proof. done. Qed.

(** Removing the occurrences of [old] removes no [sep] when [old] has
    none. *)
Lemma replace_from_has_char (sep : ascii) (old : string) (skip : nat) (s : string) :
  has_char sep old = false -> old <> EmptyString -> free_for sep skip s ->
  has_char sep (replace_from skip old EmptyString s) = has_char sep s.
Proof.
  intros Hold Hne. revert skip. induction s as [|c s IH]; intros skip Hfree.
  - by destruct skip.
  - destruct skip as [|k].
    + cbn [replace_from]. destruct (String.prefix old (String c s)) eqn:Hp.
      * pose proof (prefix_free_for sep old _ Hold Hp) as Hf.
        destruct old as [|a old]; [done|]. destruct Hf as [Hc Hf].
        change (has_char sep (replace_from (String.length old) (String a old) EmptyString s)
                = has_char sep (String c s)).
        rewrite IH by done. rewrite has_char_cons.
        destruct (Ascii.eqb_spec sep c); [congruence|done].
      * rewrite !has_char_cons. by rewrite IH.
    + destruct Hfree as [Hc Hf]. cbn [replace_from]. rewrite IH by done.
      rewrite has_char_cons. destruct (Ascii.eqb_spec sep c); [congruence|done].
Qed.

(** C8. For a [mailto:] link whose [href] has a query string, the address
    that joins the candidates is the part before the first [?]: it is
    among the candidates of the page, it has no [?], it is what precedes
    the first [?] of the [href] without [mailto:], and the [href] without
    [mailto:] is that address, the [?] and the rest. *)
Theorem mailto_query_excluded (page : Page) (href : string) :
  In href (page_hrefs page) ->
  String.prefix "mailto:" href = true ->
  has_char "?" href = true ->
  In (mailto_address href) (found_emails page) /\
  has_char "?" (mailto_address href) = false /\
  mailto_address href = replace "mailto:" EmptyString (before_first "?" href) /\
  exists query,
    replace "mailto:" EmptyString href = mailto_address href +:+ String "?" query.
Proof.
  intros Hin Hpre Hq. split_and!.
  - unfold found_emails, mailto_links. apply in_or_app. right.
    apply in_map. apply filter_In. by split.
  - apply split_hd_no_sep.
  - apply mailto_address_before_query.
  - unfold mailto_address. apply split_with_sep.
    unfold replace. by rewrite replace_from_has_char.
Qed.

(* --------------------------------------------------------------------- *)
(** ** Running a computation *)
(* --------------------------------------------------------------------- *)

Lemma bind_run {A B} (m : M A) (f : A -> M B) (w w1 : World) (a : A) :
  m w = (Ok a, w1) -> bind m f w = f a w1.
Proof. intros H. unfold bind. by rewrite H. Qed.

Lemma bind_run_raise {A B} (m : M A) (f : A -> M B) (w w1 : World) (e : exn) :
  m w = (Raise e, w1) -> bind m f w = (Raise e, w1).
Proof. intros H. unfold bind. by rewrite H. Qed.

Lemma bind_lift_result {A B} (r : result A) (f : A -> M B) (w : World) :
  bind (lift_result r) f w = match r with Ok a => f a w | Raise e => (Raise e, w) end.
Proof. by destruct r. Qed.

Lemma bind_ext {A B} (m : M A) (f g : A -> M B) (w : World) :
  (forall a w', f a w' = g a w') -> bind m f w = bind m g w.
Proof. intros H. unfold bind. destruct (m w) as [[a|e] w']; [apply H|done]. Qed.

Lemma run_getitem (l : loc) (key : string) (w : World) (d : gmap string pyval) (v : pyval) :
  heap w !! l = Some d -> d !! key = Some v -> getitem l key w = (Ok v, w).
Proof. intros Hl Hk. unfold getitem. rewrite Hl. simpl. by rewrite Hk. Qed.

(* --------------------------------------------------------------------- *)
(** ** The crawler: its requests, delays and failures *)
(* --------------------------------------------------------------------- *)

Section CrawlerFacts.

Variable env : Env.

Lemma filter_emails_error (found : list string) (emails emails' : gset string) :
  snd (filter_emails found emails) = snd (filter_emails found emails').
Proof.
  revert emails emails'. induction found as [|email rest IH]; intros emails emails'; simpl; [done|].
  destruct (split "@" email !! 1%nat); [|done].
  repeat case_match; auto.
Qed.

Lemma crawl_loop_break (pages : list string) (max_pages checked : Z)
    (emails : gset string) (w : World) :
  max_pages <= checked -> crawl_loop env pages max_pages checked emails w = (emails, w).
Proof.
  intros H. destruct pages as [|p rest]; simpl; [done|].
  destruct (checked >=? max_pages) eqn:E; [done|lia].
Qed.

Lemma crawl_loop_trace (pages : list string) (max_pages checked : Z)
    (emails : gset string) (w : World) :
  checked + Z.of_nat (length pages) <= max_pages ->
  trace (snd (crawl_loop env pages max_pages checked emails w))
  = trace w ++ crawl_events env (trace w) pages
  /\ heap (snd (crawl_loop env pages max_pages checked emails w)) = heap w.
Proof.
  revert checked emails w. induction pages as [|p rest IH]; intros checked emails w Hle.
  - simpl. by rewrite app_nil_r.
  - cbn [crawl_loop crawl_events]. cbn [length] in Hle.
    destruct (checked >=? max_pages) eqn:E; [lia|].
    unfold attempt_events, attempt_outcome.
    destruct (session_get env (trace w) p) as [page|e] eqn:Hget.
    + rewrite (filter_emails_error _ ∅ emails).
      destruct (filter_emails (found_emails page) emails) as [emails' [e|]] eqn:Hf; cbn [snd].
      * destruct (IH checked emails' (emit (EvPrint (scrape_error_line p e)) (emit (EvSessionGet p) w))) as [Ht Hh]; [lia|].
        rewrite Ht, Hh. simpl. by rewrite <- !app_assoc.
      * destruct (IH (checked + 1) emails' (emit (EvSleep 1000) (emit (EvSessionGet p) w))) as [Ht Hh]; [lia|].
        rewrite Ht, Hh. simpl. by rewrite <- !app_assoc.
    + destruct (IH checked emails (emit (EvPrint (scrape_error_line p e)) (emit (EvSessionGet p) w))) as [Ht Hh]; [lia|].
      rewrite Ht, Hh. simpl. by rewrite <- !app_assoc.
Qed.

Lemma crawl_slice_trace (pages : list string) (max_pages : Z) (w : World) :
  trace (snd (crawl_loop env (slice_to pages max_pages) max_pages 0 ∅ w))
  = trace w ++ crawl_events env (trace w) (take (Z.to_nat max_pages) pages)
  /\ heap (snd (crawl_loop env (slice_to pages max_pages) max_pages 0 ∅ w)) = heap w.
Proof.
  destruct (Z.ltb_spec max_pages 0) as [Hneg|Hpos].
  - rewrite crawl_loop_break by lia.
    replace (Z.to_nat max_pages) with 0%nat by lia. simpl. by rewrite app_nil_r.
  - unfold slice_to. destruct (max_pages <? 0) eqn:E; [lia|].
    apply crawl_loop_trace. rewrite length_take. lia.
Qed.

Lemma session_gets_crawl_events (h : list event) (pages : list string) :
  session_gets (crawl_events env h pages) = pages.
Proof.
  revert h. induction pages as [|p rest IH]; intros h; simpl; [done|].
  f_equal. destruct (attempt_outcome env h p); simpl; apply IH.
Qed.

End CrawlerFacts.

Section CrawlerTheorems.

Variable env : Env.

Lemma pages_to_check_inv (url : string) (pages : list string) :
  pages_to_check env url = Ok pages ->
  exists scheme netloc p1 p2 p3 p4,
    urlparse env url = Ok (scheme, netloc) /\
    urljoin env (scheme +:+ "://" +:+ netloc) "/contact" = Ok p1 /\
    urljoin env (scheme +:+ "://" +:+ netloc) "/contact-us" = Ok p2 /\
    urljoin env (scheme +:+ "://" +:+ netloc) "/about" = Ok p3 /\
    urljoin env (scheme +:+ "://" +:+ netloc) "/about-us" = Ok p4 /\
    pages = [url; p1; p2; p3; p4].
Proof.
  unfold pages_to_check, result_bind. intros H.
  destruct (urlparse env url) as [[scheme netloc]|]; [|done].
  destruct (urljoin env _ "/contact") as [p1|] eqn:H1; [|done].
  destruct (urljoin env _ "/contact-us") as [p2|] eqn:H2; [|done].
  destruct (urljoin env _ "/about") as [p3|] eqn:H3; [|done].
  destruct (urljoin env _ "/about-us") as [p4|] eqn:H4; [|done].
  injection H as <-. by exists scheme, netloc, p1, p2, p3, p4.
Qed.

(** The crawler on a URL whose pages could be listed. *)
Lemma extract_run (url : string) (pages : list string) (max_pages : Z) (w : World) :
  url <> EmptyString -> pages_to_check env url = Ok pages ->
  extract_emails_from_website env (VStr url) max_pages w
  = (Ok (elements (fst (crawl_loop env (slice_to pages max_pages) max_pages 0 ∅ w))),
     snd (crawl_loop env (slice_to pages max_pages) max_pages 0 ∅ w)).
Proof.
  intros Hne Hp. unfold extract_emails_from_website. simpl.
  destruct (String.eqb url EmptyString) eqn:E; [by apply String.eqb_eq in E|]. simpl.
  unfold bind, lift_result, total. rewrite Hp.
  by destruct (crawl_loop env _ _ _ _ _).
Qed.

(** The crawler when it stops before any request. *)
Lemma extract_no_request (website_url : pyval) (max_pages : Z) (w : World) :
  truthy website_url = false \/ (forall url, website_url <> VStr url)
  \/ (exists url e, website_url = VStr url /\ pages_to_check env url = Raise e) ->
  snd (extract_emails_from_website env website_url max_pages w) = w.
Proof.
  unfold extract_emails_from_website. intros [H|[H|(url & e & -> & H)]].
  - by rewrite H.
  - destruct (truthy website_url); [|done]. destruct website_url; try done. by destruct (H s).
  - destruct (truthy (VStr url)); [|done]. simpl. unfold bind, lift_result. by rewrite H.
Qed.

Lemma extract_cases (website_url : pyval) (max_pages : Z) (w : World) :
  snd (extract_emails_from_website env website_url max_pages w) = w
  \/ exists url pages, website_url = VStr url /\ url <> EmptyString
                       /\ pages_to_check env url = Ok pages.
Proof.
  destruct (truthy website_url) eqn:Ht.
  2:{ left. apply extract_no_request. by left. }
  destruct website_url as [|url| |]; try (left; apply extract_no_request; right; left; done).
  destruct (pages_to_check env url) as [pages|e] eqn:Hp.
  - right. exists url, pages. split_and!; [done| |done].
    intros ->. done.
  - left. apply extract_no_request. right. right. eauto.
Qed.

Lemma crawl_events_head (h : list event) (pages : list string) :
  crawl_events env h pages = [] \/
  exists u rest, crawl_events env h pages = EvSessionGet u :: rest.
Proof. destruct pages as [|p rest]; [by left|right]. simpl. eauto. Qed.

(** Where a request sits in the events of a crawl, and what follows. *)
Lemma crawl_events_get (h : list event) (pages : list string)
    (before after : list event) (u : string) :
  crawl_events env h pages = before ++ EvSessionGet u :: after ->
  exists rest,
    after = match attempt_outcome env (h ++ before) u with
            | None => EvSleep 1000
            | Some e => EvPrint (scrape_error_line u e)
            end :: crawl_events env (h ++ before ++ attempt_events env (h ++ before) u) rest.
Proof.
  revert h before. induction pages as [|p rest IH]; intros h before H.
  - by destruct before.
  - cbn [crawl_events] in H. unfold attempt_events at 1 in H.
    destruct before as [|b1 before].
    + simpl in H. injection H as <- <-. exists rest. by rewrite app_nil_r.
    + simpl in H. injection H as <- H.
      destruct before as [|b2 before].
      * simpl in H. injection H as H _. by destruct (attempt_outcome env h p).
      * simpl in H. injection H as <- H.
        apply IH in H as [rest' Hr]. exists rest'.
        rewrite <- !app_assoc in Hr. exact Hr.
Qed.

(** Where a delay sits in the events of a crawl: right after the request
    of an attempt that raised nothing. *)
Lemma crawl_events_sleep (h : list event) (pages : list string)
    (before after : list event) (ms : Z) :
  crawl_events env h pages = before ++ EvSleep ms :: after ->
  ms = 1000 /\ exists before' u,
    before = before' ++ [EvSessionGet u] /\ attempt_outcome env (h ++ before') u = None.
Proof.
  revert h before. induction pages as [|p rest IH]; intros h before H.
  - by destruct before.
  - cbn [crawl_events] in H. unfold attempt_events at 1 in H.
    destruct before as [|b1 before]; [done|].
    simpl in H. injection H as <- H.
    destruct before as [|b2 before].
    + simpl in H. injection H as H _.
      destruct (attempt_outcome env h p) eqn:Ho; [done|]. injection H as <-.
      split; [done|]. exists [], p. by rewrite app_nil_r.
    + simpl in H. injection H as <- H.
      apply IH in H as [-> (before' & u & -> & Ho)]. split; [done|].
      exists (EvSessionGet p :: match attempt_outcome env h p with
                                | None => EvSleep 1000
                                | Some e => EvPrint (scrape_error_line p e)
                                end :: before'), u.
      split; [done|]. rewrite <- !app_assoc in Ho. exact Ho.
Qed.

(** What the crawler adds to the trace. *)
Lemma extract_trace (website_url : pyval) (max_pages : Z) (w : World) :
  exists pages,
    trace (snd (extract_emails_from_website env website_url max_pages w))
    = trace w ++ crawl_events env (trace w) (take (Z.to_nat max_pages) pages)
    /\ heap (snd (extract_emails_from_website env website_url max_pages w)) = heap w
    /\ (pages = [] \/ exists url, website_url = VStr url /\ url <> EmptyString
                                  /\ pages_to_check env url = Ok pages).
Proof.
  destruct (extract_cases website_url max_pages w) as [H|(url & pages & -> & Hne & Hp)].
  - exists []. rewrite H, take_nil. simpl. rewrite app_nil_r. auto.
  - exists pages. rewrite (extract_run url pages) by done. cbn [snd].
    destruct (crawl_slice_trace env pages max_pages w) as [Ht Hh].
    split_and!; [done|done|]. right. eauto.
Qed.

(** C3. For every website URL and every [max_pages], the pages the
    crawler requests number at most [max_pages] (none when it is
    negative), and they are the first candidates of the list: the URL
    itself, then [/contact], [/contact-us], [/about], [/about-us] joined
    to [scheme://netloc] of the URL, in that order. *)
Theorem crawler_request_cap_and_order (website_url : pyval) (max_pages : Z) (w : World) :
  let w' := snd (extract_emails_from_website env website_url max_pages w) in
  exists tr,
    trace w' = trace w ++ tr /\
    Z.of_nat (length (session_gets tr)) <= Z.max 0 max_pages /\
    (session_gets tr = [] \/
     exists url scheme netloc p1 p2 p3 p4,
       website_url = VStr url /\
       urlparse env url = Ok (scheme, netloc) /\
       urljoin env (scheme +:+ "://" +:+ netloc) "/contact" = Ok p1 /\
       urljoin env (scheme +:+ "://" +:+ netloc) "/contact-us" = Ok p2 /\
       urljoin env (scheme +:+ "://" +:+ netloc) "/about" = Ok p3 /\
       urljoin env (scheme +:+ "://" +:+ netloc) "/about-us" = Ok p4 /\
       session_gets tr = take (Z.to_nat max_pages) [url; p1; p2; p3; p4]).
Proof.
  intros w'. subst w'.
  destruct (extract_trace website_url max_pages w) as (pages & Ht & _ & Hp).
  eexists. split; [exact Ht|]. rewrite session_gets_crawl_events.
  split; [rewrite length_take; lia|].
  destruct Hp as [->|(url & -> & Hne & Hp)]; [left; by rewrite take_nil|].
  right. apply pages_to_check_inv in Hp as (scheme & netloc & p1 & p2 & p3 & p4 & ? & ? & ? & ? & ? & ->).
  by exists url, scheme, netloc, p1, p2, p3, p4.
Qed.

(** C2.  Where the crawler delays: after every page whose request, parse
    and filter loop raise nothing it sleeps one second before it goes on,
    as the claim says; after an attempt that raises it logs the error and
    goes on with no delay, so the delay of the claim is missing after
    every attempt that fails.  There is no other delay. *)
Theorem crawler_delay_after_success (website_url : pyval) (max_pages : Z) (w : World) :
  let w' := snd (extract_emails_from_website env website_url max_pages w) in
  exists tr,
    trace w' = trace w ++ tr /\
    (forall before page_url after,
       tr = before ++ EvSessionGet page_url :: after ->
       match attempt_outcome env (trace w ++ before) page_url with
       | None => exists after', after = EvSleep 1000 :: after'
       | Some e =>
           exists after', after = EvPrint (scrape_error_line page_url e) :: after'
                          /\ (after' = [] \/ exists u rest, after' = EvSessionGet u :: rest)
       end) /\
    (forall before ms after,
       tr = before ++ EvSleep ms :: after ->
       ms = 1000 /\ exists before' page_url,
         before = before' ++ [EvSessionGet page_url]
         /\ attempt_outcome env (trace w ++ before') page_url = None).
Proof.
  intros w'. subst w'.
  destruct (extract_trace website_url max_pages w) as (pages & Ht & _ & _).
  eexists. split; [exact Ht|]. split.
  - intros before u after H. apply crawl_events_get in H as [rest ->].
    destruct (attempt_outcome env (trace w ++ before) u); [|by eauto].
    eexists. split; [done|]. apply crawl_events_head.
  - intros before ms after H. by apply crawl_events_sleep in H.
Qed.

Lemma crawl_loop_all_fail (pages : list string) (max_pages checked : Z)
    (emails : gset string) (w : World) :
  (forall h p, exists e, session_get env h p = Raise e) ->
  fst (crawl_loop env pages max_pages checked emails w) = emails.
Proof.
  intros Hfail. revert w. induction pages as [|p rest IH]; intros w; simpl; [done|].
  destruct (checked >=? max_pages); [done|].
  destruct (Hfail (trace w) p) as [e ->]. apply IH.
Qed.

(** C7.  The crawler on every URL.  It gives the empty list at once,
    with no request, for a URL that is [None] or empty.  For a URL that
    [urlparse] and [urljoin] accept and whose candidate pages all fail to
    fetch it gives the empty list and raises nothing: every candidate
    within the cap is still requested, every failure is logged, and
    there is nothing else in the trace.  For a URL that [urlparse] or
    [urljoin] rejects the claim fails: their exception is raised before
    the [try], so that the crawler raises it, with no request and no
    line logged, whatever the pages do. *)
Theorem crawler_empty_or_unreachable (max_pages : Z) (w : World) :
  extract_emails_from_website env VNone max_pages w = (Ok [], w) /\
  extract_emails_from_website env (VStr EmptyString) max_pages w = (Ok [], w) /\
  (forall url pages,
    url <> EmptyString ->
    pages_to_check env url = Ok pages ->
    (forall h p, exists e, session_get env h p = Raise e) ->
    exists w' tr,
      extract_emails_from_website env (VStr url) max_pages w = (Ok [], w') /\
      heap w' = heap w /\ trace w' = trace w ++ tr /\
      session_gets tr = take (Z.to_nat max_pages) pages /\
      forall before p after,
        tr = before ++ EvSessionGet p :: after ->
        exists e after',
          session_get env (trace w ++ before) p = Raise e /\
          after = EvPrint (scrape_error_line p e) :: after' /\
          (after' = [] \/ exists u rest, after' = EvSessionGet u :: rest)) /\
  (forall url e,
    url <> EmptyString ->
    pages_to_check env url = Raise e ->
    extract_emails_from_website env (VStr url) max_pages w = (Raise e, w)).
Proof.
  split; [done|]. split; [done|]. split.
  2:{ intros url e Hne Hp. unfold extract_emails_from_website. cbn [truthy].
      destruct (String.eqb_spec url EmptyString) as [|_]; [done|]. cbn [negb].
      rewrite bind_lift_result. by rewrite Hp. }
  intros url pages Hne Hp Hfail.
  rewrite (extract_run url pages) by done.
  rewrite crawl_loop_all_fail by done.
  destruct (crawl_slice_trace env pages max_pages w) as [Ht Hh].
  do 2 eexists. split; [done|]. split; [exact Hh|]. split; [exact Ht|].
  split; [apply session_gets_crawl_events|].
  intros before p after H. apply crawl_events_get in H as [rest ->].
  unfold attempt_outcome. destruct (Hfail (trace w ++ before) p) as [e He]. rewrite He.
  do 2 eexists. split; [done|]. split; [done|]. apply crawl_events_head.
Qed.

End CrawlerTheorems.

(* --------------------------------------------------------------------- *)
(** ** The search: order and cap *)
(* --------------------------------------------------------------------- *)

Lemma outcomes_last {A} (l : list A) : l = [] \/ exists init x, l = init ++ [x].
Proof.
  induction l as [|a l IH] using rev_ind; [by left|right]. eauto.
Qed.

Section SearchFacts.

Variable env : Env.
Variable google_api_key : option string.

Lemma details_lookups_app (a b : list event) :
  details_lookups (a ++ b) = details_lookups a ++ details_lookups b.
Proof. unfold details_lookups. by rewrite omap_app. Qed.

(** One lookup: its events, and the record it makes, if any. *)
Lemma get_place_details_spec (place_id : string) (w : World) :
  exists evs,
    trace (snd (get_place_details env google_api_key place_id w)) = trace w ++ evs /\
    details_lookups evs = [place_id] /\
    (forall l, assignments l evs = []) /\
    ((fst (get_place_details env google_api_key place_id w) = None /\
      heap (snd (get_place_details env google_api_key place_id w)) = heap w)
     \/ exists r,
      fst (get_place_details env google_api_key place_id w) = Some (length (heap w)) /\
      heap (snd (get_place_details env google_api_key place_id w))
      = heap w ++ [business_dict r]).
Proof.
  unfold get_place_details.
  destruct (places_details env (trace w) _) as [msg|data].
  - eexists. simpl. rewrite <- app_assoc. split; [done|]. split; [done|]. split; [done|]. by left.
  - destruct (String.eqb (details_status data) "OK").
    + eexists. simpl. split; [done|]. split; [done|]. split; [done|]. right. by eexists.
    + eexists. simpl. split; [done|]. split; [done|]. split; [done|]. by left.
Qed.

Lemma assignments_app (l : loc) (a b : list event) :
  assignments l (a ++ b) = assignments l a ++ assignments l b.
Proof. unfold assignments. by rewrite omap_app. Qed.

(** The loop over the places.  [outcomes] pairs every place looked up
    with the record made of it, if any. *)
Lemma search_loop_spec (places : list string) (max_results : Z)
    (acc : list loc) (w : World) :
  exists tr outcomes rs,
    trace (snd (search_loop env google_api_key places max_results acc w)) = trace w ++ tr /\
    details_lookups tr = map fst outcomes /\
    map fst outcomes `prefix_of` places /\
    fst (search_loop env google_api_key places max_results acc w) = acc ++ omap snd outcomes /\
    (forall j, (j < length outcomes)%nat ->
       Z.of_nat (length acc + length (omap snd (take j outcomes))) < max_results) /\
    ((length outcomes < length places)%nat ->
       max_results <= Z.of_nat (length (acc ++ omap snd outcomes))) /\
    (forall l, assignments l tr = []) /\
    heap (snd (search_loop env google_api_key places max_results acc w))
    = heap w ++ map business_dict rs /\
    omap snd outcomes = seq (length (heap w)) (length rs).
Proof.
  revert acc w. induction places as [|p rest IH]; intros acc w.
  - exists [], [], []. simpl. rewrite !app_nil_r. split_and!; try done; lia.
  - cbn [search_loop].
    destruct (Z.of_nat (length acc) >=? max_results) eqn:Hbrk.
    + exists [], [], []. simpl. rewrite !app_nil_r. split_and!; try done; try lia.
      apply prefix_nil.
    + destruct (get_place_details_spec p w) as (evs & Ht & Hl & Ha & Hh).
      destruct (get_place_details env google_api_key p w) as [info w1] eqn:Hg.
      cbn [fst snd] in *.
      set (acc' := match info with Some b => acc ++ [b] | None => acc end).
      destruct (IH acc' (emit (EvSleep 100) w1))
        as (tr & outcomes & rs & IHt & IHl & IHp & IHr & IHj & IHs & IHa & IHh & IHo).
      exists (evs ++ [EvSleep 100] ++ tr), ((p, info) :: outcomes).
      assert (exists rs', heap (snd (search_loop env google_api_key rest max_results acc'
                                       (emit (EvSleep 100) w1)))
                          = heap w ++ map business_dict rs'
                          /\ omap snd ((p, info) :: outcomes) = seq (length (heap w)) (length rs'))
        as (rs' & Hheap & Hseq).
      { change (heap (emit (EvSleep 100) w1)) with (heap w1) in IHh, IHo.
        destruct Hh as [[-> Hh]|(r & -> & Hh)].
        - exists rs. rewrite Hh in IHh, IHo. split; [exact IHh|exact IHo].
        - exists (r :: rs). rewrite Hh in IHh, IHo.
          rewrite <- app_assoc in IHh. split; [exact IHh|].
          rewrite length_app, Nat.add_1_r in IHo.
          change (length (heap w) :: omap snd outcomes
                  = length (heap w) :: seq (S (length (heap w))) (length rs)).
          by f_equal. }
      exists rs'. split_and!; try done.
      * rewrite IHt. simpl. rewrite Ht. by rewrite <- !app_assoc.
      * rewrite !details_lookups_app, Hl, IHl. done.
      * simpl. by apply prefix_cons.
      * rewrite IHr. subst acc'. destruct info; simpl; by rewrite <- ?app_assoc.
      * intros [|j] Hj.
        -- simpl. rewrite Nat.add_0_r. lia.
        -- simpl in Hj. specialize (IHj j ltac:(lia)). subst acc'.
           destruct info as [b|].
           ++ change (omap snd (take (S j) ((p, Some b) :: outcomes)))
                with (b :: omap snd (take j outcomes)).
              rewrite length_app in IHj. cbn [length] in IHj |- *. lia.
           ++ exact IHj.
      * intros Hlt. cbn [length] in Hlt. specialize (IHs ltac:(lia)). subst acc'.
        destruct info as [b|].
        -- change (omap snd ((p, Some b) :: outcomes)) with ([b] ++ omap snd outcomes).
           by rewrite app_assoc.
        -- exact IHs.
      * intros l. rewrite !assignments_app, Ha, IHa. done.
Qed.

(** One search: the lookups it makes and the records it returns. *)
Lemma search_businesses_spec (query location : string) (radius max_results : Z) (w : World) :
  let answer := places_textsearch env (trace w) (search_params google_api_key query location radius) in
  let run := search_businesses env google_api_key query location radius max_results w in
  exists tr outcomes rs,
    trace (snd run) = trace w ++ tr /\
    details_lookups tr = map fst outcomes /\
    map fst outcomes `prefix_of` places_of answer /\
    fst run = omap snd outcomes /\
    (forall j, (j < length outcomes)%nat ->
       Z.of_nat (length (omap snd (take j outcomes))) < max_results) /\
    ((length outcomes < length (places_of answer))%nat ->
       max_results <= Z.of_nat (length (fst run))) /\
    (forall l, assignments l tr = []) /\
    heap (snd run) = heap w ++ map business_dict rs /\
    fst run = seq (length (heap w)) (length rs).
Proof.
  intros answer run. subst answer run. unfold search_businesses, places_of.
  destruct (places_textsearch env (trace w) _) as [msg|data].
  { eexists [_; _], [], []. cbn [fst snd map length omap seq emit trace heap].
    rewrite <- app_assoc, app_nil_r. split_and!; try done; lia. }
  destruct (String.eqb (search_status data) "OK"); simpl negb; cbv iota.
  2:{ destruct (search_error_message data).
      - eexists [_; _; _; _], [], []. cbn [fst snd map length omap seq emit trace heap].
        rewrite <- !app_assoc, app_nil_r. split_and!; try done; lia.
      - eexists [_; _; _], [], []. cbn [fst snd map length omap seq emit trace heap].
        rewrite <- !app_assoc, app_nil_r. split_and!; try done; lia. }
  destruct (search_loop_spec (default [] (search_results data)) max_results []
              (emit (EvRequestsGet (places_base_url +:+ "/textsearch/json")
                       (search_params google_api_key query location radius)) w))
    as (tr & outcomes & rs & Ht & Hl & Hp & Hr & Hj & Hs & Ha & Hh & Ho).
  exists (EvRequestsGet (places_base_url +:+ "/textsearch/json")
            (search_params google_api_key query location radius) :: tr), outcomes, rs.
  split_and!; try done.
  - rewrite Ht. simpl. by rewrite <- app_assoc.
  - rewrite Hr. exact Hs.
  - rewrite Hr. exact Ho.
Qed.

(** A search returns at most [max_results] records. *)
Lemma search_businesses_length (query location : string) (radius max_results : Z) (w : World) :
  Z.of_nat (length (fst (search_businesses env google_api_key query location radius
                           max_results w))) <= Z.max 0 max_results.
Proof.
  destruct (search_businesses_spec query location radius max_results w)
    as (tr & outcomes & rs & _ & _ & _ & Hr & Hj & _).
  cbv zeta in Hr, Hj. rewrite Hr.
  destruct (outcomes_last outcomes) as [->|(init & x & ->)]; [simpl; lia|].
  specialize (Hj (length init)). rewrite length_app in Hj. simpl in Hj.
  specialize (Hj ltac:(lia)). rewrite take_app_length in Hj.
  rewrite omap_app, length_app.
  assert (length (omap snd [x]) <= 1)%nat by (destruct x as [? []]; simpl; lia).
  lia.
Qed.

(** C4. A search looks the places up in the order of the answer, one
    lookup per place, and keeps the records of the lookups that succeed.
    Every lookup is made while fewer than [max_results] records are held,
    so none is made once the cap is reached; it stops before the end of
    the answer only at the cap; and it returns at most [max_results]
    records (none when [max_results] is negative). *)
Theorem search_cap_and_order (query location : string) (radius max_results : Z) (w : World) :
  let answer := places_textsearch env (trace w) (search_params google_api_key query location radius) in
  let run := search_businesses env google_api_key query location radius max_results w in
  exists tr outcomes,
    trace (snd run) = trace w ++ tr /\
    details_lookups tr = map fst outcomes /\
    map fst outcomes `prefix_of` places_of answer /\
    fst run = omap snd outcomes /\
    (forall j, (j < length outcomes)%nat ->
       Z.of_nat (length (omap snd (take j outcomes))) < max_results) /\
    ((length outcomes < length (places_of answer))%nat ->
       max_results <= Z.of_nat (length (fst run))) /\
    Z.of_nat (length (fst run)) <= Z.max 0 max_results.
Proof.
  intros answer run.
  destruct (search_businesses_spec query location radius max_results w)
    as (tr & outcomes & rs & Ht & Hl & Hp & Hr & Hj & Hs & _).
  fold answer run in Ht, Hp, Hr, Hs.
  exists tr, outcomes. split_and!; try done.
  apply search_businesses_length.
Qed.

End SearchFacts.

(* --------------------------------------------------------------------- *)
(** ** The coordinator: the share of every type *)
(* --------------------------------------------------------------------- *)

Section CoordinatorFacts.

Variable env : Env.
Variable google_api_key : option string.

Lemma py_floordiv_ok (a b : Z) : b <> 0 -> py_floordiv a b = Ok (a / b).
Proof. intros H. unfold py_floordiv. destruct (Z.eqb_spec b 0); [done|done]. Qed.

Lemma scrape_types_share (business_types remaining : list string) (location : string)
    (max_results : Z) (all_businesses : list loc) (w : World) :
  business_types <> [] ->
  scrape_types env google_api_key business_types remaining location max_results all_businesses w
  = scrape_with_share env google_api_key
      (max_results / Z.of_nat (length business_types)) remaining location all_businesses w.
Proof.
  intros Hne. revert all_businesses w.
  induction remaining as [|t rest IH]; intros all_businesses w; [reflexivity|].
  cbn [scrape_types scrape_with_share].
  apply bind_ext. intros _ w1.
  rewrite py_floordiv_ok by (destruct business_types; [done|simpl; lia]).
  change (bind (lift_result (Ok ?v)) ?f w1) with (f v w1). cbv beta.
  apply bind_ext. intros businesses w2.
  apply bind_ext. intros all' w3. apply IH.
Qed.

(** The inner loop returns the list it was given, then the batch. *)
Lemma process_businesses_result (businesses all result : list loc) (w : World) :
  fst (process_businesses env businesses all w) = Ok result -> result = all ++ businesses.
Proof.
  revert all w. induction businesses as [|b rest IH]; intros all w H.
  - injection H as <-. by rewrite app_nil_r.
  - cbn [process_businesses] in H.
    destruct (process_business env b w) as [[[]|e] w1] eqn:Hb.
    + erewrite bind_run in H by exact Hb. erewrite bind_run in H by reflexivity.
      apply IH in H as ->. by rewrite <- app_assoc.
    + by erewrite bind_run_raise in H by exact Hb.
Qed.

(** With a share for every type, the list grows by at most the share at
    every type. *)
Lemma scrape_with_share_length (share : Z) (business_types : list string)
    (location : string) (all result : list loc) (w : World) :
  fst (scrape_with_share env google_api_key share business_types location all w) = Ok result ->
  Z.of_nat (length result)
  <= Z.of_nat (length all) + Z.of_nat (length business_types) * Z.max 0 share.
Proof.
  revert all w. induction business_types as [|t rest IH]; intros all w H.
  - injection H as <-. simpl. lia.
  - cbn [scrape_with_share] in H. erewrite bind_run in H by reflexivity.
    pose proof (search_businesses_length env google_api_key t location 5000 share
                  (emit (EvPrint ("Searching for " +:+ t +:+ " businesses in "
                                  +:+ location +:+ "...")) w)) as Hlen.
    destruct (search_businesses env google_api_key t location 5000 share _)
      as [businesses w1] eqn:Hs. cbn [fst] in Hlen.
    erewrite bind_run in H by (unfold total; rewrite Hs; reflexivity).
    destruct (process_businesses env businesses all w1) as [[all'|e] w2] eqn:Hp.
    + erewrite bind_run in H by exact Hp.
      pose proof (process_businesses_result businesses all all' w1) as Hall.
      rewrite Hp in Hall. specialize (Hall eq_refl). subst all'.
      apply IH in H. rewrite length_app in H. cbn [length]. lia.
    + by erewrite bind_run_raise in H by exact Hp.
Qed.

(** C5. The coordinator searches every type with the same share,
    [max_results] divided by the number of types and rounded down: the
    loop of the source is the loop that is given this share once and for
    all.  The remainder is dropped: the run returns at most the share
    times the number of types.  With 5 types, 20 gives 4 each and 22 gives
    4 each as well. *)
Theorem coordinator_share_is_floor_division (business_types : list string)
    (location : string) (max_results : Z) (w : World) :
  let share := max_results / Z.of_nat (length business_types) in
  scrape_business_contacts env google_api_key business_types location max_results w
  = scrape_with_share env google_api_key share business_types location [] w
  /\ (forall result,
        fst (scrape_business_contacts env google_api_key business_types location
               max_results w) = Ok result ->
        Z.of_nat (length result) <= Z.of_nat (length business_types) * Z.max 0 share)
  /\ py_floordiv 20 (Z.of_nat (length BUSINESS_TYPES)) = Ok 4
  /\ py_floordiv 22 (Z.of_nat (length BUSINESS_TYPES)) = Ok 4.
Proof.
  intros share.
  assert (scrape_business_contacts env google_api_key business_types location max_results w
          = scrape_with_share env google_api_key share business_types location [] w) as Heq.
  { unfold scrape_business_contacts.
    destruct business_types as [|t rest]; [done|]. by apply scrape_types_share. }
  split; [exact Heq|]. split; [|done].
  intros result Hres. rewrite Heq in Hres.
  apply scrape_with_share_length in Hres. simpl in Hres. lia.
Qed.

(** C10. With no business type the coordinator returns the empty list
    and does nothing: the division by the number of types, which would
    raise, is inside the loop and is never reached. *)
Theorem coordinator_no_types (location : string) (max_results : Z) (w : World) :
  scrape_business_contacts env google_api_key [] location max_results w = (Ok [], w)
  /\ py_floordiv max_results (Z.of_nat (length ([] : list string)))
     = Raise (ZeroDivisionError "integer division or modulo by zero").
Proof. done. Qed.

End CoordinatorFacts.

(* --------------------------------------------------------------------- *)
(** ** Dictionaries left untouched *)
(* --------------------------------------------------------------------- *)

Section Frames.

Variable P : loc -> Prop.

Lemma untouched_refl (w : World) : untouched P w w.
Proof.
  split; [done|]. split; [done|]. exists []. by rewrite app_nil_r.
Qed.

Lemma untouched_trans (w1 w2 w3 : World) :
  untouched P w1 w2 -> untouched P w2 w3 -> untouched P w1 w3.
Proof.
  intros (Hl1 & Hh1 & tr1 & Ht1 & Ha1) (Hl2 & Hh2 & tr2 & Ht2 & Ha2).
  split; [lia|]. split.
  - intros l Hl. by rewrite Hh2, Hh1.
  - exists (tr1 ++ tr2). split.
    + by rewrite Ht2, Ht1, app_assoc.
    + intros l Hl. by rewrite assignments_app, Ha1, Ha2.
Qed.

Lemma untouched_emit (e : event) (w : World) :
  (forall l, P l -> assignments l [e] = []) -> untouched P w (emit e w).
Proof.
  intros H. split; [done|]. split; [done|]. by exists [e].
Qed.

Lemma keeps_ret {A} (a : A) (Q : A -> Prop) : Q a -> keeps P (ret a) Q.
Proof.
  intros H w _. split; [apply untouched_refl|]. simpl. by intros ? [= <-].
Qed.

Lemma keeps_lift_result {A} (r : result A) : keeps P (lift_result r) (fun _ => True).
Proof. intros w _. split; [apply untouched_refl|done]. Qed.

Lemma keeps_bind {A B} (m : M A) (f : A -> M B) (Q : A -> Prop) (R : B -> Prop) :
  keeps P m Q -> (forall a, Q a -> keeps P (f a) R) -> keeps P (bind m f) R.
Proof.
  intros Hm Hf w Hw. destruct (Hm w Hw) as [Hu HQ]. unfold bind.
  destruct (m w) as [[a|e] w1]; cbn [fst snd] in *; [|by split].
  destruct (Hf a (HQ a eq_refl) w1) as [Hu' HR].
  - intros l Hl. destruct Hu as [Hlen _]. specialize (Hw l Hl). lia.
  - split; [by eapply untouched_trans|done].
Qed.

Lemma keeps_print (line : string) : keeps P (print line) (fun _ => True).
Proof. intros w _. split; [by apply untouched_emit|done]. Qed.

Lemma keeps_getitem (l : loc) (key : string) : keeps P (getitem l key) (fun _ => True).
Proof.
  intros w _. unfold getitem.
  destruct (default ∅ (heap w !! l) !! key); (split; [apply untouched_refl|done]).
Qed.

Lemma keeps_setitem (l : loc) (key : string) (v : pyval) :
  ~ P l -> keeps P (setitem l key v) (fun _ => True).
Proof.
  intros Hl w _. split; [|done]. unfold setitem, untouched. cbn [snd heap trace].
  split; [by rewrite length_insert|]. split.
  - intros l' Hl'. apply list_lookup_insert_ne. by intros ->.
  - eexists. split; [done|]. intros l' Hl'. simpl.
    destruct (Nat.eqb_spec l l'); [by subst|done].
Qed.

Lemma keeps_dict_copy (l : loc) : keeps P (dict_copy l) (fun c => ~ P c).
Proof.
  intros w Hw. unfold dict_copy, total, alloc, untouched. cbn [fst snd heap trace]. split.
  - split; [rewrite length_app; lia|]. split.
    + intros l' Hl'. apply lookup_app_l. by apply Hw.
    + exists []. by rewrite app_nil_r.
  - intros c [= <-] Hc. specialize (Hw _ Hc). lia.
Qed.

Lemma keeps_writerow (l : loc) : keeps P (writerow l) (fun _ => True).
Proof.
  intros w _. unfold writerow.
  destruct (bool_decide _); (split; [|done]); [by apply untouched_emit|apply untouched_refl].
Qed.

Lemma keeps_emit_total (e : event) :
  (forall l, assignments l [e] = []) ->
  keeps P (total (fun w => (tt, emit e w))) (fun _ => True).
Proof. intros H w _. split; [apply untouched_emit; auto|done]. Qed.

End Frames.

Create HintDb keeps.

#[global] Hint Resolve keeps_lift_result keeps_print keeps_getitem keeps_writerow
  keeps_dict_copy : keeps.
#[global] Hint Extern 1 (keeps _ (ret _) _) => by apply keeps_ret : keeps.
#[global] Hint Extern 1 (keeps _ (setitem _ _ _) _) =>
  apply keeps_setitem; assumption : keeps.
#[global] Hint Extern 1 (keeps _ (total _) _) => by apply keeps_emit_total : keeps.

(** The first computation of a sequence is settled by the hints; what
    follows it is the new goal. *)
Ltac keeps_step := eapply keeps_bind; [solve [eauto with keeps]|intros ? ?].
Ltac keeps_steps := repeat keeps_step; try solve [eauto with keeps].

Section ProgramFrames.

Variable env : Env.
Variable google_api_key : option string.
Variable P : loc -> Prop.

Lemma keeps_write_rows (businesses : list loc) :
  keeps P (write_rows businesses) (fun _ => True).
Proof.
  induction businesses as [|b rest IH]; [by apply keeps_ret|].
  cbn [write_rows]. keeps_steps.
Qed.

Lemma keeps_save_to_csv (businesses : list loc) (filename : string) :
  keeps P (save_to_csv businesses filename) (fun _ => True).
Proof.
  unfold save_to_csv. do 2 keeps_step.
  eapply keeps_bind; [apply keeps_write_rows|]. intros _ _. apply keeps_print.
Qed.

Lemma keeps_total_emails_of (businesses : list loc) :
  keeps P (total_emails_of businesses) (fun _ => True).
Proof.
  induction businesses as [|b rest IH]; [by apply keeps_ret|].
  cbn [total_emails_of]. keeps_steps.
Qed.

Lemma keeps_businesses_with_emails_of (businesses : list loc) :
  keeps P (businesses_with_emails_of businesses) (fun _ => True).
Proof.
  induction businesses as [|b rest IH]; [by apply keeps_ret|].
  cbn [businesses_with_emails_of]. keeps_steps.
Qed.

Lemma keeps_print_summary (businesses : list loc) :
  keeps P (print_summary businesses) (fun _ => True).
Proof.
  unfold print_summary.
  eapply keeps_bind; [apply keeps_total_emails_of|]. intros t _.
  eapply keeps_bind; [apply keeps_businesses_with_emails_of|]. intros n _.
  keeps_steps.
Qed.

Lemma assignments_crawl_events (l : loc) (h : list event) (pages : list string) :
  assignments l (crawl_events env h pages) = [].
Proof.
  revert h. induction pages as [|p rest IH]; intros h; [done|].
  cbn [crawl_events]. rewrite assignments_app, IH, app_nil_r.
  unfold attempt_events. by destruct (attempt_outcome env h p).
Qed.

(** The crawler touches no dictionary at all. *)
Lemma extract_untouched (website_url : pyval) (max_pages : Z) (w : World) :
  heap (snd (extract_emails_from_website env website_url max_pages w)) = heap w /\
  exists tr, trace (snd (extract_emails_from_website env website_url max_pages w))
             = trace w ++ tr /\ forall l, assignments l tr = [].
Proof.
  destruct (extract_trace env website_url max_pages w) as (pages & Ht & Hh & _).
  split; [done|]. eexists. split; [exact Ht|]. intros l. apply assignments_crawl_events.
Qed.

End ProgramFrames.

(* --------------------------------------------------------------------- *)
(** ** The coordinator: what happens to a record *)
(* --------------------------------------------------------------------- *)

Lemma record_after_ext (env : Env) (r : PlaceResult) (b : loc) (tr tr' : list event)
    (h h' : list (gmap string pyval)) :
  record_after env r b tr h -> assignments b tr' = assignments b tr -> h' !! b = h !! b ->
  record_after env r b tr' h'.
Proof.
  unfold record_after. intros H Ha Hh. destruct (has_website r).
  - destruct H as (emails & w0 & H0 & H1 & H2). exists emails, w0. by rewrite Ha, Hh.
  - by rewrite Ha, Hh.
Qed.

Lemma business_dict_name (r : PlaceResult) :
  business_dict r !! "name" = Some (VStr (default EmptyString (r_name r))).
Proof. unfold business_dict. by simplify_map_eq. Qed.

Lemma business_dict_website (r : PlaceResult) :
  business_dict r !! "website" = Some (VStr (default EmptyString (r_website r))).
Proof. unfold business_dict. by simplify_map_eq. Qed.

Section Coordinator.

Variable env : Env.
Variable google_api_key : option string.

(** What the loop body does to the business it is given and to the
    others. *)
Lemma process_business_spec (b : loc) (r : PlaceResult) (w : World) :
  heap w !! b = Some (business_dict r) ->
  let run := process_business env b w in
  length (heap (snd run)) = length (heap w) /\
  (forall l, l <> b -> heap (snd run) !! l = heap w !! l) /\
  exists tr,
    trace (snd run) = trace w ++ tr /\
    (forall l, l <> b -> assignments l tr = []) /\
    match fst run with
    | Ok _ => record_after env r b tr (heap (snd run))
    | Raise _ => assignments b tr = [] /\ heap (snd run) !! b = Some (business_dict r)
    end.
Proof.
  intros Hb run. subst run. unfold process_business.
  erewrite bind_run by (eapply run_getitem; [exact Hb|apply business_dict_name]).
  erewrite bind_run by reflexivity.
  set (w1 := emit (EvPrint _) w).
  assert (heap w1 !! b = Some (business_dict r)) as Hb1 by exact Hb.
  erewrite bind_run by (eapply run_getitem; [exact Hb1|apply business_dict_website]).
  unfold record_after, has_website. cbn [truthy].
  destruct (String.eqb (default EmptyString (r_website r)) EmptyString) eqn:Hweb; cbn [negb].
  - (* no website *)
    subst w1. cbn [print fst snd emit heap trace]. split; [done|]. split; [done|].
    eexists [_; _]. rewrite <- app_assoc. split; [done|]. split; [done|]. done.
  - erewrite bind_run by (eapply run_getitem; [exact Hb1|apply business_dict_website]).
    destruct (extract_untouched env (VStr (default EmptyString (r_website r))) 3 w1)
      as (Hh & tr & Ht & Ha).
    destruct (extract_emails_from_website env _ 3 w1) as [[emails|e] w2] eqn:Hx;
      cbn [fst snd] in *.
    + erewrite bind_run by exact Hx.
      erewrite bind_run by reflexivity.
      cbn [print fst snd emit heap trace].
      rewrite Hh. change (heap w1) with (heap w). rewrite Hb. cbn [default].
      assert (b < length (heap w))%nat as Hlt by (by eapply lookup_lt_Some).
      split; [by rewrite length_insert|].
      split; [intros l Hl; by apply list_lookup_insert_ne|].
      exists (EvPrint ("Processing: " +:+ default EmptyString (r_name r)) :: tr
              ++ [EvSetItem b "emails" (VList emails);
                  EvPrint ("  Found " +:+ pretty (Z.of_nat (length emails)) +:+ " email(s)")]).
      split.
      { rewrite Ht. subst w1. cbn [trace emit]. by rewrite <- !app_assoc. }
      split.
      { intros l Hl. change (assignments l (tr ++ [EvSetItem b "emails" (VList emails);
          EvPrint ("  Found " +:+ pretty (Z.of_nat (length emails)) +:+ " email(s)")]) = []).
        rewrite assignments_app, Ha. simpl.
        destruct (Nat.eqb_spec b l); [by subst|done]. }
      exists emails, w1. split; [by rewrite Hx|]. split.
      { change (assignments b (tr ++ [EvSetItem b "emails" (VList emails);
          EvPrint ("  Found " +:+ pretty (Z.of_nat (length emails)) +:+ " email(s)")])
          = [("emails", VList emails)]).
        rewrite assignments_app, Ha. simpl. by rewrite Nat.eqb_refl. }
      by apply list_lookup_insert_eq.
    + erewrite bind_run_raise by exact Hx. cbn [fst snd].
      split; [by rewrite Hh|]. split; [by rewrite Hh|].
      exists (EvPrint ("Processing: " +:+ default EmptyString (r_name r)) :: tr).
      split; [rewrite Ht; subst w1; cbn [trace emit]; by rewrite <- app_assoc|].
      split; [intros l _; apply (Ha l)|]. split; [apply (Ha b)|by rewrite Hh].
Qed.

(** The inner loop: every business of the batch is processed once, the
    others are left alone. *)
Lemma process_businesses_spec (bs all : list loc) (w : World) :
  NoDup bs ->
  (forall b, b ∈ bs -> exists r, heap w !! b = Some (business_dict r)) ->
  let run := process_businesses env bs all w in
  length (heap (snd run)) = length (heap w) /\
  (forall l, l ∉ bs -> heap (snd run) !! l = heap w !! l) /\
  exists tr,
    trace (snd run) = trace w ++ tr /\
    (forall l, l ∉ bs -> assignments l tr = []) /\
    forall result, fst run = Ok result ->
      result = all ++ bs /\
      forall b, b ∈ bs ->
        exists r, heap w !! b = Some (business_dict r)
                  /\ record_after env r b tr (heap (snd run)).
Proof.
  intros Hnd. revert all w. induction Hnd as [|b rest Hb Hnd IH]; intros all w Hbs run; subst run.
  - cbn [process_businesses ret fst snd]. split; [done|]. split; [done|].
    exists []. rewrite !app_nil_r. split; [done|]. split; [done|].
    intros ? [= <-]. split; [done|]. intros b Hb. by apply elem_of_nil in Hb.
  - destruct (Hbs b) as [r Hr]; [by left|].
    destruct (process_business_spec b r w Hr) as (Hlen1 & Hfr1 & tr1 & Ht1 & Ha1 & Hm1).
    cbn [process_businesses].
    destruct (process_business env b w) as [[[]|e] w1] eqn:Hrun; cbn [fst snd] in *.
    + erewrite bind_run by exact Hrun. erewrite bind_run by reflexivity.
      set (w2 := emit (EvSleep 2000) w1).
      destruct (IH (all ++ [b]) w2) as (Hlen2 & Hfr2 & tr2 & Ht2 & Ha2 & Hres2).
      { intros b' Hb'. destruct (Hbs b') as [r' Hr']; [by right|]. exists r'.
        change (heap w2) with (heap w1). rewrite Hfr1; [done|]. by intros ->. }
      change (heap w2) with (heap w1) in *.
      split; [by rewrite Hlen2|]. split.
      { intros l Hl. apply not_elem_of_cons in Hl as [Hl1 Hl2]. by rewrite Hfr2, Hfr1. }
      exists (tr1 ++ [EvSleep 2000] ++ tr2). split.
      { rewrite Ht2. subst w2. cbn [trace emit]. rewrite Ht1. by rewrite <- !app_assoc. }
      split.
      { intros l Hl. apply not_elem_of_cons in Hl as [Hl1 Hl2].
        by rewrite !assignments_app, Ha1, Ha2. }
      intros result Hres. destruct (Hres2 result Hres) as [-> Hall].
      split; [by rewrite <- app_assoc|].
      intros b' Hb'. apply elem_of_cons in Hb' as [->|Hb'].
      * exists r. split; [done|]. eapply record_after_ext; [exact Hm1| |by apply Hfr2].
        rewrite !assignments_app, (Ha2 b Hb). simpl. by rewrite app_nil_r.
      * destruct (Hall b' Hb') as (r' & Hr' & Hrec). exists r'.
        assert (b' <> b) as Hne by (by intros ->).
        split; [by rewrite <- (Hfr1 b' Hne)|].
        eapply record_after_ext; [exact Hrec| |done].
        by rewrite !assignments_app, (Ha1 b' Hne).
    + erewrite bind_run_raise by exact Hrun. cbn [fst snd].
      split; [done|]. split.
      { intros l Hl. apply not_elem_of_cons in Hl as [Hl1 Hl2]. by apply Hfr1. }
      exists tr1. split; [done|]. split.
      { intros l Hl. apply not_elem_of_cons in Hl as [Hl1 Hl2]. by apply Ha1. }
      done.
Qed.

(** The outer loop: old dictionaries are left alone, and every record it
    adds to the list is a new one, processed once. *)
Lemma scrape_types_spec (business_types remaining : list string) (location : string)
    (max_results : Z) (all : list loc) (w : World) :
  let run := scrape_types env google_api_key business_types remaining location
               max_results all w in
  (length (heap w) <= length (heap (snd run)))%nat /\
  (forall l, (l < length (heap w))%nat -> heap (snd run) !! l = heap w !! l) /\
  exists tr,
    trace (snd run) = trace w ++ tr /\
    (forall l, (l < length (heap w))%nat -> assignments l tr = []) /\
    forall result, fst run = Ok result ->
      exists news,
        result = all ++ news /\ NoDup news /\
        forall b, b ∈ news ->
          (length (heap w) <= b)%nat /\ exists r, record_after env r b tr (heap (snd run)).
Proof.
  revert all w. induction remaining as [|t rest IH]; intros all w run; subst run.
  { cbn [scrape_types ret fst snd]. split; [done|]. split; [done|].
    exists []. rewrite app_nil_r. split; [done|]. split; [done|].
    intros ? [= <-]. exists []. rewrite app_nil_r. split; [done|]. split; [constructor|].
    intros b Hb. by apply elem_of_nil in Hb. }
  cbn [scrape_types]. erewrite bind_run by reflexivity.
  set (w0 := emit (EvPrint _) w).
  rewrite bind_lift_result.
  destruct (py_floordiv max_results (Z.of_nat (length business_types))) as [share|e].
  2:{ cbn [fst snd]. split; [done|]. split; [done|].
      exists [EvPrint ("Searching for " +:+ t +:+ " businesses in " +:+ location +:+ "...")].
      done. }
  destruct (search_businesses_spec env google_api_key t location 5000 share w0)
    as (trs & outcomes & rs & Hts & _ & _ & _ & _ & _ & Has & Hhs & Hseq).
  destruct (search_businesses env google_api_key t location 5000 share w0)
    as [businesses w1] eqn:Hsearch. cbn [fst snd] in *.
  erewrite bind_run by (unfold total; rewrite Hsearch; reflexivity).
  change (heap w0) with (heap w) in *.
  assert (forall b, b ∈ businesses ->
            (length (heap w) <= b < length (heap w1))%nat
            /\ exists r, heap w1 !! b = Some (business_dict r)) as Hnew.
  { intros b Hb. rewrite Hseq in Hb. apply elem_of_seq in Hb.
    rewrite Hhs, length_app, length_map. split; [lia|].
    destruct (lookup_lt_is_Some_2 rs (b - length (heap w))) as [r Hr]; [lia|].
    exists r. rewrite lookup_app_r by lia. by rewrite list_lookup_fmap, Hr. }
  destruct (process_businesses_spec businesses all w1)
    as (Hlenp & Hfrp & trp & Htp & Hap & Hresp).
  { rewrite Hseq. apply NoDup_seq. }
  { intros b Hb. by apply Hnew. }
  assert (forall l, (l < length (heap w))%nat -> l ∉ businesses) as Hold.
  { intros l Hl Hin. apply Hnew in Hin. lia. }
  assert (length (heap w) <= length (heap w1))%nat as Hle1
    by (rewrite Hhs, length_app; lia).
  destruct (process_businesses env businesses all w1) as [[all'|e] w2] eqn:Hproc;
    cbn [fst snd] in *.
  2:{ erewrite bind_run_raise by exact Hproc. cbn [fst snd].
      split; [lia|]. split.
      { intros l Hl. rewrite Hfrp by auto. rewrite Hhs. by apply lookup_app_l. }
      exists ([EvPrint ("Searching for " +:+ t +:+ " businesses in " +:+ location +:+ "...")]
              ++ trs ++ trp).
      split. { rewrite Htp, Hts. subst w0. cbn [trace emit]. by rewrite <- !app_assoc. }
      split; [|done].
      intros l Hl. rewrite !assignments_app, Has, Hap by auto. done. }
  destruct (Hresp all' eq_refl) as [-> Hrecs].
  erewrite bind_run by exact Hproc.
  destruct (IH (all ++ businesses) w2) as (Hlen' & Hfr' & tr' & Ht' & Ha' & Hres').
  split; [lia|]. split.
  { intros l Hl. rewrite Hfr' by lia. rewrite Hfrp by auto. rewrite Hhs. by apply lookup_app_l. }
  exists ([EvPrint ("Searching for " +:+ t +:+ " businesses in " +:+ location +:+ "...")]
          ++ trs ++ trp ++ tr').
  split. { rewrite Ht', Htp, Hts. subst w0. cbn [trace emit]. by rewrite <- !app_assoc. }
  split.
  { intros l Hl. rewrite !assignments_app, Has, Hap, Ha' by (auto || lia). done. }
  intros result Hresult. destruct (Hres' result Hresult) as (news' & -> & Hnd' & Hnews').
  exists (businesses ++ news'). split; [by rewrite <- app_assoc|]. split.
  { apply NoDup_app. split; [rewrite Hseq; apply NoDup_seq|]. split; [|done].
    intros b Hb Hb'. apply Hnew in Hb. apply Hnews' in Hb' as [Hb' _]. lia. }
  intros b Hb. apply elem_of_app in Hb as [Hb|Hb].
  - destruct (Hnew b Hb) as [Hrange _]. split; [lia|].
    destruct (Hrecs b Hb) as (r & _ & Hrec). exists r.
    eapply record_after_ext; [exact Hrec| |apply Hfr'; lia].
    rewrite !assignments_app, Has, Ha' by lia. simpl. by rewrite app_nil_r.
  - destruct (Hnews' b Hb) as [Hrange (r & Hrec)]. split; [lia|]. exists r.
    eapply record_after_ext; [exact Hrec| |done].
    rewrite !assignments_app, Has, Hap; [done|].
    intros Hin. apply Hnew in Hin. lia.
Qed.

(** C9, as amended.  The coordinator assigns the [emails] of a record at
    most once after its creation: exactly once, with the list of the
    crawl, when the place has a website, and never when it has none (the
    list stays empty).  Nothing else is assigned to a record, and two
    entries of the result are never the same dictionary.  Writing the CSV
    file and printing the summary work on copies and on reads: they leave
    every dictionary that exists untouched. *)
Theorem record_emails_assigned_at_most_once :
  (forall business_types location max_results w businesses w',
      scrape_business_contacts env google_api_key business_types location max_results w
      = (Ok businesses, w') ->
      exists tr,
        trace w' = trace w ++ tr /\ NoDup businesses /\
        forall b, b ∈ businesses ->
          exists r,
            if has_website r
            then exists emails w0,
                   fst (extract_emails_from_website env
                          (VStr (default EmptyString (r_website r))) 3 w0) = Ok emails /\
                   assignments b tr = [("emails", VList emails)] /\
                   heap w' !! b = Some (<["emails" := VList emails]> (business_dict r))
            else assignments b tr = [] /\ heap w' !! b = Some (business_dict r)) /\
  (forall businesses filename w,
      let w' := snd (save_to_csv businesses filename w) in
      exists tr,
        trace w' = trace w ++ tr /\
        forall l, (l < length (heap w))%nat ->
          heap w' !! l = heap w !! l /\ assignments l tr = []) /\
  (forall businesses w,
      let w' := snd (print_summary businesses w) in
      exists tr,
        trace w' = trace w ++ tr /\
        forall l, (l < length (heap w))%nat ->
          heap w' !! l = heap w !! l /\ assignments l tr = []).
Proof.
  split_and!.
  - intros business_types location max_results w businesses w' Hrun.
    destruct (scrape_types_spec business_types business_types location max_results [] w)
      as (_ & _ & tr & Ht & _ & Hres).
    unfold scrape_business_contacts in Hrun. rewrite Hrun in Ht, Hres. cbn [fst snd] in *.
    destruct (Hres businesses eq_refl) as (news & -> & Hnd & Hnews).
    exists tr. split; [done|]. split; [done|].
    intros b Hb. destruct (Hnews b Hb) as [_ [r Hr]]. by exists r.
  - intros businesses filename w w'.
    destruct (keeps_save_to_csv (fun l => (l < length (heap w))%nat) businesses filename w)
      as [(_ & Hh & tr & Ht & Ha) _]; [done|].
    exists tr. split; [done|]. intros l Hl. split; [by apply Hh|by apply Ha].
  - intros businesses w w'.
    destruct (keeps_print_summary (fun l => (l < length (heap w))%nat) businesses w)
      as [(_ & Hh & tr & Ht & Ha) _]; [done|].
    exists tr. split; [done|]. intros l Hl. split; [by apply Hh|by apply Ha].
Qed.

End Coordinator.

(* --------------------------------------------------------------------- *)
(** ** The extractor: what the filter lets through *)
(* --------------------------------------------------------------------- *)

Lemma lower_ascii_at (c : ascii) : Ascii.eqb (lower_ascii c) "@" = Ascii.eqb c "@".
Proof. destruct c as [[] [] [] [] [] [] [] []]; reflexivity. Qed.

Lemma split_lower (s : string) : split "@" (lower s) = map lower (split "@" s).
Proof.
  induction s as [|c s IH]; [done|]. cbn [lower split]. rewrite lower_ascii_at.
  destruct (Ascii.eqb c "@"); [by rewrite IH|].
  rewrite IH. by destruct (split "@" s).
Qed.

Lemma split_length (sep : ascii) (s : string) :
  length (split sep s) = S (count_char sep s).
Proof.
  induction s as [|c s IH]; [done|]. cbn [split count_char].
  destruct (Ascii.eqb c sep); simpl; [by rewrite IH|].
  destruct (split sep s); simpl in *; lia.
Qed.

Lemma accepted_lower (c seg : string) :
  split "@" c !! 1%nat = Some seg -> lower seg ∉ excluded_domains -> accepted (lower c).
Proof.
  intros Hs Hx. split; [apply lower_idem|]. exists (lower seg). split; [|done].
  by rewrite split_lower, list_lookup_fmap, Hs.
Qed.

(** With a single [@], the segment the filter looks at is the domain. *)
Lemma accepted_domain (e : string) :
  accepted e -> count_char "@" e = 1%nat ->
  lower (domain_after_last_at e) ∉ excluded_domains.
Proof.
  intros [Hlow (seg & Hseg & Hx)] Hc. unfold domain_after_last_at.
  pose proof (split_length "@" e) as Hlen. rewrite Hc in Hlen.
  pose proof (split_lower e) as Hsl. rewrite Hlow in Hsl.
  destruct (split "@" e) as [|a [|b [|]]]; try done.
  simpl in *. injection Hseg as <-. injection Hsl as _ Hb. by rewrite <- Hb.
Qed.

Lemma filter_emails_accepted (found : list string) (emails : gset string) :
  (forall e, e ∈ emails -> accepted e) ->
  forall e, e ∈ fst (filter_emails found emails) -> accepted e.
Proof.
  revert emails. induction found as [|c rest IH]; intros emails Hacc; [done|].
  cbn [filter_emails]. destruct (split "@" c !! 1%nat) as [seg|] eqn:Hs; [|done].
  destruct (bool_decide (lower seg ∈ excluded_domains)) eqn:Hx; cbn [negb andb]; [by apply IH|].
  destruct (bool_decide (lower c ∈ emails)); cbn [negb]; [by apply IH|].
  apply IH. intros e He. apply elem_of_union in He as [He|He]; [|by apply Hacc].
  apply elem_of_singleton in He as ->. apply (accepted_lower c seg Hs).
  by apply bool_decide_eq_false in Hx.
Qed.

Section Extractor.

Variable env : Env.

Lemma crawl_loop_accepted (pages : list string) (max_pages checked : Z)
    (emails : gset string) (w : World) :
  (forall e, e ∈ emails -> accepted e) ->
  forall e, e ∈ fst (crawl_loop env pages max_pages checked emails w) -> accepted e.
Proof.
  revert checked emails w. induction pages as [|p rest IH]; intros checked emails w Hacc; [done|].
  cbn [crawl_loop]. destruct (checked >=? max_pages); [done|].
  destruct (session_get env (trace w) p) as [page|err]; [|by apply IH].
  pose proof (filter_emails_accepted (found_emails page) emails Hacc) as Hf.
  destruct (filter_emails (found_emails page) emails) as [emails' [err|]]; by apply IH.
Qed.

(** What holds of every run of the extractor: the addresses are in lower
    case, no two are the same, even up to case, and an address with a
    single [@] never has an excluded domain. *)
Lemma extractor_result_sound (website_url : pyval) (max_pages : Z) (w : World)
    (emails : list string) :
  fst (extract_emails_from_website env website_url max_pages w) = Ok emails ->
  NoDup emails /\
  (forall e, e ∈ emails -> lower e = e) /\
  (forall a b, a ∈ emails -> b ∈ emails -> lower a = lower b -> a = b) /\
  (forall e, e ∈ emails -> count_char "@" e = 1%nat ->
     lower (domain_after_last_at e) ∉ excluded_domains).
Proof.
  intros Hrun.
  assert (NoDup emails /\ forall e, e ∈ emails -> accepted e) as [Hnd Hacc].
  { unfold extract_emails_from_website in Hrun.
    destruct (truthy website_url).
    2:{ injection Hrun as <-. split; [constructor|]. intros e He. by apply elem_of_nil in He. }
    destruct website_url as [|url| |]; try done. cbn [negb] in Hrun.
    rewrite bind_lift_result in Hrun.
    destruct (pages_to_check env url) as [pages|]; [|done].
    unfold total in Hrun.
    pose proof (crawl_loop_accepted (slice_to pages max_pages) max_pages 0 ∅ w) as Hc.
    destruct (crawl_loop env (slice_to pages max_pages) max_pages 0 ∅ w) as [set w'].
    injection Hrun as <-. split; [apply NoDup_elements|].
    intros e He. apply Hc; [intros ? H; by apply not_elem_of_empty in H|].
    by apply elem_of_elements. }
  split; [done|]. split; [intros e He; by apply Hacc|]. split.
  - intros a b Ha Hb Hab. apply Hacc in Ha as [Ha _]. apply Hacc in Hb as [Hb _]. congruence.
  - intros e He Hc. apply accepted_domain; auto.
Qed.

End Extractor.

Lemma substring_0_0 (s : string) : substring 0 0 s = EmptyString.
Proof. by destruct s. Qed.

Lemma greedy_count (p : ascii -> bool) (k : option ascii -> string -> option nat) (m : nat) :
  p "@"%char = false ->
  (forall prev s n, k prev s = Some n -> count_char "@" (substring 0 n s) = m) ->
  forall min prev s n,
    greedy p min k prev s = Some n -> count_char "@" (substring 0 n s) = m.
Proof.
  intros Hp Hk min prev s. revert min prev.
  induction s as [|c s IH]; intros min prev n H; cbn [greedy] in H.
  - destruct (min =? 0)%nat; [by apply Hk in H|done].
  - destruct (p c) eqn:Hc.
    + destruct (greedy p (Nat.pred min) k (Some c) s) as [n'|] eqn:Hg.
      * injection H as <-. cbn [substring count_char]. rewrite (IH _ _ _ Hg).
        destruct (Ascii.eqb_spec c "@"); [congruence|done].
      * destruct (min =? 0)%nat; [by apply Hk in H|done].
    + destruct (min =? 0)%nat; [by apply Hk in H|done].
Qed.

Lemma match_items_count (items : list re_item) :
  Forall class_without_at items ->
  forall prev s n,
    match_items items prev s = Some n ->
    count_char "@" (substring 0 n s) = at_literals items.
Proof.
  induction 1 as [|item items Hitem _ IH]; intros prev s n H.
  - injection H as <-. by rewrite substring_0_0.
  - destruct item as [p min|c|]; cbn [match_items at_literals] in *.
    + by apply (greedy_count p (match_items items) _ Hitem IH) in H.
    + destruct s as [|c' s]; [done|].
      destruct (Ascii.eqb_spec c c') as [<-|]; [|done].
      destruct (match_items items (Some c) s) as [n'|] eqn:Hm; [|done].
      injection H as <-. cbn [substring count_char]. by rewrite (IH _ _ _ Hm).
    + destruct (at_boundary prev s); [by apply IH in H|done].
Qed.

Lemma findall_from_match (items : list re_item) (skip : nat) (prev : option ascii)
    (s m : string) :
  In m (findall_from items skip prev s) ->
  exists prev' s' n, match_items items prev' s' = Some n /\ m = substring 0 n s'.
Proof.
  revert skip prev. induction s as [|c s IH]; intros skip prev H; [done|].
  cbn [findall_from] in H. destruct skip as [|k]; [|by apply IH in H].
  destruct (match_items items prev (String c s)) as [[|n]|] eqn:Hm;
    try (by apply IH in H).
  destruct H as [<-|H]; [by eauto|by apply IH in H].
Qed.

(** Every address the pattern finds in a text has exactly one [@]. *)
Lemma text_match_one_at (text m : string) :
  In m (findall email_pattern text) -> count_char "@" m = 1%nat.
Proof.
  intros H. apply findall_from_match in H as (prev & s & n & Hm & ->).
  apply match_items_count in Hm; [done|]. repeat constructor.
Qed.

Lemma count_char_lower (s : string) : count_char "@" (lower s) = count_char "@" s.
Proof.
  induction s as [|c s IH]; [done|]. cbn [lower count_char].
  by rewrite lower_ascii_at, IH.
Qed.

Lemma filter_emails_from (found : list string) (emails : gset string) (e : string) :
  e ∈ fst (filter_emails found emails) ->
  e ∈ emails \/ exists c, c ∈ found /\ e = lower c.
Proof.
  revert emails. induction found as [|c rest IH]; intros emails H; [by left|].
  cbn [filter_emails] in H. destruct (split "@" c !! 1%nat); [|by left].
  destruct (negb _ && negb _).
  - apply IH in H as [H|(c' & Hc' & ->)].
    + apply elem_of_union in H as [H|H]; [|by left].
      apply elem_of_singleton in H as ->. right. exists c. split; [by left|done].
    + right. exists c'. split; [by right|done].
  - apply IH in H as [H|(c' & Hc' & ->)]; [by left|].
    right. exists c'. split; [by right|done].
Qed.

(** A page without [mailto:] links never yields an excluded domain. *)
Lemma extract_emails_text_only (page : Page) (e : string) :
  mailto_links page = [] -> e ∈ extract_emails page ->
  lower e = e /\ lower (domain_after_last_at e) ∉ excluded_domains.
Proof.
  intros Hno He. unfold extract_emails in He. apply elem_of_elements in He.
  assert (accepted e) as Hacc.
  { eapply filter_emails_accepted; [|exact He]. intros ? H. by apply not_elem_of_empty in H. }
  split; [apply Hacc|]. apply accepted_domain; [done|].
  apply filter_emails_from in He as [He|(c & Hc & ->)]; [by apply not_elem_of_empty in He|].
  rewrite count_char_lower. unfold found_emails in Hc. rewrite Hno, app_nil_r in Hc.
  apply (text_match_one_at (page_text page)). by apply list_elem_of_In.
Qed.

(** C1, at an input where the code departs from it.  The claim is that no
    address returned has, after its last [@], a domain of the exclusion
    list.  On a page with one [mailto:] link to two recipients the filter
    looks at the segment between the two [@], lets the candidate through,
    and the address returned ends in [gmail.com]. *)
Theorem excluded_domain_leaks_through_mailto :
  let page := mkPage EmptyString ["mailto:sales@acme.example,owner@gmail.com"] in
  let site := table_env [("http://acme.example", page)] [] [] in
  extract_emails page = ["sales@acme.example,owner@gmail.com"] /\
  fst (extract_emails_from_website site (VStr "http://acme.example") 1 empty_world)
  = Ok ["sales@acme.example,owner@gmail.com"] /\
  domain_after_last_at "sales@acme.example,owner@gmail.com" = "gmail.com" /\
  "gmail.com" ∈ excluded_domains.
Proof.
  split_and!; [by vm_compute|by vm_compute|by vm_compute|].
  unfold excluded_domains. set_solver.
Qed.

(* --------------------------------------------------------------------- *)
(** ** The summary: the average line *)
(* --------------------------------------------------------------------- *)

Lemma round_half_even_nearest (num den : Z) :
  0 < den -> Z.abs (2 * (num - round_half_even num den * den)) <= den.
Proof.
  intros Hden. unfold round_half_even.
  pose proof (Z.div_mod num den ltac:(lia)) as Hdm.
  pose proof (Z.mod_pos_bound num den Hden) as Hr.
  destruct (Z.compare_spec (2 * (num mod den)) den); [destruct (Z.even _)| |]; nia.
Qed.

(** The tenths shown for a finite float are the nearest to ten times its
    value. *)
Lemma tenths_of_nearest (m : positive) (e : Z) :
  if 0 <=? e then tenths_of m e = 10 * Z.pos m * 2 ^ e
  else Z.abs (2 * (10 * Z.pos m - tenths_of m e * 2 ^ (- e))) <= 2 ^ (- e).
Proof.
  unfold tenths_of. destruct (Z.leb_spec 0 e); [done|].
  apply round_half_even_nearest. apply Z.pow_pos_nonneg; lia.
Qed.

Lemma round_half_even_tie (num den : Z) :
  0 < den -> Z.abs (2 * (num - round_half_even num den * den)) = den ->
  Z.even (round_half_even num den) = true.
Proof.
  intros Hden. unfold round_half_even.
  pose proof (Z.div_mod num den ltac:(lia)) as Hdm.
  pose proof (Z.mod_pos_bound num den Hden) as Hr.
  destruct (Z.compare_spec (2 * (num mod den)) den) as [H|H|H].
  - destruct (Z.even (num / den)) eqn:Heven; [done|]. intros _.
    by rewrite Z.even_add, Heven.
  - intros Heq. exfalso. nia.
  - intros Heq. exfalso. nia.
Qed.

(** At one half between two tenths the even one is shown. *)
Lemma tenths_of_tie (m : positive) (e : Z) :
  e < 0 -> Z.abs (2 * (10 * Z.pos m - tenths_of m e * 2 ^ (- e))) = 2 ^ (- e) ->
  Z.even (tenths_of m e) = true.
Proof.
  intros He. unfold tenths_of. destruct (Z.leb_spec 0 e); [lia|].
  apply round_half_even_tie. apply Z.pow_pos_nonneg; lia.
Qed.

(** The quotient of two positive integers is a number: the proof follows
    the exponent through [SFdiv], [shr_fexp] and the rounding. *)

Lemma digits2_pos_size (p : positive) : digits2_pos p = Pos.size p.
Proof. induction p as [p IH|p IH|]; simpl; by rewrite ?IH. Qed.

Lemma Zdigits2_pos (p : positive) : Zdigits2 (Z.pos p) = Z.log2 (Z.pos p) + 1.
Proof.
  unfold Zdigits2. rewrite digits2_pos_size.
  destruct p; simpl; rewrite ?Pos2Z.inj_succ; lia.
Qed.

Lemma Zdigits2_nonneg (m : Z) : 0 <= m -> Zdigits2 m = if m =? 0 then 0 else Z.log2 m + 1.
Proof.
  intros H. destruct m as [|p|p]; [done| |lia]. apply Zdigits2_pos.
Qed.

Lemma Zdigits2_le (m n : Z) : 0 <= m <= n -> Zdigits2 m <= Zdigits2 n.
Proof.
  intros [Hm Hmn]. rewrite !Zdigits2_nonneg by lia.
  destruct (Z.eqb_spec m 0); destruct (Z.eqb_spec n 0); try lia.
  - pose proof (Z.log2_nonneg n). lia.
  - pose proof (Z.log2_le_mono m n Hmn). lia.
Qed.

Lemma Zdigits2_succ (m : Z) : 0 <= m -> Zdigits2 (m + 1) <= Zdigits2 m + 1.
Proof.
  intros Hm. rewrite !Zdigits2_nonneg by lia.
  destruct (Z.eqb_spec (m + 1) 0); [lia|].
  destruct (Z.eqb_spec m 0) as [->|]; [simpl; lia|].
  pose proof (Z.log2_succ_le m). replace (Z.succ m) with (m + 1) in * by lia. lia.
Qed.

Lemma Zdigits2_div_pow2 (m n : Z) :
  0 <= m -> 0 <= n -> Zdigits2 (m / 2 ^ n) <= Z.max 0 (Zdigits2 m - n).
Proof.
  intros Hm Hn. rewrite <- Z.shiftr_div_pow2 by done.
  assert (0 <= Z.shiftr m n) by (by apply Z.shiftr_nonneg).
  rewrite !Zdigits2_nonneg by done.
  destruct (Z.eqb_spec (Z.shiftr m n) 0) as [|Hs]; [lia|].
  destruct (Z.eqb_spec m 0) as [->|]; [by rewrite Z.shiftr_0_l in Hs|].
  rewrite Z.log2_shiftr by lia.
  assert (0 < Z.shiftr m n) as Hpos by lia.
  apply Z.log2_pos in Hpos || idtac.
  destruct (Z.le_gt_cases n (Z.log2 m)); [lia|].
  exfalso. apply Hs. apply Z.shiftr_eq_0; lia.
Qed.

Lemma Zdigits2_mul_pow2 (m n : Z) :
  0 < m -> 0 <= n -> Zdigits2 (m * 2 ^ n) = Zdigits2 m + n.
Proof.
  intros Hm Hn. assert (0 < m * 2 ^ n) by (apply Z.mul_pos_pos; [done|apply Z.pow_pos_nonneg; lia]).
  rewrite !Zdigits2_nonneg by lia.
  destruct (Z.eqb_spec (m * 2 ^ n) 0); [lia|]. destruct (Z.eqb_spec m 0); [lia|].
  rewrite Z.log2_mul_pow2 by lia. lia.
Qed.

Lemma shr_1_m (mrs : shr_record) : 0 <= shr_m mrs -> shr_m (shr_1 mrs) = shr_m mrs / 2.
Proof.
  destruct mrs as [m r s]. simpl. intros Hm.
  destruct m as [|[p|p|]|]; try lia; try done; simpl.
  - rewrite <- Z.div2_div. done.
  - rewrite <- Z.div2_div. done.
Qed.

Lemma iter_shr_1_m (p : positive) (mrs : shr_record) :
  0 <= shr_m mrs -> shr_m (SpecFloat.iter_pos shr_1 p mrs) = shr_m mrs / 2 ^ Z.pos p.
Proof.
  revert mrs. induction p as [p IH|p IH|]; intros mrs Hm; cbn [SpecFloat.iter_pos].
  - assert (0 < 2 ^ Z.pos p) as Hpow by (by apply Z.pow_pos_nonneg).
    assert (0 <= shr_m (shr_1 mrs)) as H1 by (rewrite shr_1_m by done; by apply Z.div_pos).
    assert (0 <= shr_m (SpecFloat.iter_pos shr_1 p (shr_1 mrs))) as H2
      by (rewrite IH by done; by apply Z.div_pos).
    rewrite IH, IH, shr_1_m by done.
    rewrite !Z.div_div by lia.
    f_equal. replace (Z.pos p~1) with (1 + Z.pos p + Z.pos p) by lia.
    rewrite !Z.pow_add_r by lia. change (2 ^ 1) with 2. lia.
  - assert (0 < 2 ^ Z.pos p) as Hpow by (by apply Z.pow_pos_nonneg).
    assert (0 <= shr_m (SpecFloat.iter_pos shr_1 p mrs)) as H2
      by (rewrite IH by done; by apply Z.div_pos).
    rewrite IH, IH by done.
    rewrite !Z.div_div by lia.
    f_equal. replace (Z.pos p~0) with (Z.pos p + Z.pos p) by lia.
    by rewrite Z.pow_add_r by lia.
  - by apply shr_1_m.
Qed.

Lemma shr_record_of_loc_m (m : Z) (l : location) : shr_m (shr_record_of_loc m l) = m.
Proof. by destruct l as [|[]]. Qed.

Lemma shr_fexp_spec (m e : Z) (l : location) :
  0 <= m ->
  0 <= shr_m (fst (shr_fexp prec emax m e l)) /\
  ((snd (shr_fexp prec emax m e l) = e /\ shr_m (fst (shr_fexp prec emax m e l)) = m
    /\ fexp prec emax (Zdigits2 m + e) <= e)
   \/ (snd (shr_fexp prec emax m e l) = fexp prec emax (Zdigits2 m + e)
       /\ e < fexp prec emax (Zdigits2 m + e)
       /\ shr_m (fst (shr_fexp prec emax m e l))
          = m / 2 ^ (fexp prec emax (Zdigits2 m + e) - e))).
Proof.
  intros Hm. unfold shr_fexp, shr.
  destruct (fexp prec emax (Zdigits2 m + e) - e) as [|p|p] eqn:Hn; cbn [fst snd].
  - rewrite shr_record_of_loc_m. split; [done|]. left. split_and!; [done|done|lia].
  - rewrite iter_shr_1_m by (by rewrite shr_record_of_loc_m).
    rewrite shr_record_of_loc_m. split.
    + apply Z.div_pos; [done|by apply Z.pow_pos_nonneg].
    + right. split_and!; [lia|lia|done].
  - rewrite shr_record_of_loc_m. split; [done|]. left. split_and!; [done|done|lia].
Qed.

Lemma round_nearest_even_range (m : Z) (l : location) :
  m <= round_nearest_even m l <= m + 1.
Proof. unfold round_nearest_even. destruct l as [|[]]; try destruct (Z.even m); lia. Qed.

Lemma fexp_eq (x : Z) : fexp prec emax x = Z.max (x - 53) (-1074).
Proof. done. Qed.

Lemma binary_round_aux_number (mx ex : Z) (lx : location) :
  0 <= mx -> Zdigits2 mx + ex <= 1023 -> ex <= 971 ->
  is_number (binary_round_aux prec emax false mx ex lx) = true.
Proof.
  intros Hm Hd He. unfold binary_round_aux.
  destruct (shr_fexp_spec mx ex lx Hm) as [Hm1 Hcase1].
  destruct (shr_fexp prec emax mx ex lx) as [mrs1 e1]. cbn [fst snd] in *.
  set (m1 := round_nearest_even (shr_m mrs1) (loc_of_shr_record mrs1)).
  pose proof (round_nearest_even_range (shr_m mrs1) (loc_of_shr_record mrs1)) as Hr.
  fold m1 in Hr.
  assert (Zdigits2 (shr_m mrs1) + e1 <= 1023 /\ e1 <= 971) as [Hd1 He1].
  { destruct Hcase1 as [(-> & -> & _)|(-> & Hlt & ->)]; [done|].
    rewrite fexp_eq in *. split; [|lia].
    pose proof (Zdigits2_div_pow2 mx (Z.max (Zdigits2 mx + ex - 53) (-1074) - ex) Hm ltac:(lia)).
    lia. }
  assert (0 <= m1) as Hm1' by lia.
  assert (Zdigits2 m1 + e1 <= 1024) as Hd1'.
  { pose proof (Zdigits2_le m1 (shr_m mrs1 + 1) ltac:(lia)).
    pose proof (Zdigits2_succ (shr_m mrs1) Hm1). lia. }
  destruct (shr_fexp_spec m1 e1 loc_Exact Hm1') as [Hm2 Hcase2].
  destruct (shr_fexp prec emax m1 e1 loc_Exact) as [mrs2 e2]. cbn [fst snd] in *.
  assert (e2 <= 971) as He2.
  { destruct Hcase2 as [(-> & _)|(-> & _)]; [done|]. rewrite fexp_eq. lia. }
  destruct (shr_m mrs2) as [|p|p]; [done| |lia].
  unfold emax, prec. destruct (Z.leb_spec e2 (1024 - 53)); [done|lia].
Qed.

(** The quotient of two positive integers below [2^1023]. *)
Lemma SFdiv_number (a b : positive) :
  Z.pos a < 2 ^ 1023 ->
  is_number (SFdiv prec emax (S754_finite false a 0) (S754_finite false b 0)) = true.
Proof.
  intros Ha. unfold SFdiv, SFdiv_core_binary.
  set (d1 := Zdigits2 (Z.pos a)). set (d2 := Zdigits2 (Z.pos b)).
  set (e' := Z.min (fexp prec emax (d1 + 0 - (d2 + 0))) (0 - 0)).
  assert (e' <= 0) as He' by (subst e'; lia).
  assert (d1 <= 1023) as Hd1.
  { subst d1. rewrite Zdigits2_pos.
    assert (Z.log2 (Z.pos a) < 1023); [|lia]. apply Z.log2_lt_pow2; lia. }
  set (m' := match 0 - 0 - e' with
             | 0 => Z.pos a
             | Z.pos _ => Z.shiftl (Z.pos a) (0 - 0 - e')
             | Z.neg _ => 0
             end).
  assert (m' = Z.pos a * 2 ^ (- e')) as Hm'.
  { subst m'. destruct (0 - 0 - e') as [|p|p] eqn:Hs; [| |lia].
    - replace (- e') with 0 by lia. lia.
    - rewrite Z.shiftl_mul_pow2 by lia. f_equal. f_equal. lia. }
  assert (0 < 2 ^ (- e')) as Hpow by (apply Z.pow_pos_nonneg; lia).
  pose proof (Z.div_eucl_eq m' (Z.pos b) ltac:(lia)) as Heq.
  pose proof (Z.mod_pos_bound m' (Z.pos b) ltac:(lia)) as Hmod.
  unfold Z.modulo in Hmod.
  destruct (Z.div_eucl m' (Z.pos b)) as [q r].
  assert (0 <= q <= m') as Hq by nia.
  cbn [xorb]. apply binary_round_aux_number; [lia| |lia].
  pose proof (Zdigits2_le q m' Hq) as Hle.
  rewrite Hm', Zdigits2_mul_pow2 in Hle by lia. fold d1 in Hle. lia.
Qed.

Lemma py_truediv_number (a b : Z) :
  0 <= a < 2 ^ 1023 -> 0 < b ->
  exists q, py_truediv a b = Ok q /\ is_number q = true
            /\ match q with S754_finite s _ _ | S754_zero s => s = false | _ => True end.
Proof.
  intros Ha Hb. unfold py_truediv.
  destruct b as [|b|b]; [lia| |lia].
  destruct a as [|a|a]; [by exists (S754_zero false)| |lia].
  pose proof (SFdiv_number a b ltac:(lia)) as Hn.
  change (Z.pos a <? 0) with false. change (Z.pos b <? 0) with false.
  change (Z.to_pos (Z.abs (Z.pos a))) with a. change (Z.to_pos (Z.abs (Z.pos b))) with b.
  unfold float_of_sign_mag.
  assert (match SFdiv prec emax (S754_finite false a 0) (S754_finite false b 0) with
          | S754_finite s _ _ | S754_zero s => s = false | _ => True end) as Hsign.
  { unfold SFdiv. destruct (SFdiv_core_binary _ _ _ _ _ _) as [[mz ez] lz].
    unfold binary_round_aux. destruct (shr_fexp prec emax mz ez lz) as [mrs1 e1].
    destruct (shr_fexp prec emax _ e1 loc_Exact) as [mrs2 e2].
    destruct (shr_m mrs2); [done| |done]. by destruct (e2 <=? emax - prec). }
  destruct (SFdiv prec emax (S754_finite false a 0) (S754_finite false b 0)) as [s|s| |s m e];
    try done; eauto.
Qed.

(** The quotient is the nearest number: the proof follows the fraction
    through the division, the shifts and the rounding. *)

(** The quotient and the location of the rest, as [SFdiv] forms them. *)
Lemma new_location_locates (N b : Z) :
  0 <= N -> 0 < b ->
  locates N b (shr_record_of_loc (N / b) (new_location b (N mod b))).
Proof.
  intros HN Hb. pose proof (Z.mod_pos_bound N b Hb) as Hr.
  unfold locates, new_location, new_location_even, new_location_odd.
  destruct (Z.even b) eqn:Heven.
  - destruct (Z.eqb_spec (N mod b) 0) as [->|Hne]; cbn [shr_record_of_loc shr_m shr_r shr_s].
    + split; [done|]. split; [|done]. symmetry. apply Z.leb_gt. lia.
    + destruct (Z.compare_spec (2 * (N mod b)) b) as [H|H|H];
        cbn [shr_record_of_loc shr_m shr_r shr_s]; split; try done; split; symmetry.
      * apply Z.leb_le. lia.
      * rewrite orb_false_l. apply negb_false_iff, Z.eqb_eq. done.
      * apply Z.leb_gt. lia.
      * rewrite orb_false_l. apply negb_true_iff, Z.eqb_neq. lia.
      * apply Z.leb_le. lia.
      * rewrite orb_false_l. apply negb_true_iff, Z.eqb_neq. lia.
  - assert (2 * (N mod b) <> b) as Hodd.
    { intros H. rewrite <- H, Z.even_mul in Heven. done. }
    destruct (Z.eqb_spec (N mod b) 0) as [->|Hne]; cbn [shr_record_of_loc shr_m shr_r shr_s].
    + split; [done|]. split; [|done]. symmetry. apply Z.leb_gt. lia.
    + destruct (Z.compare_spec (2 * (N mod b) + 1) b) as [H|H|H];
        cbn [shr_record_of_loc shr_m shr_r shr_s]; split; try done; split; symmetry.
      * apply Z.leb_gt. lia.
      * rewrite orb_false_l. apply negb_true_iff, Z.eqb_neq. lia.
      * apply Z.leb_gt. lia.
      * rewrite orb_false_l. apply negb_true_iff, Z.eqb_neq. lia.
      * apply Z.leb_le. lia.
      * rewrite orb_false_l. apply negb_true_iff, Z.eqb_neq. lia.
Qed.

Lemma div_mod_double (N D : Z) :
  0 < D ->
  N / (2 * D) = (N / D) / 2 /\ N mod (2 * D) = D * ((N / D) mod 2) + N mod D.
Proof.
  intros HD.
  pose proof (Z.div_mod N D ltac:(lia)) as H1.
  pose proof (Z.mod_pos_bound N D HD) as H2.
  pose proof (Z.div_mod (N / D) 2 ltac:(lia)) as H3.
  pose proof (Z.mod_pos_bound (N / D) 2 ltac:(lia)) as H4.
  assert (N = (2 * D) * (N / D / 2) + (D * ((N / D) mod 2) + N mod D)) as Heq by nia.
  assert (0 <= D * ((N / D) mod 2) + N mod D < 2 * D) as Hb by nia.
  split.
  - symmetry. eapply Z.div_unique_pos; [exact Hb|exact Heq].
  - symmetry. eapply Z.mod_unique_pos; [exact Hb|exact Heq].
Qed.

Ltac compare_cases :=
  repeat match goal with
    | |- context [Z.leb ?a ?b] => destruct (Z.leb_spec a b)
    | |- context [Z.eqb ?a ?b] => destruct (Z.eqb_spec a b)
    end;
  cbn [negb orb andb]; try reflexivity; try lia.

Lemma shr_1_parts (m : Z) (r s : bool) :
  0 <= m ->
  shr_1 {| shr_m := m; shr_r := r; shr_s := s |}
  = {| shr_m := m / 2; shr_r := Z.odd m; shr_s := r || s |}.
Proof.
  intros Hm. destruct m as [|[p|p|]|]; try lia; cbn [shr_1]; try done.
  - f_equal. rewrite <- Z.div2_div. done.
  - f_equal. rewrite <- Z.div2_div. done.
Qed.

(** One shift halves the mantissa and keeps the fraction located. *)
Lemma shr_1_locates (N D : Z) (mrs : shr_record) :
  0 <= N -> 0 < D -> locates N D mrs -> locates N (2 * D) (shr_1 mrs).
Proof.
  intros HN HD. destruct mrs as [m r s]. unfold locates. cbn [shr_m shr_r shr_s].
  intros (Hm & Hr & Hs).
  destruct (div_mod_double N D HD) as [Hdiv Hmod]. rewrite Hdiv, Hmod, <- Hm.
  pose proof (Z.mod_pos_bound N D HD) as Hrho.
  assert (0 <= m) as Hm0 by (rewrite Hm; apply Z.div_pos; lia).
  rewrite shr_1_parts by done. cbn [shr_m shr_r shr_s].
  split; [done|]. rewrite Zmod_odd. subst r s.
  destruct (Z.odd m); split; compare_cases.
Qed.

Lemma iter_shr_1_locates (p : positive) (N D : Z) (mrs : shr_record) :
  0 <= N -> 0 < D -> locates N D mrs ->
  locates N (D * 2 ^ Z.pos p) (SpecFloat.iter_pos shr_1 p mrs).
Proof.
  intros HN. revert D mrs.
  induction p as [p IH|p IH|]; intros D mrs HD H; cbn [SpecFloat.iter_pos].
  - assert (0 < 2 ^ Z.pos p) as Hpow by (by apply Z.pow_pos_nonneg).
    replace (D * 2 ^ Z.pos p~1) with (2 * D * 2 ^ Z.pos p * 2 ^ Z.pos p).
    2:{ replace (Z.pos p~1) with (1 + Z.pos p + Z.pos p) by lia.
        rewrite !Z.pow_add_r by lia. change (2 ^ 1) with 2. lia. }
    apply IH; [nia|]. apply IH; [lia|]. by apply shr_1_locates.
  - assert (0 < 2 ^ Z.pos p) as Hpow by (by apply Z.pow_pos_nonneg).
    replace (D * 2 ^ Z.pos p~0) with (D * 2 ^ Z.pos p * 2 ^ Z.pos p).
    2:{ replace (Z.pos p~0) with (Z.pos p + Z.pos p) by lia.
        rewrite !Z.pow_add_r by lia. lia. }
    apply IH; [nia|]. by apply IH.
  - change (2 ^ 1) with 2. replace (D * 2) with (2 * D) by lia. by apply shr_1_locates.
Qed.

Lemma shr_fexp_locates (mx ex : Z) (l : location) (N D : Z) :
  0 <= N -> 0 < D -> locates N D (shr_record_of_loc mx l) ->
  let n := Z.max 0 (fexp prec emax (Zdigits2 mx + ex) - ex) in
  snd (shr_fexp prec emax mx ex l) = ex + n /\
  locates N (D * 2 ^ n) (fst (shr_fexp prec emax mx ex l)).
Proof.
  intros HN HD H n. subst n. unfold shr_fexp, shr.
  destruct (fexp prec emax (Zdigits2 mx + ex) - ex) as [|p|p] eqn:Hn; cbn [fst snd].
  - change (Z.max 0 0) with 0. split; [lia|]. by rewrite Z.mul_1_r.
  - replace (Z.max 0 (Z.pos p)) with (Z.pos p) by lia. split; [done|].
    by apply iter_shr_1_locates.
  - replace (Z.max 0 (Z.neg p)) with 0 by lia. split; [lia|]. by rewrite Z.mul_1_r.
Qed.

(** The rounded mantissa is within one half of the fraction, and even at
    one half. *)
Lemma round_nearest_even_locates (N D : Z) (mrs : shr_record) :
  0 < D -> locates N D mrs ->
  let m := round_nearest_even (shr_m mrs) (loc_of_shr_record mrs) in
  shr_m mrs <= m <= shr_m mrs + 1 /\
  Z.abs (2 * (N - m * D)) <= D /\
  (Z.abs (2 * (N - m * D)) = D -> Z.even m = true).
Proof.
  intros HD. destruct mrs as [m r s]. unfold locates. cbn [shr_m shr_r shr_s].
  intros (Hm & Hr & Hs).
  pose proof (Z.div_mod N D ltac:(lia)) as Hdm.
  pose proof (Z.mod_pos_bound N D HD) as Hrho.
  rewrite <- Hm in Hdm.
  destruct r, s; cbn [loc_of_shr_record round_nearest_even].
  - symmetry in Hr, Hs. apply Z.leb_le in Hr. apply negb_true_iff, orb_false_iff in Hs.
    destruct Hs as [Hs1 Hs2]. apply Z.eqb_neq in Hs1, Hs2.
    split; [lia|]. split; [nia|]. intros Heq. exfalso. nia.
  - symmetry in Hr, Hs. apply Z.leb_le in Hr. apply negb_false_iff, orb_true_iff in Hs.
    assert (2 * (N mod D) = D) as Hhalf.
    { destruct Hs as [Hs|Hs]; [apply Z.eqb_eq in Hs; lia|by apply Z.eqb_eq in Hs]. }
    destruct (Z.even m) eqn:Heven.
    + split; [lia|]. split; [nia|done].
    + split; [lia|]. split; [nia|]. intros _.
      rewrite Z.even_add, Heven. done.
  - symmetry in Hr, Hs. apply Z.leb_gt in Hr. apply negb_true_iff, orb_false_iff in Hs.
    destruct Hs as [Hs1 Hs2]. apply Z.eqb_neq in Hs1, Hs2.
    split; [lia|]. split; [nia|]. intros Heq. exfalso. nia.
  - symmetry in Hr, Hs. apply Z.leb_gt in Hr. apply negb_false_iff, orb_true_iff in Hs.
    assert (N mod D = 0) as Hz.
    { destruct Hs as [Hs|Hs]; [by apply Z.eqb_eq in Hs|apply Z.eqb_eq in Hs; lia]. }
    split; [lia|]. split; [nia|]. intros Heq. exfalso. nia.
Qed.

Lemma Zdigits2_ge0 (m : Z) : 0 <= Zdigits2 m.
Proof. destruct m; simpl; lia. Qed.

Lemma Zdigits2_zero_iff (m : Z) : Zdigits2 m = 0 <-> m = 0.
Proof. destruct m; simpl; split; intros H; try done; lia. Qed.

Lemma Zdigits2_shift_eq (m n : Z) :
  0 <= m -> 0 <= n -> Zdigits2 (m / 2 ^ n) = Z.max 0 (Zdigits2 m - n).
Proof.
  intros Hm Hn. rewrite <- Z.shiftr_div_pow2 by done.
  assert (0 <= Z.shiftr m n) by (by apply Z.shiftr_nonneg).
  rewrite !Zdigits2_nonneg by done.
  destruct (Z.eqb_spec m 0) as [->|Hm0].
  { rewrite Z.shiftr_0_l. simpl. lia. }
  destruct (Z.eqb_spec (Z.shiftr m n) 0) as [Hs|Hs].
  - apply Z.shiftr_eq_0_iff in Hs as [?|[_ Hlt]]; lia.
  - rewrite Z.log2_shiftr by lia.
    destruct (Z.le_gt_cases n (Z.log2 m)); [lia|].
    exfalso. apply Hs. apply Z.shiftr_eq_0; lia.
Qed.

Lemma Zdigits2_pow2 (k : Z) : 0 <= k -> Zdigits2 (2 ^ k) = k + 1.
Proof.
  intros Hk. assert (0 < 2 ^ k) by (by apply Z.pow_pos_nonneg).
  rewrite Zdigits2_nonneg by lia. destruct (Z.eqb_spec (2 ^ k) 0); [lia|].
  by rewrite Z.log2_pow2.
Qed.

Lemma Zdigits2_succ_cases (m : Z) :
  0 <= m ->
  Zdigits2 (m + 1) = Zdigits2 m \/
  (Zdigits2 (m + 1) = Zdigits2 m + 1 /\ m + 1 = 2 ^ Zdigits2 m).
Proof.
  intros Hm. destruct (Z.eq_dec m 0) as [->|Hm0]; [right; done|].
  rewrite !Zdigits2_nonneg by lia.
  destruct (Z.eqb_spec (m + 1) 0); [lia|]. destruct (Z.eqb_spec m 0); [lia|].
  destruct (Z.log2_succ_or m) as [H|H]; change (Z.succ m) with (m + 1) in H.
  - right. split; [lia|].
    destruct (Z.log2_eq_succ_is_pow2 m H) as [b Hb]. change (Z.succ m) with (m + 1) in Hb.
    assert (0 <= b) as Hb0.
    { destruct (Z.le_gt_cases 0 b); [done|]. rewrite Z.pow_neg_r in Hb by done. lia. }
    rewrite Hb. f_equal. rewrite Hb, Z.log2_pow2 in H by done. lia.
  - left. lia.
Qed.

Lemma Zdigits2_div_lower (A b : Z) :
  0 <= A -> 0 < b -> Zdigits2 A - Zdigits2 b <= Zdigits2 (A / b).
Proof.
  intros HA Hb. pose proof (Zdigits2_ge0 (A / b)) as Hq.
  assert (0 <= A / b) as Hq0 by (apply Z.div_pos; lia).
  rewrite (Zdigits2_nonneg A), (Zdigits2_nonneg b) by lia.
  destruct (Z.eqb_spec A 0); [pose proof (Z.log2_nonneg b); destruct (b =? 0); lia|].
  destruct (Z.eqb_spec b 0); [lia|].
  destruct (Z.le_gt_cases (Z.log2 A) (Z.log2 b)); [lia|].
  set (k := Z.log2 A - Z.log2 b - 1).
  assert (0 <= k) by lia.
  assert (2 ^ k <= A / b) as Hlow.
  { apply Z.div_le_lower_bound; [done|].
    destruct (Z.log2_spec A ltac:(lia)) as [HA1 _].
    destruct (Z.log2_spec b ltac:(lia)) as [_ Hb2].
    assert (2 ^ Z.log2 A = 2 ^ k * 2 ^ Z.succ (Z.log2 b)) as Hsplit.
    { pose proof (Z.log2_nonneg b). rewrite <- Z.pow_add_r by lia. f_equal. lia. }
    assert (0 < 2 ^ k) by (by apply Z.pow_pos_nonneg). nia. }
  assert (0 < 2 ^ k) by (by apply Z.pow_pos_nonneg).
  rewrite (Zdigits2_nonneg (A / b)) by done. destruct (Z.eqb_spec (A / b) 0); [lia|].
  pose proof (Z.log2_le_mono _ _ Hlow) as Hmono. rewrite Z.log2_pow2 in Hmono by done.
  lia.
Qed.

(** The rounding of a located fraction whose exponent is not above the
    one of the format: the result is in the form of the format and
    nearest to the fraction. *)
Lemma binary_round_aux_nearest (mx ex : Z) (lx : location) (N D : Z) :
  0 <= N -> 0 < D -> locates N D (shr_record_of_loc mx lx) ->
  ex <= fexp prec emax (Zdigits2 mx + ex) ->
  match binary_round_aux prec emax false mx ex lx with
  | S754_zero s => s = false /\ exists k, 0 <= k /\ ex + k = -1074 /\ 2 * N <= D * 2 ^ k
  | S754_finite s m e =>
      s = false /\ bounded prec emax m e = true /\
      exists k, 0 <= k /\ e = ex + k /\
        Z.abs (2 * (N - Z.pos m * (D * 2 ^ k))) <= D * 2 ^ k /\
        (Z.abs (2 * (N - Z.pos m * (D * 2 ^ k))) = D * 2 ^ k -> Z.even (Z.pos m) = true)
  | S754_infinity _ => True
  | S754_nan => False
  end.
Proof.
  intros HN HD Hloc Hex.
  assert (mx = N / D) as Hmx.
  { destruct Hloc as [H _]. by rewrite shr_record_of_loc_m in H. }
  assert (0 <= mx) as Hmx0 by (rewrite Hmx; apply Z.div_pos; lia).
  unfold binary_round_aux.
  destruct (shr_fexp_locates mx ex lx N D HN HD Hloc) as [He1 Hloc1].
  set (n := Z.max 0 (fexp prec emax (Zdigits2 mx + ex) - ex)) in *.
  assert (n = fexp prec emax (Zdigits2 mx + ex) - ex) as Hn by lia.
  assert (0 <= n) as Hn0 by lia.
  destruct (shr_fexp prec emax mx ex lx) as [mrs1 e1]. cbn [fst snd] in *.
  assert (0 < 2 ^ n) as Hpow by (by apply Z.pow_pos_nonneg).
  assert (0 < D * 2 ^ n) as HD1 by nia.
  destruct (round_nearest_even_locates N (D * 2 ^ n) mrs1 HD1 Hloc1) as (Hrange & Herr & Htie).
  assert (shr_m mrs1 = mx / 2 ^ n) as Hm1.
  { destruct Hloc1 as [-> _]. rewrite Hmx. rewrite Z.div_div by lia. done. }
  assert (0 <= shr_m mrs1) as Hm10 by (rewrite Hm1; apply Z.div_pos; lia).
  pose proof (Zdigits2_shift_eq mx n Hmx0 Hn0) as Hd1. rewrite <- Hm1 in Hd1.
  pose proof (Zdigits2_zero_iff (shr_m mrs1)) as Hz1.
  pose proof (Zdigits2_ge0 mx) as Hdq.
  set (mr := round_nearest_even (shr_m mrs1) (loc_of_shr_record mrs1)) in *.
  clearbody mr.
  rewrite fexp_eq in Hn, Hex.
  assert (fexp prec emax (Zdigits2 mr + e1) - e1 = 0
          \/ (fexp prec emax (Zdigits2 mr + e1) - e1 = 1 /\ mr = 2 ^ 53)) as Hn2.
  { rewrite fexp_eq.
    destruct (Z.eq_dec mr (shr_m mrs1)) as [->|Hne]; [left; lia|].
    assert (mr = shr_m mrs1 + 1) as -> by lia.
    destruct (Zdigits2_succ_cases (shr_m mrs1) Hm10) as [->|[-> Hp]]; [left; lia|].
    destruct (Z.eq_dec (Zdigits2 (shr_m mrs1)) 53) as [H53|H53].
    - right. rewrite Hp, H53. split; [lia|done].
    - left. lia. }
  assert (mr = 0 -> e1 = -1074) as Hzero.
  { intros ->. assert (shr_m mrs1 = 0) as H0 by lia. apply Hz1 in H0. lia. }
  unfold shr_fexp, shr.
  destruct Hn2 as [Hn2|[Hn2 Hmr]]; rewrite Hn2.
  - rewrite shr_record_of_loc_m.
    destruct mr as [|p|p]; [| |lia].
    + split; [done|]. exists n. split; [done|]. split; [rewrite <- He1; by apply Hzero|].
      lia.
    + destruct (Z.leb_spec e1 (emax - prec)) as [Hle|]; [|done].
      split; [done|]. split.
      { unfold bounded, canonical_mantissa. apply andb_true_iff. split.
        - apply Z.eqb_eq. change (Z.pos (digits2_pos p)) with (Zdigits2 (Z.pos p)). lia.
        - by apply Z.leb_le. }
      exists n. split; [done|]. split; [done|]. split; [exact Herr|exact Htie].
  - subst mr. cbn [shr_record_of_loc SpecFloat.iter_pos].
    rewrite shr_1_parts by done. cbn [shr_m].
    change (2 ^ 53 / 2) with (Z.pos (2 ^ 52)).
    assert (-1074 <= e1) as He1low by lia.
    destruct (Z.leb_spec (e1 + 1) (emax - prec)) as [Hle|]; [|done].
    split; [done|]. split.
    { unfold bounded, canonical_mantissa. apply andb_true_iff. split.
      - apply Z.eqb_eq. change (Z.pos (digits2_pos (2 ^ 52))) with 53. rewrite fexp_eq. lia.
      - by apply Z.leb_le. }
    exists (n + 1). split; [lia|]. split; [lia|].
    rewrite Z.pow_add_r by lia. change (2 ^ 1) with 2.
    change (Z.pos (2 ^ 52)) with (2 ^ 52).
    assert (2 ^ 53 = 2 * 2 ^ 52) as H53 by done. rewrite H53 in Herr.
    split; [|done]. 
    replace (2 ^ 52 * (D * (2 ^ n * 2))) with (2 * 2 ^ 52 * (D * 2 ^ n)) by lia. lia.
Qed.

Lemma scaled_error (K x y : Z) :
  0 < K -> (Z.abs (2 * (K * x)) <= K * y <-> Z.abs (2 * x) <= y)
           /\ (Z.abs (2 * (K * x)) = K * y <-> Z.abs (2 * x) = y).
Proof.
  intros HK. replace (2 * (K * x)) with (K * (2 * x)) by lia.
  rewrite Z.abs_mul, (Z.abs_eq K) by lia. split; split; intros H; nia.
Qed.

(** The quotient of two positive integers, when it is not an infinity. *)
Lemma SFdiv_nearest (a b : positive) :
  match SFdiv prec emax (S754_finite false a 0) (S754_finite false b 0) with
  | S754_infinity _ => True
  | q => nearest_binary64 (Z.pos a) (Z.pos b) q
  end.
Proof.
  unfold SFdiv, SFdiv_core_binary.
  set (d1 := Zdigits2 (Z.pos a)). set (d2 := Zdigits2 (Z.pos b)).
  set (e' := Z.min (fexp prec emax (d1 + 0 - (d2 + 0))) (0 - 0)).
  assert (e' <= 0) as He' by (subst e'; lia).
  set (m' := match 0 - 0 - e' with
             | 0 => Z.pos a
             | Z.pos _ => Z.shiftl (Z.pos a) (0 - 0 - e')
             | Z.neg _ => 0
             end).
  assert (m' = Z.pos a * 2 ^ (- e')) as Hm'.
  { subst m'. destruct (0 - 0 - e') as [|p|p] eqn:Hs; [| |lia].
    - replace (- e') with 0 by lia. lia.
    - rewrite Z.shiftl_mul_pow2 by lia. f_equal. f_equal. lia. }
  assert (0 < 2 ^ (- e')) as Hpow by (apply Z.pow_pos_nonneg; lia).
  assert (0 < m') as Hm'0 by nia.
  assert (Z.div_eucl m' (Z.pos b) = (m' / Z.pos b, m' mod Z.pos b)) as Heucl.
  { unfold Z.div, Z.modulo. by destruct (Z.div_eucl m' (Z.pos b)). }
  rewrite Heucl. cbn [xorb].
  pose proof (binary_round_aux_nearest (m' / Z.pos b) e'
                (new_location (Z.pos b) (m' mod Z.pos b)) m' (Z.pos b)
                ltac:(lia) ltac:(lia)
                (new_location_locates m' (Z.pos b) ltac:(lia) ltac:(lia))) as H.
  assert (e' <= fexp prec emax (Zdigits2 (m' / Z.pos b) + e')) as Hcanon.
  { pose proof (Zdigits2_div_lower m' (Z.pos b) ltac:(lia) ltac:(lia)) as Hlow.
    rewrite Hm' in Hlow at 1. rewrite Zdigits2_mul_pow2 in Hlow by lia.
    fold d1 d2 in Hlow. subst e'. rewrite !fexp_eq in *. lia. }
  specialize (H Hcanon).
  destruct (binary_round_aux prec emax false (m' / Z.pos b) e' _) as [s|s| |s m e];
    [| done | done |].
  - destruct H as (-> & k & Hk & Hek & Hle). unfold nearest_binary64.
    rewrite Hm' in Hle. replace (- e') with (k + 1074) in Hle by lia.
    rewrite Z.pow_add_r in Hle by lia.
    assert (0 < 2 ^ k) by (by apply Z.pow_pos_nonneg).
    change (2 ^ 1075) with (2 * 2 ^ 1074). nia.
  - destruct H as (-> & Hb & k & Hk & Hek & Herr & Htie). unfold nearest_binary64.
    split; [done|]. cbv zeta. rewrite Hm' in Herr, Htie.
    assert (0 < 2 ^ k) by (by apply Z.pow_pos_nonneg).
    destruct (Z.le_gt_cases 0 e) as [He|He].
    + replace (Z.max 0 (- e)) with 0 by lia. replace (Z.max 0 e) with e by lia.
      change (2 ^ 0) with 1. rewrite Z.mul_1_r.
      replace k with (- e' + e) in Herr, Htie by lia.
      rewrite Z.pow_add_r in Herr, Htie by lia.
      assert (0 < 2 ^ e) by (by apply Z.pow_pos_nonneg).
      destruct (scaled_error (2 ^ (- e')) (Z.pos a - Z.pos m * Z.pos b * 2 ^ e)
                  (Z.pos b * 2 ^ e) Hpow) as [Hs1 Hs2].
      replace (2 ^ (- e') * (Z.pos a - Z.pos m * Z.pos b * 2 ^ e))
        with (Z.pos a * 2 ^ (- e') - Z.pos m * (Z.pos b * (2 ^ (- e') * 2 ^ e)))
        in Hs1, Hs2 by lia.
      replace (2 ^ (- e') * (Z.pos b * 2 ^ e)) with (Z.pos b * (2 ^ (- e') * 2 ^ e))
        in Hs1, Hs2 by lia.
      split; [by apply Hs1|]. intros Heq. apply Htie. by apply Hs2.
    + replace (Z.max 0 (- e)) with (- e) by lia. replace (Z.max 0 e) with 0 by lia.
      change (2 ^ 0) with 1. rewrite !Z.mul_1_r.
      replace (- e') with (k + - e) in Herr, Htie by lia.
      rewrite Z.pow_add_r in Herr, Htie by lia.
      assert (0 < 2 ^ (- e)) by (apply Z.pow_pos_nonneg; lia).
      destruct (scaled_error (2 ^ k) (Z.pos a * 2 ^ (- e) - Z.pos m * Z.pos b)
                  (Z.pos b) ltac:(done)) as [Hs1 Hs2].
      replace (2 ^ k * (Z.pos a * 2 ^ (- e) - Z.pos m * Z.pos b))
        with (Z.pos a * (2 ^ k * 2 ^ (- e)) - Z.pos m * (Z.pos b * 2 ^ k))
        in Hs1, Hs2 by lia.
      replace (2 ^ k * Z.pos b) with (Z.pos b * 2 ^ k) in Hs1, Hs2 by lia.
      split; [by apply Hs1|]. intros Heq. apply Htie. by apply Hs2.
Qed.

Lemma py_truediv_nearest (a b : Z) :
  0 <= a < 2 ^ 1023 -> 0 < b ->
  exists q, py_truediv a b = Ok q /\ nearest_binary64 a b q.
Proof.
  intros Ha Hb.
  destruct (py_truediv_number a b Ha Hb) as (q & Hq & _). exists q. split; [done|].
  unfold py_truediv in Hq.
  destruct b as [|b|b]; [lia| |lia].
  destruct a as [|a|a]; [|clear Ha|lia].
  { injection Hq as <-. cbn. lia. }
  change (Z.pos a <? 0) with false in Hq. change (Z.pos b <? 0) with false in Hq.
  change (Z.to_pos (Z.abs (Z.pos a))) with a in Hq.
  change (Z.to_pos (Z.abs (Z.pos b))) with b in Hq.
  unfold float_of_sign_mag in Hq.
  pose proof (SFdiv_nearest a b) as Hn.
  destruct (SFdiv prec emax (S754_finite false a 0) (S754_finite false b 0)) as [s|s| |s m e];
    try done; by injection Hq as <-.
Qed.

Lemma total_emails_of_pure (businesses : list loc) (w : World) :
  snd (total_emails_of businesses w) = w.
Proof.
  induction businesses as [|b rest IH]; [done|]. cbn [total_emails_of].
  unfold bind at 1, getitem.
  destruct (default ∅ (heap w !! b) !! "emails") as [emails|]; [|done].
  rewrite bind_lift_result. destruct (py_len emails) as [n|]; [|done].
  unfold bind. destruct (total_emails_of rest w) as [[s|e] w'];  simpl in *; congruence.
Qed.

Lemma businesses_with_emails_of_pure (businesses : list loc) (w : World) :
  snd (businesses_with_emails_of businesses w) = w.
Proof.
  induction businesses as [|b rest IH]; [done|]. cbn [businesses_with_emails_of].
  unfold bind at 1, getitem.
  destruct (default ∅ (heap w !! b) !! "emails") as [emails|]; [|done].
  unfold bind. destruct (businesses_with_emails_of rest w) as [[s|e] w']; simpl in *; congruence.
Qed.

(** The summary ends with the line of the average, made of the total the
    summary counted. *)
Lemma print_summary_last_line (businesses : list loc) (w : World) :
  fst (print_summary businesses w) = Ok tt ->
  exists total line tr,
    fst (total_emails_of businesses w) = Ok total /\
    average_line total businesses = Ok line /\
    trace (snd (print_summary businesses w)) = trace w ++ tr ++ [EvPrint line].
Proof.
  unfold print_summary. intros H.
  pose proof (total_emails_of_pure businesses w) as Hp1.
  destruct (total_emails_of businesses w) as [[total|e] w1] eqn:H1; cbn [snd] in Hp1; subst w1.
  2:{ by erewrite bind_run_raise in H by exact H1. }
  erewrite bind_run in H |- * by exact H1.
  pose proof (businesses_with_emails_of_pure businesses w) as Hp2.
  destruct (businesses_with_emails_of businesses w) as [[n|e] w1] eqn:H2; cbn [snd] in Hp2; subst w1.
  2:{ by erewrite bind_run_raise in H by exact H2. }
  erewrite bind_run in H |- * by exact H2.
  do 4 (erewrite bind_run in H |- * by reflexivity).
  rewrite bind_lift_result in H |- *.
  destruct (average_line total businesses) as [line|e] eqn:Hline; [|done].
  exists total, line. eexists [_; _; _; _].
  split; [done|]. split; [done|]. cbn [print snd emit trace]. by rewrite <- !app_assoc.
Qed.

(** The counts of the summary, for records that hold a list of e-mails. *)
Lemma has_emails_at (w : World) (b : loc) :
  has_emails w b ->
  exists d, heap w !! b = Some d /\ d !! "emails" = Some (VList (emails_at w b)).
Proof.
  intros (d & es & Hb & He). exists d. split; [done|].
  unfold emails_at, emails_of. rewrite Hb. simpl. by rewrite He.
Qed.

Lemma total_emails_of_run (businesses : list loc) (w : World) :
  (forall b, b ∈ businesses -> has_emails w b) ->
  total_emails_of businesses w = (Ok (count_emails w businesses), w).
Proof.
  induction businesses as [|b rest IH]; intros H; [done|].
  destruct (has_emails_at w b) as (d & Hb & He); [apply H; by left|].
  cbn [total_emails_of].
  erewrite bind_run by (eapply run_getitem; [exact Hb|exact He]).
  rewrite bind_lift_result. cbn [py_len].
  erewrite bind_run by (apply IH; intros b' Hb'; apply H; by right).
  unfold ret, count_emails. cbn [map concat]. rewrite length_app. do 2 f_equal. lia.
Qed.

Lemma businesses_with_emails_of_run (businesses : list loc) (w : World) :
  (forall b, b ∈ businesses -> has_emails w b) ->
  businesses_with_emails_of businesses w = (Ok (count_with_emails w businesses), w).
Proof.
  induction businesses as [|b rest IH]; intros H; [done|].
  destruct (has_emails_at w b) as (d & Hb & He); [apply H; by left|].
  cbn [businesses_with_emails_of].
  erewrite bind_run by (eapply run_getitem; [exact Hb|exact He]).
  erewrite bind_run by (apply IH; intros b' Hb'; apply H; by right).
  unfold ret, count_with_emails. cbn [List.filter truthy].
  destruct (emails_at w b); cbn [length Nat.eqb negb]; do 2 f_equal; lia.
Qed.

(** C6. With no record the average line says [0.0] and the quotient,
    which would raise, is not formed.  With records the line shows the
    quotient of the total by the number of records with one decimal:
    the quotient is the binary64 number nearest to the fraction of the
    two integers, the even one of two that are as near, and the tenths
    shown are the integer nearest to ten times that number, the even one
    of two that are as near.  The total of the summary is the number of
    e-mails that the records hold, all lists together, and the line that
    ends the summary is made of that total and of the number of
    records.  The quotient is a number as long as the total is below
    [2 ^ 1023]. *)
Theorem average_guarded_and_rendered :
  (forall total, average_line total [] = Ok "Average emails per business: 0.0") /\
  (forall total, py_truediv total (Z.of_nat (length ([] : list loc)))
                 = Raise (ZeroDivisionError "division by zero")) /\
  (forall w, trace (snd (print_summary [] w))
             = trace w ++ [EvPrint (newline +:+ "=== SCRAPING SUMMARY ===");
                           EvPrint "Total businesses found: 0";
                           EvPrint "Businesses with emails: 0";
                           EvPrint "Total emails found: 0";
                           EvPrint "Average emails per business: 0.0"]) /\
  (forall total businesses,
      businesses <> [] -> 0 <= total < 2 ^ 1023 ->
      exists q,
        py_truediv total (Z.of_nat (length businesses)) = Ok q /\
        nearest_binary64 total (Z.of_nat (length businesses)) q /\
        average_line total businesses
        = Ok ("Average emails per business: " +:+ format_1f q) /\
        match q with
        | S754_zero false => format_1f q = "0.0"
        | S754_finite false m e =>
            format_1f q = pretty (tenths_of m e / 10) +:+ "." +:+ pretty (tenths_of m e mod 10)
            /\ if 0 <=? e then tenths_of m e = 10 * Z.pos m * 2 ^ e
               else Z.abs (2 * (10 * Z.pos m - tenths_of m e * 2 ^ (- e))) <= 2 ^ (- e)
                    /\ (Z.abs (2 * (10 * Z.pos m - tenths_of m e * 2 ^ (- e))) = 2 ^ (- e)
                        -> Z.even (tenths_of m e) = true)
        | _ => False
        end) /\
  (forall businesses w,
      businesses <> [] ->
      (forall b, b ∈ businesses -> has_emails w b) ->
      count_emails w businesses < 2 ^ 1023 ->
      exists q tr,
        total_emails_of businesses w = (Ok (count_emails w businesses), w) /\
        py_truediv (count_emails w businesses) (Z.of_nat (length businesses)) = Ok q /\
        nearest_binary64 (count_emails w businesses) (Z.of_nat (length businesses)) q /\
        fst (print_summary businesses w) = Ok tt /\
        trace (snd (print_summary businesses w))
        = trace w ++ tr ++ [EvPrint ("Average emails per business: " +:+ format_1f q)]) /\
  (forall businesses w,
      fst (print_summary businesses w) = Ok tt ->
      exists total line tr,
        fst (total_emails_of businesses w) = Ok total /\
        average_line total businesses = Ok line /\
        trace (snd (print_summary businesses w)) = trace w ++ tr ++ [EvPrint line]).
Proof.
  assert (forall total businesses,
            businesses <> [] -> 0 <= total < 2 ^ 1023 ->
            exists q,
              py_truediv total (Z.of_nat (length businesses)) = Ok q /\
              nearest_binary64 total (Z.of_nat (length businesses)) q /\
              average_line total businesses
              = Ok ("Average emails per business: " +:+ format_1f q)) as Hquot.
  { intros total businesses Hne Htot.
    destruct (py_truediv_nearest total (Z.of_nat (length businesses)) Htot)
      as (q & Hq & Hnear).
    { destruct businesses; [done|]. simpl. lia. }
    exists q. split; [done|]. split; [done|].
    unfold average_line. destruct businesses; [done|]. by rewrite Hq. }
  split_and!.
  - done.
  - intros []; done.
  - intros w. cbn. by rewrite <- !app_assoc.
  - intros total businesses Hne Htot.
    destruct (Hquot total businesses Hne Htot) as (q & Hq & Hnear & Hline).
    exists q. split; [done|]. split; [done|]. split; [done|].
    destruct q as [s|s| |s m e]; try done; destruct s; try done.
    split; [done|]. pose proof (tenths_of_nearest m e) as Hten.
    destruct (Z.leb_spec 0 e); [done|]. split; [done|]. by apply tenths_of_tie.
  - intros businesses w Hne Hhas Hlt.
    assert (0 <= count_emails w businesses < 2 ^ 1023) as Htot
      by (unfold count_emails in *; lia).
    destruct (Hquot (count_emails w businesses) businesses Hne Htot)
      as (q & Hq & Hnear & Hline).
    pose proof (total_emails_of_run businesses w Hhas) as Ht.
    pose proof (businesses_with_emails_of_run businesses w Hhas) as Hk.
    exists q. eexists [_; _; _; _].
    split; [done|]. split; [done|]. split; [done|].
    unfold print_summary.
    erewrite bind_run by exact Ht. erewrite bind_run by exact Hk.
    do 4 (erewrite bind_run by reflexivity).
    rewrite bind_lift_result, Hline.
    split; [done|]. cbn [print snd emit trace]. by rewrite <- !app_assoc.
  - apply print_summary_last_line.
Qed.

(* --------------------------------------------------------------------- *)
(** ** Runs on the sample environment *)
(* --------------------------------------------------------------------- *)

(** C2 at a site that is down, where the code departs from the claim: the
    three candidates are requested one after the other, each attempt
    fails, and no delay follows any of them. *)
Lemma crawler_no_delay_after_failure :
  let run := extract_emails_from_website offline (VStr "http://a.example") 3 empty_world in
  fst run = Ok [] /\
  session_gets (trace (snd run))
  = ["http://a.example"; "http://a.example/contact"; "http://a.example/contact-us"] /\
  sleeps (trace (snd run)) = [] /\
  delay_after_each_get (trace (snd run)) = false.
Proof. by vm_compute. Qed.

(** C2 on the sample site: its page is fetched and the delay follows the
    request. *)
Lemma crawler_delay_after_success_witness :
  attempt_outcome env1 [] "http://a.example" = None /\
  exists after',
    [EvSleep 1000; EvSessionGet "http://a.example/contact";
     EvPrint (scrape_error_line "http://a.example/contact"
                (RequestException
                   "404 Client Error: Not Found for url: http://a.example/contact"))]
    = EvSleep 1000 :: after'.
Proof.
  split; [reflexivity|].
  destruct (crawler_delay_after_success env1 (VStr "http://a.example") 2 empty_world)
    as (tr & Ht & Hget & _).
  vm_compute in Ht. subst tr.
  exact (Hget [] "http://a.example" _ eq_refl).
Defined.

(** C7 at a URL that [urlparse] rejects, on a site that is down, where the
    code departs from the claim: no page can be fetched, yet the result is
    not the empty list.  [urlparse] is called before the [try], its
    [ValueError] leaves the crawler, and no request is made. *)
Lemma crawler_raises_on_malformed_url :
  (forall h p, exists e, session_get offline h p = Raise e) /\
  extract_emails_from_website offline (VStr "http://[") 3 empty_world
  = (Raise (ValueError "Invalid IPv6 URL"), empty_world).
Proof.
  split; [|by vm_compute].
  intros h p. eexists. reflexivity.
Qed.

(** C7 on a site that is down, with a cap of two pages. *)
Lemma crawler_empty_or_unreachable_witness :
  exists w' tr,
    extract_emails_from_website offline (VStr "http://a.example") 2 empty_world = (Ok [], w') /\
    heap w' = [] /\ trace w' = tr /\
    session_gets tr = ["http://a.example"; "http://a.example/contact"].
Proof.
  destruct (proj1 (proj2 (proj2 (crawler_empty_or_unreachable offline 2 empty_world)))
              "http://a.example"
              ["http://a.example"; "http://a.example/contact"; "http://a.example/contact-us";
               "http://a.example/about"; "http://a.example/about-us"])
    as (w' & tr & Hrun & Hheap & Htrace & Hgets & _).
  - discriminate.
  - reflexivity.
  - intros h p. eexists. reflexivity.
  - exists w', tr. split; [exact Hrun|]. split; [exact Hheap|]. split; [exact Htrace|exact Hgets].
Defined.

(** C4 on the sample answer of two places, with a cap of one record. *)
Lemma search_cap_and_order_witness :
  let run := search_businesses env1 None "law firm" "Town" 5000 1 empty_world in
  exists outcomes : list (string * option loc),
    length outcomes = 1%nat /\
    Z.of_nat (length (omap snd (take 0 outcomes))) < 1 /\
    1 <= Z.of_nat (length (fst run)).
Proof.
  intros run.
  destruct (search_cap_and_order env1 None "law firm" "Town" 5000 1 empty_world)
    as (tr & outcomes & Ht & Hl & Hp & Hr & Hj & Hs & Hcap).
  fold run in Ht, Hr, Hs.
  vm_compute in Ht. subst tr.
  assert (length outcomes = 1%nat) as Hlen.
  { apply (f_equal length) in Hl. rewrite length_map in Hl. symmetry. exact Hl. }
  exists outcomes. split; [exact Hlen|]. split.
  - apply Hj. rewrite Hlen. apply Nat.lt_0_1.
  - apply Hs. rewrite Hlen. vm_compute. apply Nat.lt_succ_diag_r.
Defined.

(** The four sample records hold lists of e-mails. *)
Lemma four_records_have_emails (b : loc) :
  b ∈ [0; 1; 2; 3]%nat -> has_emails MoreSamples.four_records b.
Proof.
  intros Hb. repeat (apply elem_of_cons in Hb as [->|Hb]);
    [| | | |by apply elem_of_nil in Hb];
    eexists; eexists; (split; [reflexivity|]); by simplify_map_eq.
Defined.

(** C6 for four records that hold seven e-mails: the quotient is [1.75],
    shown as [1.8]. *)
Lemma average_guarded_and_rendered_witness :
  exists q tr,
    total_emails_of [0; 1; 2; 3]%nat MoreSamples.four_records
    = (Ok 7, MoreSamples.four_records) /\
    py_truediv 7 4 = Ok q /\
    nearest_binary64 7 4 q /\
    trace (snd (print_summary [0; 1; 2; 3]%nat MoreSamples.four_records))
    = tr ++ [EvPrint "Average emails per business: 1.8"].
Proof.
  destruct (proj1 (proj2 (proj2 (proj2 (proj2 average_guarded_and_rendered))))
              [0; 1; 2; 3]%nat MoreSamples.four_records)
    as (q & tr & Htotal & Hq & Hnear & _ & Htrace).
  - discriminate.
  - exact four_records_have_emails.
  - reflexivity.
  - exists q, tr. split; [exact Htotal|]. split; [exact Hq|]. split; [exact Hnear|].
    rewrite Htrace. vm_compute in Hq. injection Hq as <-. reflexivity.
Defined.

(** C8 on a link with a subject. *)
Lemma mailto_query_excluded_witness :
  let page := mkPage "Call us" ["/home"; "mailto:info@acme.example?subject=Hello"] in
  In "info@acme.example" (found_emails page) /\
  has_char "?" "info@acme.example" = false /\
  mailto_address "mailto:info@acme.example?subject=Hello" = "info@acme.example".
Proof.
  intros page.
  destruct (mailto_query_excluded page "mailto:info@acme.example?subject=Hello")
    as (H1 & H2 & H3 & _); [right; by left|reflexivity|reflexivity|].
  split; [exact H1|]. split; [exact H2|reflexivity].
Defined.

(** C9 as it was stated fails for a place without a website: its record
    is returned with nothing ever assigned to it, while the record of the
    place with a website is assigned once. *)
Lemma record_without_website_never_assigned :
  let run := scrape_business_contacts env1 None ["law firm"] "Town" 2 empty_world in
  fst run = Ok [0%nat; 1%nat] /\
  assignments 1%nat (trace (snd run)) = [] /\
  heap (snd run) !! 1%nat = Some (business_dict (details_result (place "B" EmptyString))) /\
  assignments 0%nat (trace (snd run)) = [("emails", VList ["sales@a.example"; "info@a.example"])].
Proof. vm_compute. done. Qed.

(** C9, as amended, on the sample run. *)
Lemma record_emails_assigned_at_most_once_witness :
  let run := scrape_business_contacts env1 None ["law firm"] "Town" 2 empty_world in
  exists tr,
    trace (snd run) = tr /\ NoDup [0; 1]%nat /\
    forall b, b ∈ [0; 1]%nat ->
      exists r,
        if has_website r
        then exists emails w0,
               fst (extract_emails_from_website env1
                      (VStr (default EmptyString (r_website r))) 3 w0) = Ok emails /\
               assignments b tr = [("emails", VList emails)] /\
               heap (snd run) !! b = Some (<["emails" := VList emails]> (business_dict r))
        else assignments b tr = [] /\ heap (snd run) !! b = Some (business_dict r).
Proof.
  intros run.
  exact (proj1 (record_emails_assigned_at_most_once env1 None)
           ["law firm"] "Town" 2 empty_world [0; 1]%nat (snd run) eq_refl).
Defined.

(** C5 on the sample run: one type, a share of two, two records. *)
Lemma coordinator_share_is_floor_division_witness :
  let run := scrape_business_contacts env1 None ["law firm"] "Town" 2 empty_world in
  fst run = Ok [0; 1]%nat /\
  Z.of_nat (length [0; 1]%nat) <= Z.of_nat (length ["law firm"]) * Z.max 0 (2 / 1).
Proof.
  intros run. split; [reflexivity|].
  exact (proj1 (proj2 (coordinator_share_is_floor_division env1 None
                         ["law firm"] "Town" 2 empty_world)) [0; 1]%nat eq_refl).
Defined.

(* ===================================================================== *)
(** * Further properties *)
(* ===================================================================== *)

Import MoreSamples.

(* --------------------------------------------------------------------- *)
(** ** The crawler: what it returns and what stops it *)
(* --------------------------------------------------------------------- *)

Lemma filter_emails_mono (found : list string) (emails : gset string) :
  emails ⊆ fst (filter_emails found emails).
Proof.
  revert emails. induction found as [|c rest IH]; intros emails; [done|].
  cbn [filter_emails]. destruct (split "@" c !! 1%nat); [|done].
  destruct (negb _ && negb _); [|apply IH].
  etrans; [|apply IH]. set_solver.
Qed.

Lemma filter_emails_app_fst (a b : list string) (emails : gset string) :
  fst (filter_emails a emails) ⊆ fst (filter_emails (a ++ b) emails).
Proof.
  revert emails. induction a as [|c rest IH]; intros emails; [apply filter_emails_mono|].
  cbn [filter_emails app]. destruct (split "@" c !! 1%nat); [|done].
  destruct (negb _ && negb _); apply IH.
Qed.

Lemma filter_emails_ok (found : list string) (emails : gset string) :
  (forall c, In c found -> is_Some (split "@" c !! 1%nat)) ->
  snd (filter_emails found emails) = None.
Proof.
  revert emails. induction found as [|c rest IH]; intros emails H; [done|].
  cbn [filter_emails]. destruct (H c) as [seg ->]; [by left|].
  destruct (negb _ && negb _); apply IH; intros; apply H; by right.
Qed.

Lemma filter_emails_takes (found : list string) (emails : gset string) (c seg : string) :
  snd (filter_emails found emails) = None ->
  In c found -> split "@" c !! 1%nat = Some seg -> lower seg ∉ excluded_domains ->
  lower c ∈ fst (filter_emails found emails).
Proof.
  revert emails. induction found as [|c' rest IH]; intros emails Hok Hin Hs Hx; [done|].
  cbn [filter_emails] in *. destruct Hin as [->|Hin].
  - rewrite Hs in *. destruct (bool_decide (lower seg ∈ excluded_domains)) eqn:E.
    { by apply bool_decide_eq_true in E. }
    cbn [negb andb]. destruct (bool_decide (lower c ∈ emails)) eqn:E'; cbn [negb].
    + apply bool_decide_eq_true in E'. by apply filter_emails_mono.
    + apply filter_emails_mono. set_solver.
  - destruct (split "@" c' !! 1%nat); [|done].
    destruct (negb _ && negb _); by apply IH.
Qed.

Lemma filter_emails_fails (found : list string) (emails : gset string) (c : string) :
  In c found -> split "@" c !! 1%nat = None ->
  snd (filter_emails found emails) = Some (IndexError "list index out of range").
Proof.
  revert emails. induction found as [|c' rest IH]; intros emails Hin Hs; [done|].
  cbn [filter_emails]. destruct (split "@" c' !! 1%nat) eqn:E; [|done].
  destruct Hin as [->|Hin]; [congruence|].
  destruct (negb _ && negb _); by apply IH.
Qed.

Lemma split_one_at (s : string) :
  count_char "@" s = 1%nat ->
  exists a b, split "@" s = [a; b] /\ domain_after_last_at s = b.
Proof.
  intros H. pose proof (split_length "@" s) as Hl. rewrite H in Hl.
  unfold domain_after_last_at.
  destruct (split "@" s) as [|a [|b [|]]]; try done. by exists a, b.
Qed.

Lemma split_no_at (s : string) :
  count_char "@" s = 0%nat -> split "@" s !! 1%nat = None.
Proof.
  intros H. pose proof (split_length "@" s) as Hl. rewrite H in Hl.
  by destruct (split "@" s) as [|a [|b ?]].
Qed.

(** The matches of the pattern in the text of a page are filtered before
    the links are looked at, and none of them makes the filter fail. *)
Lemma text_addresses_taken (page : Page) (emails : gset string) (m : string) :
  In m (findall email_pattern (page_text page)) ->
  lower (domain_after_last_at m) ∉ excluded_domains ->
  lower m ∈ fst (filter_emails (found_emails page) emails).
Proof.
  intros Hm Hx. unfold found_emails. apply filter_emails_app_fst.
  destruct (split_one_at m) as (a & b & Hs & Hd); [by eapply text_match_one_at|].
  rewrite Hd in Hx.
  apply (filter_emails_takes _ _ m b); [|done|by rewrite Hs|done].
  apply filter_emails_ok. intros c Hc.
  destruct (split_one_at c) as (a' & b' & Hs' & _); [by eapply text_match_one_at|].
  rewrite Hs'. by eexists.
Qed.

Section CrawlLoop.

Variable env : Env.

Lemma crawl_loop_mono (pages : list string) (max_pages checked : Z)
    (emails : gset string) (w : World) :
  emails ⊆ fst (crawl_loop env pages max_pages checked emails w).
Proof.
  revert checked emails w. induction pages as [|p rest IH]; intros checked emails w; [done|].
  cbn [crawl_loop]. destruct (checked >=? max_pages); [done|].
  destruct (session_get env (trace w) p) as [page|e]; [|apply IH].
  pose proof (filter_emails_mono (found_emails page) emails) as Hf.
  destruct (filter_emails (found_emails page) emails) as [emails' [e|]];
    (etrans; [exact Hf|apply IH]).
Qed.

(** The first page of the loop, when it is fetched: what its filter loop
    put in the set stays there. *)
Lemma crawl_loop_first (u : string) (rest : list string) (max_pages checked : Z)
    (emails : gset string) (w : World) (page : Page) :
  checked < max_pages -> session_get env (trace w) u = Ok page ->
  fst (filter_emails (found_emails page) emails)
  ⊆ fst (crawl_loop env (u :: rest) max_pages checked emails w).
Proof.
  intros Hlt Hget. cbn [crawl_loop].
  destruct (checked >=? max_pages) eqn:E; [lia|]. rewrite Hget.
  destruct (filter_emails (found_emails page) emails) as [emails' [e|]];
    apply crawl_loop_mono.
Qed.

Lemma crawl_loop_reaches (pages : list string) (max_pages checked : Z)
    (emails : gset string) (w : World) (u : string) (page : Page) :
  checked + Z.of_nat (length pages) <= max_pages ->
  In u pages -> (forall h, session_get env h u = Ok page) ->
  forall e, (forall emails', e ∈ fst (filter_emails (found_emails page) emails')) ->
    e ∈ fst (crawl_loop env pages max_pages checked emails w).
Proof.
  revert checked emails w. induction pages as [|p rest IH]; intros checked emails w Hle Hin Hget e He;
    [done|].
  cbn [length] in Hle. destruct Hin as [->|Hin].
  - eapply crawl_loop_first; [lia|apply Hget|apply He].
  - cbn [crawl_loop]. destruct (checked >=? max_pages) eqn:E; [lia|].
    destruct (session_get env (trace w) p) as [page'|err]; [|apply IH; auto; lia].
    destruct (filter_emails (found_emails page') emails) as [emails' [err|]];
      apply IH; auto; lia.
Qed.

(** An invariant of the set the crawler fills. *)
Lemma crawl_loop_inv (I : gset string -> Prop) (pages : list string)
    (max_pages checked : Z) (emails : gset string) (w : World) :
  I emails ->
  (forall h u page emails', In u pages -> session_get env h u = Ok page -> I emails' ->
     I (fst (filter_emails (found_emails page) emails'))) ->
  I (fst (crawl_loop env pages max_pages checked emails w)).
Proof.
  revert checked emails w. induction pages as [|p rest IH]; intros checked emails w HI Hstep; [done|].
  cbn [crawl_loop]. destruct (checked >=? max_pages); [done|].
  assert (forall h u page emails', In u rest -> session_get env h u = Ok page -> I emails' ->
            I (fst (filter_emails (found_emails page) emails'))) as Hrest.
  { intros h u page emails' Hu. apply Hstep. by right. }
  destruct (session_get env (trace w) p) as [page|e] eqn:Hget; [|by apply IH].
  pose proof (Hstep (trace w) p page emails (or_introl eq_refl) Hget HI) as Hf.
  destruct (filter_emails (found_emails page) emails) as [emails' [e|]]; by apply IH.
Qed.

Lemma slice_to_take {A} (l : list A) (k : Z) : 0 <= k -> slice_to l k = take (Z.to_nat k) l.
Proof. intros H. unfold slice_to. destruct (k <? 0) eqn:E; [lia|done]. Qed.

Lemma sleeps_app (a b : list event) : sleeps (a ++ b) = sleeps a ++ sleeps b.
Proof. unfold sleeps. by rewrite omap_app. Qed.

Lemma prints_app (a b : list event) : prints (a ++ b) = prints a ++ prints b.
Proof. unfold prints. by rewrite omap_app. Qed.

Lemma session_gets_app (a b : list event) :
  session_gets (a ++ b) = session_gets a ++ session_gets b.
Proof. unfold session_gets. by rewrite omap_app. Qed.

Lemma crawl_events_outcomes (h : list event) (pages : list string) :
  (length (sleeps (crawl_events env h pages)) + length (prints (crawl_events env h pages))
   = length pages)%nat /\
  Forall (fun ms => ms = 1000) (sleeps (crawl_events env h pages)).
Proof.
  revert h. induction pages as [|p rest IH]; intros h; [done|].
  cbn [crawl_events]. rewrite sleeps_app, prints_app, !length_app.
  destruct (IH (h ++ attempt_events env h p)) as [Hn Hall].
  unfold attempt_events in *. destruct (attempt_outcome env h p); cbn in *.
  - split; [lia|done].
  - split; [lia|]. by constructor.
Qed.

End CrawlLoop.

Section CrawlerResults.

Variable env : Env.

Lemma extract_ok_cases (website_url : pyval) (max_pages : Z) (w : World)
    (emails : list string) :
  fst (extract_emails_from_website env website_url max_pages w) = Ok emails ->
  emails = [] \/
  exists url pages,
    website_url = VStr url /\ url <> EmptyString /\ pages_to_check env url = Ok pages /\
    emails = elements (fst (crawl_loop env (slice_to pages max_pages) max_pages 0 ∅ w)).
Proof.
  intros Hrun. destruct (truthy website_url) eqn:Ht.
  2:{ unfold extract_emails_from_website in Hrun. rewrite Ht in Hrun.
      injection Hrun as <-. by left. }
  destruct website_url as [|url| |];
    try (unfold extract_emails_from_website in Hrun; rewrite Ht in Hrun; done).
  assert (url <> EmptyString) as Hne by (by intros ->).
  destruct (pages_to_check env url) as [pages|e] eqn:Hp.
  - right. exists url, pages. rewrite (extract_run env url pages) in Hrun by done.
    injection Hrun as <-. done.
  - unfold extract_emails_from_website in Hrun. rewrite Ht in Hrun. cbn [negb] in Hrun.
    rewrite bind_lift_result, Hp in Hrun. done.
Qed.

Lemma crawl_negative (pages : list string) (max_pages : Z) (w : World) :
  max_pages < 0 -> crawl_loop env (slice_to pages max_pages) max_pages 0 ∅ w = (∅, w).
Proof. intros H. apply crawl_loop_break. lia. Qed.

(** X1.  Every address the crawler returns is in lower case and is returned
    once, also up to case; what follows its first [@], up to the next
    one if there is one, is what the filter compares, and it is not an
    excluded domain. *)
Theorem crawler_result_lowercase_distinct (website_url : pyval) (max_pages : Z)
    (w : World) (emails : list string) :
  fst (extract_emails_from_website env website_url max_pages w) = Ok emails ->
  NoDup emails /\
  (forall e, e ∈ emails -> lower e = e) /\
  (forall a b, a ∈ emails -> b ∈ emails -> lower a = lower b -> a = b) /\
  (forall e, e ∈ emails ->
     exists seg, split "@" e !! 1%nat = Some seg /\ seg ∉ excluded_domains).
Proof.
  intros Hrun.
  assert (NoDup emails /\ forall e, e ∈ emails -> accepted e) as [Hnd Hacc].
  { destruct (extract_ok_cases _ _ _ _ Hrun) as [->|(url & pages & -> & Hne & Hp & ->)].
    - split; [constructor|]. intros e He. by apply elem_of_nil in He.
    - split; [apply NoDup_elements|]. intros e He. apply elem_of_elements in He.
      revert e He. apply crawl_loop_accepted. intros e He. by apply not_elem_of_empty in He. }
  split; [done|]. split; [intros e He; by apply Hacc|]. split.
  - intros a b Ha Hb Hab. apply Hacc in Ha as [Ha _]. apply Hacc in Hb as [Hb _]. congruence.
  - intros e He. by apply Hacc.
Qed.

(** X2.  Every address the crawler returns is the lower case of a candidate
    found on a page that was fetched, one of the first [max_pages]
    candidates of the site. *)
Theorem crawler_result_provenance (website_url : pyval) (max_pages : Z)
    (w : World) (emails : list string) (e : string) :
  fst (extract_emails_from_website env website_url max_pages w) = Ok emails ->
  e ∈ emails ->
  exists url pages u h page c,
    website_url = VStr url /\ pages_to_check env url = Ok pages /\
    In u (take (Z.to_nat max_pages) pages) /\ session_get env h u = Ok page /\
    In c (found_emails page) /\ e = lower c.
Proof.
  intros Hrun He.
  destruct (extract_ok_cases _ _ _ _ Hrun) as [->|(url & pages & -> & Hne & Hp & ->)].
  { by apply elem_of_nil in He. }
  apply elem_of_elements in He.
  destruct (Z.ltb_spec max_pages 0) as [Hneg|Hpos].
  { rewrite crawl_negative in He by done. by apply not_elem_of_empty in He. }
  rewrite slice_to_take in He by done.
  exists url, pages.
  revert e He.
  apply (crawl_loop_inv env (fun emails => forall e, e ∈ emails ->
           exists u h page c, VStr url = VStr url /\ pages_to_check env url = Ok pages /\
             In u (take (Z.to_nat max_pages) pages) /\ session_get env h u = Ok page /\
             In c (found_emails page) /\ e = lower c)).
  - intros e He. by apply not_elem_of_empty in He.
  - intros h u page emails' Hu Hget IH e He.
    apply filter_emails_from in He as [He|(c & Hc & ->)]; [by apply IH|].
    exists u, h, page, c. split_and!; try done. by apply list_elem_of_In.
Qed.

(** X3.  When every [mailto:] link of the pages names a single recipient, the
    domain of every address returned, what follows its only [@], is not
    an excluded one. *)
Theorem single_recipient_links_respect_exclusions (website_url : pyval) (max_pages : Z)
    (w : World) (emails : list string) (e : string) :
  (forall h u page href,
     session_get env h u = Ok page -> In href (mailto_links page) ->
     count_char "@" (mailto_address href) = 1%nat) ->
  fst (extract_emails_from_website env website_url max_pages w) = Ok emails ->
  e ∈ emails ->
  count_char "@" e = 1%nat /\ lower (domain_after_last_at e) ∉ excluded_domains.
Proof.
  intros Hlinks Hrun He.
  destruct (extract_ok_cases _ _ _ _ Hrun) as [->|(url & pages & -> & Hne & Hp & ->)].
  { by apply elem_of_nil in He. }
  apply elem_of_elements in He.
  assert (count_char "@" e = 1%nat /\ accepted e) as [H1 Hacc].
  { revert e He.
    apply (crawl_loop_inv env (fun emails => forall e, e ∈ emails ->
             count_char "@" e = 1%nat /\ accepted e)).
    - intros e He. by apply not_elem_of_empty in He.
    - intros h u page emails' Hu Hget IH e He. split.
      + apply filter_emails_from in He as [He|(c & Hc & ->)]; [by apply IH|].
        rewrite count_char_lower. apply list_elem_of_In in Hc. unfold found_emails in Hc.
        apply in_app_or in Hc as [Hc|Hc].
        * by eapply text_match_one_at.
        * apply in_map_iff in Hc as (href & <- & Hhref). by eapply Hlinks.
      + revert e He. apply filter_emails_accepted. intros e He. by apply IH. }
  split; [done|]. by apply accepted_domain.
Qed.

(** X4.  An address in the text of a page that is fetched is returned, in
    lower case, when its domain is not excluded: whatever the other pages
    do, and even if a link of the same page makes the filter fail. *)
Theorem crawler_finds_text_addresses (url : string) (pages : list string)
    (max_pages : Z) (w : World) (u : string) (page : Page) (m : string) :
  url <> EmptyString ->
  pages_to_check env url = Ok pages ->
  In u (take (Z.to_nat max_pages) pages) ->
  (forall h, session_get env h u = Ok page) ->
  In m (findall email_pattern (page_text page)) ->
  lower (domain_after_last_at m) ∉ excluded_domains ->
  exists emails w',
    extract_emails_from_website env (VStr url) max_pages w = (Ok emails, w') /\
    lower m ∈ emails.
Proof.
  intros Hne Hp Hu Hget Hm Hx.
  rewrite (extract_run env url pages) by done. do 2 eexists. split; [done|].
  apply elem_of_elements.
  destruct (Z.ltb_spec max_pages 0) as [Hneg|Hpos].
  { replace (Z.to_nat max_pages) with 0%nat in Hu by lia. done. }
  rewrite slice_to_take by done.
  apply (crawl_loop_reaches env _ _ _ _ _ u page); [rewrite length_take; lia|done|done|].
  intros emails'. by apply text_addresses_taken.
Qed.

(** X5.  A [mailto:] link whose address has no [@] makes the filter loop of
    its page raise [IndexError]: the page is logged as failed and no delay
    follows, but the addresses of the text, filtered before the links,
    are already in the set and are returned. *)
Theorem mailto_without_at_fails_page (url : string) (pages : list string)
    (max_pages : Z) (w : World) (page : Page) (href : string) :
  url <> EmptyString ->
  pages_to_check env url = Ok pages ->
  0 < max_pages ->
  session_get env (trace w) url = Ok page ->
  In href (mailto_links page) ->
  count_char "@" (mailto_address href) = 0%nat ->
  exists emails w' rest,
    extract_emails_from_website env (VStr url) max_pages w = (Ok emails, w') /\
    trace w' = trace w ++ EvSessionGet url
                 :: EvPrint ("Error scraping " +:+ url +:+ ": list index out of range")
                 :: rest /\
    (rest = [] \/ exists u rest', rest = EvSessionGet u :: rest') /\
    forall m, In m (findall email_pattern (page_text page)) ->
              lower (domain_after_last_at m) ∉ excluded_domains -> lower m ∈ emails.
Proof.
  intros Hne Hp Hmax Hget Hhref Hat.
  rewrite (extract_run env url pages) by done.
  destruct (crawl_slice_trace env pages max_pages w) as [Ht _].
  apply pages_to_check_inv in Hp as (scheme & netloc & p1 & p2 & p3 & p4 & _ & _ & _ & _ & _ & ->).
  assert (exists k, Z.to_nat max_pages = S k) as [k Hk] by (exists (Z.to_nat (max_pages - 1)); lia).
  rewrite Hk in Ht. cbn [take crawl_events] in Ht.
  assert (attempt_outcome env (trace w) url = Some (IndexError "list index out of range")) as Ho.
  { unfold attempt_outcome. rewrite Hget.
    apply (filter_emails_fails _ _ (mailto_address href)); [|by apply split_no_at].
    unfold found_emails. apply in_or_app. right. by apply in_map. }
  unfold attempt_events at 1 in Ht. rewrite Ho in Ht.
  do 3 eexists. split; [done|]. split; [exact Ht|]. split; [apply crawl_events_head|].
  intros m Hm Hx. apply elem_of_elements.
  rewrite slice_to_take by lia. rewrite Hk. cbn [take].
  eapply crawl_loop_first; [lia|exact Hget|]. by apply text_addresses_taken.
Qed.

(** X6.  Failures neither stop nor shorten a crawl: the first [max_pages]
    candidates are all requested, each request is followed by one delay
    or by one logged error, and no dictionary changes. *)
Theorem crawler_requests_every_candidate (url : string) (pages : list string)
    (max_pages : Z) (w : World) :
  url <> EmptyString ->
  pages_to_check env url = Ok pages ->
  exists emails w' tr,
    extract_emails_from_website env (VStr url) max_pages w = (Ok emails, w') /\
    heap w' = heap w /\ trace w' = trace w ++ tr /\
    session_gets tr = take (Z.to_nat max_pages) pages /\
    Z.of_nat (length (session_gets tr)) = Z.min (Z.max 0 max_pages) 5 /\
    (length (sleeps tr) + length (prints tr) = length (session_gets tr))%nat.
Proof.
  intros Hne Hp. rewrite (extract_run env url pages) by done.
  destruct (crawl_slice_trace env pages max_pages w) as [Ht Hh].
  do 3 eexists. split; [done|]. split; [exact Hh|]. split; [exact Ht|].
  rewrite session_gets_crawl_events. split; [done|]. split.
  - apply pages_to_check_inv in Hp as (? & ? & ? & ? & ? & ? & _ & _ & _ & _ & _ & ->).
    rewrite length_take. cbn [length]. lia.
  - apply crawl_events_outcomes.
Qed.

(** X7.  A website URL that [urlparse] rejects: the exception is raised before
    the loop over the pages, where nothing catches it.  It leaves the
    crawler with no request made, and it leaves the loop over the
    businesses at that business: its [emails] are not assigned, and the
    businesses after it are not processed. *)
Theorem malformed_url_escapes_crawler (url : string) (e : exn) :
  url <> EmptyString ->
  urlparse env url = Raise e ->
  (forall max_pages w,
     extract_emails_from_website env (VStr url) max_pages w = (Raise e, w)) /\
  (forall b r rest all w,
     heap w !! b = Some (business_dict r) -> r_website r = Some url ->
     process_businesses env (b :: rest) all w
     = (Raise e, emit (EvPrint ("Processing: " +:+ default EmptyString (r_name r))) w)).
Proof.
  intros Hne Hparse.
  assert (forall max_pages w,
            extract_emails_from_website env (VStr url) max_pages w = (Raise e, w)) as Hx.
  { intros max_pages w. unfold extract_emails_from_website. cbn [truthy].
    destruct (String.eqb_spec url EmptyString) as [|_]; [done|]. cbn [negb].
    rewrite bind_lift_result. unfold pages_to_check. by rewrite Hparse. }
  split; [exact Hx|].
  intros b r rest all w Hb Hweb. cbn [process_businesses]. unfold process_business.
  assert (business_dict r !! "website" = Some (VStr url)) as Hw.
  { rewrite business_dict_website, Hweb. done. }
  erewrite bind_run_raise; [done|].
  erewrite bind_run by (eapply run_getitem; [exact Hb|apply business_dict_name]).
  erewrite bind_run by reflexivity.
  set (w1 := emit (EvPrint _) w).
  assert (heap w1 !! b = Some (business_dict r)) as Hb1 by exact Hb.
  erewrite bind_run by (eapply run_getitem; [exact Hb1|exact Hw]).
  cbn [truthy]. destruct (String.eqb_spec url EmptyString) as [|_]; [done|]. cbn [negb].
  erewrite bind_run by (eapply run_getitem; [exact Hb1|exact Hw]).
  erewrite bind_run_raise by apply Hx. done.
Qed.

End CrawlerResults.

(* --------------------------------------------------------------------- *)
(** ** The pattern: the form of a match *)
(* --------------------------------------------------------------------- *)

Lemma append_empty_r (s : string) : s +:+ EmptyString = s.
Proof.
  induction s as [|c s IH]; [done|].
  change (String c (s +:+ EmptyString) = String c s). by rewrite IH.
Qed.

Lemma substring_append_length (a b : string) : substring 0 (String.length a) (a +:+ b) = a.
Proof.
  induction a as [|x a IH]; [by destruct b|].
  change (String x (substring 0 (String.length a) (a +:+ b)) = String x a). by rewrite IH.
Qed.

Lemma greedy_pieces (p : ascii -> bool) (k : option ascii -> string -> option nat)
    (R : string -> Prop) :
  (forall prev s n, k prev s = Some n ->
     exists m rest, s = m +:+ rest /\ n = String.length m /\ R m) ->
  forall s min prev n,
    greedy p min k prev s = Some n ->
    exists seg m rest,
      s = (seg +:+ m) +:+ rest /\ n = String.length (seg +:+ m) /\
      (min <= String.length seg)%nat /\ all_in p seg = true /\ R m.
Proof.
  intros Hk. induction s as [|c s IH]; intros min prev n H; cbn [greedy] in H.
  - destruct (Nat.eqb_spec min 0) as [->|]; [|done].
    apply Hk in H as (m & rest & -> & -> & HR). by exists EmptyString, m, rest.
  - assert (forall n, (if (min =? 0)%nat then k prev (String c s) else None) = Some n ->
              exists seg m rest,
                String c s = (seg +:+ m) +:+ rest /\ n = String.length (seg +:+ m) /\
                (min <= String.length seg)%nat /\ all_in p seg = true /\ R m) as Hstop.
    { intros n' H'. destruct (Nat.eqb_spec min 0) as [->|]; [|done].
      apply Hk in H' as (m & rest & -> & -> & HR). by exists EmptyString, m, rest. }
    destruct (p c) eqn:Hc; [|by apply Hstop].
    destruct (greedy p (Nat.pred min) k (Some c) s) as [n'|] eqn:Hg; [|by apply Hstop].
    injection H as <-. apply IH in Hg as (seg & m & rest & -> & -> & Hmin & Hall & HR).
    exists (String c seg), m, rest. cbn [String.append String.length].
    split; [done|]. split; [done|]. split; [lia|]. split; [|done].
    unfold all_in in *. cbn. by rewrite Hc.
Qed.

Lemma match_items_pieces (items : list re_item) (prev : option ascii) (s : string) (n : nat) :
  match_items items prev s = Some n ->
  exists m rest, s = m +:+ rest /\ n = String.length m /\ pieces items m.
Proof.
  revert prev s n. induction items as [|item items IH]; intros prev s n H.
  - injection H as <-. by exists EmptyString, s.
  - destruct item as [p min|c|]; cbn [match_items pieces] in *.
    + apply (greedy_pieces p (match_items items) (pieces items)) in H
        as (seg & m & rest & -> & -> & Hmin & Hall & Hm); [|exact IH].
      exists (seg +:+ m), rest. split; [done|]. split; [done|]. by exists seg, m.
    + destruct s as [|c' s]; [done|].
      destruct (Ascii.eqb_spec c c') as [<-|]; [|done].
      destruct (match_items items (Some c) s) as [n'|] eqn:Hm; [|done].
      injection H as <-. apply IH in Hm as (m & rest & -> & -> & Hp).
      exists (String c m), rest. split; [done|]. split; [done|]. by exists m.
    + destruct (at_boundary prev s); [by apply IH in H|done].
Qed.

Lemma findall_from_pieces (items : list re_item) (skip : nat) (prev : option ascii)
    (s m : string) :
  In m (findall_from items skip prev s) ->
  pieces items m /\ exists before after, s = before +:+ m +:+ after.
Proof.
  revert skip prev. induction s as [|c s IH]; intros skip prev H; [done|].
  assert (forall skip', In m (findall_from items skip' (Some c) s) ->
            pieces items m /\ exists before after, String c s = before +:+ m +:+ after) as Htail.
  { intros skip' H'. apply IH in H' as [Hp (before & after & ->)]. split; [done|].
    by exists (String c before), after. }
  cbn [findall_from] in H. destruct skip as [|k]; [|by apply Htail in H].
  destruct (match_items items prev (String c s)) as [[|n]|] eqn:Hm; try (by apply Htail in H).
  destruct H as [<-|H]; [|by apply Htail in H].
  apply match_items_pieces in Hm as (m' & rest & Hs & Hn & Hp).
  rewrite Hs, Hn, substring_append_length. split; [done|]. by exists EmptyString, rest.
Qed.

(** X8.  Every match of the pattern in a text is a piece of the text of the
    form [local@domain.tld]: a local part of one character at least from
    letters, digits and [._%+-], a domain of one character at least from
    letters, digits, dots and hyphens, and a last segment of two
    characters at least from letters and the bar [|], which the class
    [[A-Z|a-z]] lets in. *)
Theorem text_matches_are_addresses (text m : string) :
  In m (findall email_pattern text) ->
  (exists before after, text = before +:+ m +:+ after) /\
  exists local domain tld,
    m = local +:+ "@" +:+ domain +:+ "." +:+ tld /\
    (1 <= String.length local)%nat /\ all_in local_class local = true /\
    (1 <= String.length domain)%nat /\ all_in domain_class domain = true /\
    (2 <= String.length tld)%nat /\ all_in tld_class tld = true.
Proof.
  intros H. apply findall_from_pieces in H as [Hp Hsub]. split; [exact Hsub|].
  cbn [email_pattern pieces] in Hp.
  destruct Hp as (local & m1 & -> & Hl1 & Hl2 & m2 & -> & domain & m3 & -> & Hd1 & Hd2
                  & m4 & -> & tld & m5 & -> & Ht1 & Ht2 & ->).
  exists local, domain, tld. rewrite append_empty_r. done.
Qed.

(* --------------------------------------------------------------------- *)
(** ** The search: records, delays and failures *)
(* --------------------------------------------------------------------- *)

Lemma substring_prefix (n : nat) (s : string) :
  String.prefix (substring 0 n s) s = true /\
  String.length (substring 0 n s) = Nat.min n (String.length s).
Proof.
  revert n. induction s as [|c s IH]; intros [|n]; try done.
  cbn [substring String.prefix String.length]. destruct (IH n) as [H1 H2].
  destruct (ascii_dec c c); [|done]. split; [done|]. rewrite H2. done.
Qed.

Lemma business_dict_emails (r : PlaceResult) :
  business_dict r !! "emails" = Some (VList []).
Proof. unfold business_dict. by simplify_map_eq. Qed.

Lemma business_dict_dom (r : PlaceResult) : dom (business_dict r) = record_keys.
Proof.
  unfold business_dict, record_keys. rewrite !dom_insert_L, dom_empty_L.
  cbn [list_to_set]. set_solver.
Qed.

Lemma omap_length_le {A B} (f : A -> option B) (l : list A) :
  (length (omap f l) <= length l)%nat.
Proof.
  induction l as [|a l IH]; [done|]. cbn. destruct (f a); cbn; lia.
Qed.

Section SearchLoop.

Variable env : Env.
Variable google_api_key : option string.

Lemma get_place_details_events (place_id : string) (w : World) :
  let run := get_place_details env google_api_key place_id w in
  exists log,
    trace (snd run)
    = trace w ++ EvRequestsGet (places_base_url +:+ "/details/json")
                   (details_params google_api_key place_id) :: map EvPrint log /\
    ((fst run = None /\ heap (snd run) = heap w) \/
     exists r, from_details env google_api_key r /\ log = [] /\
               fst run = Some (length (heap w)) /\
               heap (snd run) = heap w ++ [business_dict r]).
Proof.
  unfold get_place_details.
  destruct (places_details env (trace w) _) as [msg|data] eqn:Hd.
  - exists ["Error getting place details: " +:+ msg]. cbn. rewrite <- app_assoc.
    split; [done|]. by left.
  - destruct (String.eqb_spec (details_status data) "OK") as [Hok|Hno].
    + exists []. cbn. split; [done|]. right. exists (details_result data).
      split; [|done]. by exists (trace w), place_id, data.
    + exists []. cbn. split; [done|]. by left.
Qed.

Lemma sleeps_prints (log : list string) : sleeps (map EvPrint log) = [].
Proof. by induction log. Qed.

Lemma details_lookups_prints (log : list string) : details_lookups (map EvPrint log) = [].
Proof. by induction log. Qed.

Lemma lookup_event_prints (log : list string) : Forall lookup_event (map EvPrint log).
Proof. induction log; by constructor. Qed.

Lemma search_loop_events (places : list string) (max_results : Z)
    (acc : list loc) (w : World) :
  let run := search_loop env google_api_key places max_results acc w in
  exists tr rs,
    trace (snd run) = trace w ++ tr /\
    Forall lookup_event tr /\
    sleeps tr = replicate (length (details_lookups tr)) 100 /\
    heap (snd run) = heap w ++ map business_dict rs /\
    Forall (from_details env google_api_key) rs /\
    fst run = acc ++ seq (length (heap w)) (length rs).
Proof.
  revert acc w. induction places as [|p rest IH]; intros acc w run; subst run.
  - exists [], []. cbn. by rewrite !app_nil_r.
  - cbn [search_loop]. destruct (Z.of_nat (length acc) >=? max_results).
    + exists [], []. cbn. by rewrite !app_nil_r.
    + destruct (get_place_details_events p w) as (log & Ht & Hcase).
      destruct (get_place_details env google_api_key p w) as [info w1]. cbn [fst snd] in *.
      set (acc' := match info with Some b => acc ++ [b] | None => acc end).
      destruct (IH acc' (emit (EvSleep 100) w1)) as (tr & rs & IHt & IHall & IHs & IHh & IHr & IHres).
      change (heap (emit (EvSleep 100) w1)) with (heap w1) in *.
      set (req := EvRequestsGet (places_base_url +:+ "/details/json")
                    (details_params google_api_key p)) in *.
      assert (details_lookups [req] = [p]) as Hreq by done.
      assert (exists rs',
                heap (snd (search_loop env google_api_key rest max_results acc'
                             (emit (EvSleep 100) w1))) = heap w ++ map business_dict rs' /\
                Forall (from_details env google_api_key) rs' /\
                fst (search_loop env google_api_key rest max_results acc'
                       (emit (EvSleep 100) w1)) = acc ++ seq (length (heap w)) (length rs'))
        as (rs' & Hh' & Hr' & Hres').
      { destruct Hcase as [[-> Hh]|(r & Hr & _ & -> & Hh)].
        - exists rs. subst acc'. rewrite Hh in IHh, IHres. done.
        - exists (r :: rs). subst acc'. rewrite Hh in IHh, IHres.
          rewrite <- app_assoc in IHh. split; [exact IHh|]. split; [by constructor|].
          rewrite IHres, length_app, Nat.add_1_r, <- app_assoc. done. }
      exists (req :: map EvPrint log ++ [EvSleep 100] ++ tr), rs'.
      split_and!; try done.
      * rewrite IHt. cbn [trace emit]. rewrite Ht. by rewrite <- !app_assoc.
      * constructor; [done|]. apply Forall_app. split; [apply lookup_event_prints|].
        by constructor.
      * change (req :: map EvPrint log ++ [EvSleep 100] ++ tr)
          with ([req] ++ map EvPrint log ++ [EvSleep 100] ++ tr).
        rewrite !sleeps_app, !details_lookups_app, sleeps_prints, details_lookups_prints, Hreq, IHs.
        done.
Qed.

(** The events of one search: the text search, then the lookups. *)
Lemma search_businesses_events (query location : string) (radius max_results : Z)
    (w : World) :
  let run := search_businesses env google_api_key query location radius max_results w in
  exists tr,
    trace (snd run)
    = trace w ++ EvRequestsGet (places_base_url +:+ "/textsearch/json")
                   (search_params google_api_key query location radius) :: tr /\
    Forall lookup_event tr /\
    sleeps tr = replicate (length (details_lookups tr)) 100.
Proof.
  intros run. subst run. unfold search_businesses.
  destruct (places_textsearch env (trace w) _) as [msg|data].
  { eexists [_]. cbn. rewrite <- app_assoc. split; [done|]. split; [|done].
    by repeat constructor. }
  destruct (negb (String.eqb (search_status data) "OK")).
  { destruct (search_error_message data).
    - eexists [_; _; _]. cbn. rewrite <- !app_assoc. split; [done|]. split; [|done].
      by repeat constructor.
    - eexists [_; _]. cbn. rewrite <- !app_assoc. split; [done|]. split; [|done].
      by repeat constructor. }
  destruct (search_loop_events (default [] (search_results data))
              max_results []
              (emit (EvRequestsGet (places_base_url +:+ "/textsearch/json")
                       (search_params google_api_key query location radius)) w))
    as (tr & rs & Ht & Hall & Hs & _).
  exists tr. split; [|done]. rewrite Ht. cbn [trace emit]. by rewrite <- app_assoc.
Qed.

End SearchLoop.

Section SearchResults.

Variable env : Env.
Variable google_api_key : option string.

(** X9.  The records a search returns are new dictionaries, one after the
    other at the end of the heap, each made of the result of a details
    lookup answered [OK]; the dictionaries that existed are unchanged.
    Such a record has the six keys, the fields of the answer, the empty
    string for a field the answer lacks, the types joined by a comma and a
    space, and no e-mail yet. *)
Theorem search_records_are_new (query location : string) (radius max_results : Z)
    (w : World) :
  let run := search_businesses env google_api_key query location radius max_results w in
  (exists rs,
     heap (snd run) = heap w ++ map business_dict rs /\
     fst run = seq (length (heap w)) (length rs) /\
     Forall (from_details env google_api_key) rs) /\
  (forall l, (l < length (heap w))%nat -> heap (snd run) !! l = heap w !! l) /\
  (forall r,
     dom (business_dict r) = record_keys /\
     business_dict r !! "name" = Some (VStr (default EmptyString (r_name r))) /\
     business_dict r !! "address" = Some (VStr (default EmptyString (r_formatted_address r))) /\
     business_dict r !! "phone"
     = Some (VStr (default EmptyString (r_formatted_phone_number r))) /\
     business_dict r !! "website" = Some (VStr (default EmptyString (r_website r))) /\
     business_dict r !! "business_types" = Some (VStr (join ", " (default [] (r_types r)))) /\
     business_dict r !! "emails" = Some (VList [])).
Proof.
  intros run.
  assert (exists rs,
            heap (snd run) = heap w ++ map business_dict rs /\
            fst run = seq (length (heap w)) (length rs) /\
            Forall (from_details env google_api_key) rs) as Hrs.
  { subst run. unfold search_businesses.
    destruct (places_textsearch env (trace w) _) as [msg|data].
    { exists []. cbn. by rewrite app_nil_r. }
    destruct (negb (String.eqb (search_status data) "OK")).
    { exists []. destruct (search_error_message data); cbn; by rewrite app_nil_r. }
    destruct (search_loop_events env google_api_key (default [] (search_results data))
                max_results []
                (emit (EvRequestsGet (places_base_url +:+ "/textsearch/json")
                         (search_params google_api_key query location radius)) w))
      as (tr & rs & _ & _ & _ & Hh & Hr & Hres).
    exists rs. done. }
  split; [exact Hrs|]. split.
  - destruct Hrs as (rs & Hh & _). intros l Hl. rewrite Hh. by apply lookup_app_l.
  - intros r. split; [apply business_dict_dom|].
    unfold business_dict. split_and!; by simplify_map_eq.
Qed.

(** X10.  A search makes one text search, its first event, and never asks for
    a further page of results.  After it come only details lookups, log
    lines and delays of a tenth of a second: one delay for every lookup,
    those that fail included.  It returns no more records than it made
    lookups. *)
Theorem search_one_delay_per_lookup (query location : string) (radius max_results : Z)
    (w : World) :
  let run := search_businesses env google_api_key query location radius max_results w in
  exists tr,
    trace (snd run)
    = trace w ++ EvRequestsGet (places_base_url +:+ "/textsearch/json")
                   (search_params google_api_key query location radius) :: tr /\
    Forall lookup_event tr /\
    sleeps tr = replicate (length (details_lookups tr)) 100 /\
    (length (fst run) <= length (details_lookups tr))%nat.
Proof.
  intros run.
  destruct (search_businesses_events env google_api_key query location radius max_results w)
    as (tr & Ht & Hall & Hs).
  destruct (search_businesses_spec env google_api_key query location radius max_results w)
    as (tr0 & outcomes & _ & Ht0 & Hl0 & _ & Hr0 & _).
  fold run in Ht, Ht0, Hr0.
  exists tr. split; [done|]. split; [done|]. split; [done|].
  rewrite Ht in Ht0. apply app_inv_head in Ht0. subst tr0.
  change (details_lookups tr = map fst outcomes) in Hl0.
  rewrite Hr0, Hl0, length_map. apply omap_length_le.
Qed.

(** X11.  A search that fails returns no record, looks no place up and leaves
    the heap as it is.  When the request fails it logs the failure.  When
    the API answers with a status other than [OK] it logs the status, the
    error message if there is one, and a line about the key: that line
    shows the first ten characters of the key at most. *)
Theorem search_failures_logged (query location : string) (radius max_results : Z)
    (w : World) :
  let params := search_params google_api_key query location radius in
  let request := EvRequestsGet (places_base_url +:+ "/textsearch/json") params in
  let run := search_businesses env google_api_key query location radius max_results w in
  (forall msg,
     places_textsearch env (trace w) params = inl msg ->
     fst run = [] /\ heap (snd run) = heap w /\
     trace (snd run)
     = trace w ++ [request; EvPrint ("Error searching businesses: " +:+ msg)]) /\
  (forall data,
     places_textsearch env (trace w) params = inr data ->
     search_status data <> "OK" ->
     fst run = [] /\ heap (snd run) = heap w /\
     exists shown,
       trace (snd run)
       = trace w ++ [request; EvPrint ("API Error: " +:+ search_status data)]
           ++ match search_error_message data with
              | Some m => [EvPrint ("Error details: " +:+ m)]
              | None => []
              end
           ++ [EvPrint shown] /\
       ((google_api_key = None \/ google_api_key = Some EmptyString) ->
        shown = "No API key provided") /\
       (forall k, google_api_key = Some k -> k <> EmptyString ->
          exists p, shown = "API Key being used: " +:+ p +:+ "..." /\
                    String.prefix p k = true /\
                    String.length p = Nat.min 10 (String.length k))).
Proof.
  intros params request run. subst params request run. split.
  - intros msg Hm. unfold search_businesses. rewrite Hm. cbn. by rewrite <- app_assoc.
  - intros data Hd Hno. unfold search_businesses. rewrite Hd.
    destruct (String.eqb_spec (search_status data) "OK") as [|_]; [done|]. cbn [negb].
    split; [done|]. split; [by destruct (search_error_message data)|].
    exists (api_key_line google_api_key). split.
    { destruct (search_error_message data); cbn; by rewrite <- !app_assoc. }
    unfold api_key_line. split.
    + by intros [->| ->].
    + intros k -> Hk. destruct (String.eqb_spec k EmptyString) as [|_]; [done|].
      exists (substring 0 10 k). split; [done|]. apply substring_prefix.
Qed.

End SearchResults.

(* --------------------------------------------------------------------- *)
(** ** The coordinator: events, delays and batches *)
(* --------------------------------------------------------------------- *)

Section Emits.

Variable Q : event -> Prop.

Lemma emits_ret {A} (a : A) : emits_only Q (ret a).
Proof. intros w. exists []. by rewrite app_nil_r. Qed.

Lemma emits_lift_result {A} (r : result A) : emits_only Q (lift_result r).
Proof. intros w. exists []. by rewrite app_nil_r. Qed.

Lemma emits_bind {A B} (m : M A) (f : A -> M B) :
  emits_only Q m -> (forall a, emits_only Q (f a)) -> emits_only Q (bind m f).
Proof.
  intros Hm Hf w. destruct (Hm w) as (tr1 & Ht1 & H1). unfold bind.
  destruct (m w) as [[a|e] w1]; cbn [snd] in *; [|by exists tr1].
  destruct (Hf a w1) as (tr2 & Ht2 & H2). exists (tr1 ++ tr2).
  split; [by rewrite Ht2, Ht1, app_assoc|by apply Forall_app].
Qed.

Lemma emits_event {A} (e : event) (a : A) :
  Q e -> emits_only Q (fun w => (Ok a, emit e w)).
Proof. intros H w. exists [e]. split; [done|by constructor]. Qed.

Lemma emits_getitem (l : loc) (key : string) : emits_only Q (getitem l key).
Proof.
  intros w. exists []. rewrite app_nil_r. unfold getitem.
  by destruct (default ∅ (heap w !! l) !! key).
Qed.

Lemma emits_setitem (l : loc) (key : string) (v : pyval) :
  Q (EvSetItem l key v) -> emits_only Q (setitem l key v).
Proof. intros H w. exists [EvSetItem l key v]. split; [done|by constructor]. Qed.

Lemma emits_dict_copy (l : loc) : emits_only Q (dict_copy l).
Proof. intros w. exists []. by rewrite app_nil_r. Qed.

Lemma emits_writerow (l : loc) :
  (forall cells, Q (EvWriteRow cells)) -> emits_only Q (writerow l).
Proof.
  intros H w. unfold writerow. destruct (bool_decide _).
  - eexists [_]. split; [done|]. by constructor.
  - exists []. by rewrite app_nil_r.
Qed.

End Emits.

Lemma emits_weaken {A} (Q R : event -> Prop) (m : M A) :
  (forall e, Q e -> R e) -> emits_only Q m -> emits_only R m.
Proof.
  intros H Hm w. destruct (Hm w) as (tr & Ht & Hall). exists tr. split; [done|].
  eapply Forall_impl; [exact Hall|exact H].
Qed.

Section ProgramEvents.

Variable env : Env.
Variable google_api_key : option string.

Lemma crawl_events_fetch (h : list event) (pages : list string) :
  Forall fetch_event (crawl_events env h pages).
Proof.
  revert h. induction pages as [|p rest IH]; intros h; [constructor|].
  cbn [crawl_events]. apply Forall_app. split; [|apply IH].
  unfold attempt_events.
  destruct (attempt_outcome env h p); (constructor; [done|]); (constructor; [|done]);
    cbn; auto.
Qed.

Lemma emits_extract (website_url : pyval) (max_pages : Z) :
  emits_only fetch_event (extract_emails_from_website env website_url max_pages).
Proof.
  intros w. destruct (extract_trace env website_url max_pages w) as (pages & Ht & _).
  eexists. split; [exact Ht|apply crawl_events_fetch].
Qed.

Lemma lookup_event_fetch (e : event) : lookup_event e -> fetch_event e.
Proof. destruct e; cbn; auto. Qed.

Lemma emits_search (query location : string) (radius max_results : Z) :
  emits_only fetch_event
    (total (search_businesses env google_api_key query location radius max_results)).
Proof.
  intros w.
  destruct (search_businesses_events env google_api_key query location radius max_results w)
    as (tr & Ht & Hall & _).
  unfold total. destruct (search_businesses _ _ _ _ _ _ w) as [bs w1]. cbn [snd] in *.
  eexists. split; [exact Ht|]. constructor; [done|].
  eapply Forall_impl; [exact Hall|apply lookup_event_fetch].
Qed.

End ProgramEvents.

Lemma fetch_event_business (e : event) : fetch_event e -> business_event e.
Proof.
  destruct e; cbn; try done; intros H; (split; [|done || (intros [= ->]; lia)]); cbn; tauto.
Qed.

Lemma long_delays_app (a b : list event) : long_delays (a ++ b) = long_delays a ++ long_delays b.
Proof. unfold long_delays. by rewrite sleeps_app, List.filter_app. Qed.

Lemma long_delays_business (tr : list event) : Forall business_event tr -> long_delays tr = [].
Proof.
  induction 1 as [|e tr [He Hne] _ IH]; [done|].
  change (e :: tr) with ([e] ++ tr). rewrite long_delays_app, IH, app_nil_r.
  destruct e as [| |ms| | | |]; try done.
  change (long_delays [EvSleep ms]) with (if 2000 =? ms then [ms] else []).
  destruct (Z.eqb_spec 2000 ms) as [<-|]; [by destruct Hne|done].
Qed.

Section CoordinatorEvents.

Variable env : Env.
Variable google_api_key : option string.

Lemma emits_process_business (b : loc) : emits_only business_event (process_business env b).
Proof.
  unfold process_business.
  apply emits_bind; [apply emits_getitem|]. intros name.
  apply emits_bind; [by apply (emits_event business_event (EvPrint _) tt)|]. intros _.
  apply emits_bind; [apply emits_getitem|]. intros website.
  destruct (truthy website); [|by apply (emits_event business_event (EvPrint _) tt)].
  apply emits_bind; [apply emits_getitem|]. intros website'.
  apply emits_bind.
  { eapply emits_weaken; [apply fetch_event_business|apply emits_extract]. }
  intros emails.
  apply emits_bind; [by apply emits_setitem|]. intros _.
  by apply (emits_event business_event (EvPrint _) tt).
Qed.

Lemma process_businesses_delays (bs all : list loc) (w : World) :
  let run := process_businesses env bs all w in
  exists tr,
    trace (snd run) = trace w ++ tr /\ Forall coordinator_event tr /\
    forall result, fst run = Ok result -> long_delays tr = replicate (length bs) 2000.
Proof.
  revert all w. induction bs as [|b rest IH]; intros all w run; subst run.
  - exists []. cbn. by rewrite app_nil_r.
  - cbn [process_businesses].
    destruct (emits_process_business b w) as (tr1 & Ht1 & H1).
    destruct (process_business env b w) as [[[]|e] w1] eqn:Hrun; cbn [snd] in *.
    + erewrite bind_run by exact Hrun. erewrite bind_run by reflexivity.
      destruct (IH (all ++ [b]) (emit (EvSleep 2000) w1)) as (tr2 & Ht2 & H2 & Hres).
      exists (tr1 ++ [EvSleep 2000] ++ tr2). split.
      { rewrite Ht2. cbn [trace emit]. rewrite Ht1. by rewrite <- !app_assoc. }
      split.
      { apply Forall_app. split; [eapply Forall_impl; [exact H1|by intros ? []]|].
        constructor; [cbn; auto|done]. }
      intros result Hr. rewrite !long_delays_app, (long_delays_business tr1 H1), (Hres result Hr).
      done.
    + erewrite bind_run_raise by exact Hrun. exists tr1. split; [done|].
      split; [eapply Forall_impl; [exact H1|by intros ? []]|done].
Qed.

Lemma scrape_types_delays (business_types remaining : list string) (location : string)
    (max_results : Z) (all : list loc) (w : World) :
  let run := scrape_types env google_api_key business_types remaining location
               max_results all w in
  exists tr,
    trace (snd run) = trace w ++ tr /\ Forall coordinator_event tr /\
    forall result, fst run = Ok result ->
      exists news, result = all ++ news /\ long_delays tr = replicate (length news) 2000.
Proof.
  revert all w. induction remaining as [|t rest IH]; intros all w run; subst run.
  { exists []. cbn. rewrite app_nil_r. split; [done|]. split; [done|].
    intros ? [= <-]. exists []. by rewrite app_nil_r. }
  cbn [scrape_types]. erewrite bind_run by reflexivity.
  set (line := EvPrint _). set (w0 := emit line w).
  rewrite bind_lift_result.
  destruct (py_floordiv max_results (Z.of_nat (length business_types))) as [share|e].
  2:{ exists [line]. split; [done|]. split; [by repeat constructor|done]. }
  destruct (emits_search env google_api_key t location 5000 share w0) as (trs & Hts & Hs).
  unfold total in Hts.
  destruct (search_businesses env google_api_key t location 5000 share w0)
    as [businesses w1] eqn:Hsearch. cbn [snd] in Hts.
  erewrite bind_run by (unfold total; rewrite Hsearch; reflexivity).
  destruct (process_businesses_delays businesses all w1) as (trp & Htp & Hp & Hresp).
  pose proof (process_businesses_result env businesses all) as Hall.
  destruct (process_businesses env businesses all w1) as [[all'|e] w2] eqn:Hproc;
    cbn [fst snd] in *.
  2:{ erewrite bind_run_raise by exact Hproc.
      exists ([line] ++ trs ++ trp). split.
      { cbn [snd]. rewrite Htp, Hts. subst w0. cbn [trace emit]. by rewrite <- !app_assoc. }
      split; [|done]. apply Forall_app. split; [by repeat constructor|].
      apply Forall_app. split; [|done].
      eapply Forall_impl; [exact Hs|]. intros e' He'. by apply fetch_event_business. }
  specialize (Hall all' w1). rewrite Hproc in Hall. specialize (Hall eq_refl). subst all'.
  erewrite bind_run by exact Hproc.
  destruct (IH (all ++ businesses) w2) as (tr' & Ht' & H' & Hres').
  exists ([line] ++ trs ++ trp ++ tr'). split.
  { rewrite Ht', Htp, Hts. subst w0. cbn [trace emit]. by rewrite <- !app_assoc. }
  split.
  { apply Forall_app. split; [by repeat constructor|].
    apply Forall_app. split; [|by apply Forall_app].
    eapply Forall_impl; [exact Hs|]. intros e' He'. by apply fetch_event_business. }
  intros result Hr. destruct (Hres' result Hr) as (news & -> & Hd).
  exists (businesses ++ news). split; [by rewrite <- app_assoc|].
  rewrite !long_delays_app, Hd, (Hresp _ eq_refl).
  rewrite (long_delays_business trs).
  2:{ eapply Forall_impl; [exact Hs|]. intros e' He'. by apply fetch_event_business. }
  rewrite length_app, replicate_add. done.
Qed.

(** X12.  The coordinator waits two seconds once for every record it returns.
    Apart from these delays it only makes requests, logs, waits as the
    search and the crawler do, and assigns the [emails] of records: it
    writes no file. *)
Theorem coordinator_one_long_delay_per_record (business_types : list string)
    (location : string) (max_results : Z) (w : World) (businesses : list loc) (w' : World) :
  scrape_business_contacts env google_api_key business_types location max_results w
  = (Ok businesses, w') ->
  exists tr,
    trace w' = trace w ++ tr /\
    long_delays tr = replicate (length businesses) 2000 /\
    Forall coordinator_event tr /\
    csv_rows tr = [].
Proof.
  intros Hrun.
  destruct (scrape_types_delays business_types business_types location max_results [] w)
    as (tr & Ht & Hall & Hres).
  unfold scrape_business_contacts in Hrun. rewrite Hrun in Ht, Hres. cbn [fst snd] in *.
  destruct (Hres businesses eq_refl) as (news & -> & Hd).
  exists tr. split; [done|]. split; [done|]. split; [done|].
  clear -Hall. induction Hall as [|e tr He _ IH]; [done|].
  destruct e; try done.
Qed.

(** X13.  The coordinator returns the records of the searches one batch after
    the other: a batch for every type, in the order of the types, each
    batch being what the search for that type returned. *)
Theorem coordinator_concatenates_searches (business_types : list string)
    (location : string) (max_results : Z) (w : World) (result : list loc) :
  fst (scrape_business_contacts env google_api_key business_types location
         max_results w) = Ok result ->
  exists batches,
    result = concat batches /\
    Forall2 (fun business_type batch =>
               exists w0,
                 batch = fst (search_businesses env google_api_key business_type location
                                5000 (max_results / Z.of_nat (length business_types)) w0))
      business_types batches.
Proof.
  intros Hrun. unfold scrape_business_contacts in Hrun.
  destruct (decide (business_types = [])) as [->|Hne].
  { injection Hrun as <-. by exists []. }
  rewrite scrape_types_share in Hrun by done.
  set (share := max_results / Z.of_nat (length business_types)) in *.
  assert (forall types all w result,
            fst (scrape_with_share env google_api_key share types location all w)
            = Ok result ->
            exists batches,
              result = all ++ concat batches /\
              Forall2 (fun business_type batch =>
                         exists w0,
                           batch = fst (search_businesses env google_api_key business_type
                                          location 5000 share w0))
                types batches) as Hgen.
  { clear. induction types as [|t rest IH]; intros all w result H.
    - injection H as <-. exists []. by rewrite app_nil_r.
    - cbn [scrape_with_share] in H. erewrite bind_run in H by reflexivity.
      set (w0 := emit (EvPrint _) w) in H.
      destruct (search_businesses env google_api_key t location 5000 share w0)
        as [businesses w1] eqn:Hs.
      erewrite bind_run in H by (unfold total; rewrite Hs; reflexivity).
      destruct (process_businesses env businesses all w1) as [[all'|e] w2] eqn:Hp.
      + erewrite bind_run in H by exact Hp.
        pose proof (process_businesses_result env businesses all all' w1) as Hall.
        rewrite Hp in Hall. specialize (Hall eq_refl). subst all'.
        apply IH in H as (batches & -> & Hb).
        exists (businesses :: batches). split; [cbn; by rewrite <- app_assoc|].
        constructor; [|done]. exists w0. by rewrite Hs.
      + by erewrite bind_run_raise in H by exact Hp. }
  apply Hgen in Hrun as (batches & -> & Hb). by exists batches.
Qed.

End CoordinatorEvents.

(* --------------------------------------------------------------------- *)
(** ** The requests of a scrape *)
(* --------------------------------------------------------------------- *)

Lemma text_searches_app (a b : list event) :
  text_searches (a ++ b) = text_searches a ++ text_searches b.
Proof. unfold text_searches. by rewrite omap_app. Qed.

Lemma lookup_events_requests (tr : list event) :
  Forall lookup_event tr -> text_searches tr = [] /\ session_gets tr = [].
Proof.
  induction 1 as [|e tr He _ [IH1 IH2]]; [done|].
  destruct e; try done. cbn in He. subst url. done.
Qed.

Lemma crawl_events_requests (env : Env) (h : list event) (pages : list string) :
  text_searches (crawl_events env h pages) = [] /\
  details_lookups (crawl_events env h pages) = [].
Proof.
  revert h. induction pages as [|p rest IH]; intros h; [done|].
  cbn [crawl_events]. rewrite text_searches_app, details_lookups_app.
  destruct (IH (h ++ attempt_events env h p)) as [-> ->].
  unfold attempt_events. by destruct (attempt_outcome env h p).
Qed.

Section Budget.

Variable env : Env.
Variable google_api_key : option string.

Lemma search_requests (query location : string) (radius max_results : Z) (w : World) :
  let run := search_businesses env google_api_key query location radius max_results w in
  exists tr,
    trace (snd run) = trace w ++ tr /\
    text_searches tr = [search_params google_api_key query location radius] /\
    session_gets tr = [] /\
    (length (fst run) <= length (details_lookups tr))%nat.
Proof.
  intros run.
  destruct (search_businesses_events env google_api_key query location radius max_results w)
    as (tr & Ht & Hall & _).
  destruct (search_businesses_spec env google_api_key query location radius max_results w)
    as (tr0 & outcomes & _ & Ht0 & Hl0 & _ & Hr0 & _).
  fold run in Ht, Ht0, Hr0.
  destruct (lookup_events_requests tr Hall) as [H1 H2].
  eexists. split; [exact Ht|]. split; [|split].
  - change (EvRequestsGet ?u ?p :: tr) with ([EvRequestsGet u p] ++ tr).
    rewrite text_searches_app, H1. done.
  - change (EvRequestsGet ?u ?p :: tr) with ([EvRequestsGet u p] ++ tr).
    rewrite session_gets_app, H2. done.
  - rewrite Ht in Ht0. apply app_inv_head in Ht0. rewrite <- Ht0 in Hl0.
    rewrite Hl0, length_map, Hr0. apply omap_length_le.
Qed.

Lemma process_business_requests (b : loc) (w : World) :
  exists tr,
    trace (snd (process_business env b w)) = trace w ++ tr /\
    text_searches tr = [] /\ details_lookups tr = [] /\
    (length (session_gets tr) <= 3)%nat.
Proof.
  unfold process_business. unfold bind at 1.
  destruct (getitem b "name" w) as [[name|e] w0] eqn:Hn.
  2:{ exists []. unfold getitem in Hn. destruct (default ∅ (heap w !! b) !! "name");
      injection Hn as _ <-; cbn; rewrite app_nil_r; split_and!; done || lia. }
  assert (w0 = w) as ->.
  { unfold getitem in Hn. destruct (default ∅ (heap w !! b) !! "name"); by injection Hn. }
  erewrite bind_run by reflexivity.
  set (line := EvPrint _). set (w1 := emit line w).
  unfold bind at 1.
  destruct (getitem b "website" w1) as [[website|e] w2] eqn:Hw.
  2:{ exists [line]. unfold getitem in Hw. destruct (default ∅ (heap w1 !! b) !! "website");
      injection Hw as _ <-; subst w1 line; cbn; split_and!; done || lia. }
  assert (w2 = w1) as ->.
  { unfold getitem in Hw. destruct (default ∅ (heap w1 !! b) !! "website"); by injection Hw. }
  destruct (truthy website).
  2:{ exists [line; EvPrint "  No website available"]. subst w1 line. cbn.
      rewrite <- app_assoc. split_and!; done || lia. }
  unfold bind at 1. rewrite Hw.
  destruct (extract_trace env website 3 w1) as (pages & Ht & _).
  destruct (crawl_events_requests env (trace w1) (take (Z.to_nat 3) pages)) as [Hc1 Hc2].
  pose proof (session_gets_crawl_events env (trace w1) (take (Z.to_nat 3) pages)) as Hc3.
  assert (length (take (Z.to_nat 3) pages) <= 3)%nat as Hlen by (rewrite length_take; lia).
  set (crawl := crawl_events env (trace w1) (take (Z.to_nat 3) pages)) in *.
  destruct (extract_emails_from_website env website 3 w1) as [[emails|e] w3] eqn:Hx;
    cbn [snd] in Ht.
  - erewrite bind_run by exact Hx. erewrite bind_run by reflexivity.
    exists ([line] ++ crawl ++ [EvSetItem b "emails" (VList emails);
                                EvPrint ("  Found " +:+ pretty (Z.of_nat (length emails))
                                         +:+ " email(s)")]).
    split.
    { cbn [print snd emit trace]. rewrite Ht. subst w1. cbn [trace emit].
      by rewrite <- !app_assoc. }
    rewrite !text_searches_app, !details_lookups_app, !session_gets_app, Hc1, Hc2, Hc3.
    subst line. cbn. rewrite app_nil_r. split_and!; done.
  - erewrite bind_run_raise by exact Hx.
    exists ([line] ++ crawl). split.
    { cbn [snd]. rewrite Ht. subst w1. cbn [trace emit]. by rewrite <- !app_assoc. }
    rewrite !text_searches_app, !details_lookups_app, !session_gets_app, Hc1, Hc2, Hc3.
    subst line. cbn. split_and!; done.
Qed.

Lemma process_businesses_requests (bs all : list loc) (w : World) :
  exists tr,
    trace (snd (process_businesses env bs all w)) = trace w ++ tr /\
    text_searches tr = [] /\ details_lookups tr = [] /\
    (length (session_gets tr) <= 3 * length bs)%nat.
Proof.
  revert all w. induction bs as [|b rest IH]; intros all w.
  - exists []. cbn. rewrite app_nil_r. split_and!; done || lia.
  - cbn [process_businesses].
    destruct (process_business_requests b w) as (tr1 & Ht1 & Ha1 & Hb1 & Hc1).
    destruct (process_business env b w) as [[[]|e] w1] eqn:Hrun; cbn [snd] in *.
    + erewrite bind_run by exact Hrun. erewrite bind_run by reflexivity.
      destruct (IH (all ++ [b]) (emit (EvSleep 2000) w1)) as (tr2 & Ht2 & Ha2 & Hb2 & Hc2).
      exists (tr1 ++ [EvSleep 2000] ++ tr2). split.
      { rewrite Ht2. cbn [trace emit]. rewrite Ht1. by rewrite <- !app_assoc. }
      rewrite !text_searches_app, !details_lookups_app, !session_gets_app, Ha1, Ha2, Hb1, Hb2.
      rewrite !length_app. cbn [length]. split_and!; try done. cbn. lia.
    + erewrite bind_run_raise by exact Hrun. exists tr1. cbn [length]. split_and!; try done. lia.
Qed.

Lemma scrape_types_requests (business_types remaining : list string) (location : string)
    (max_results : Z) (all : list loc) (w : World) :
  let run := scrape_types env google_api_key business_types remaining location
               max_results all w in
  exists tr,
    trace (snd run) = trace w ++ tr /\
    forall result, fst run = Ok result ->
      exists news,
        result = all ++ news /\
        text_searches tr
        = map (fun t => search_params google_api_key t location 5000) remaining /\
        (length (session_gets tr) <= 3 * length news)%nat /\
        (length news <= length (details_lookups tr))%nat.
Proof.
  revert all w. induction remaining as [|t rest IH]; intros all w run; subst run.
  { exists []. cbn. rewrite app_nil_r. split; [done|].
    intros ? [= <-]. exists []. rewrite app_nil_r. split_and!; done || lia. }
  cbn [scrape_types]. erewrite bind_run by reflexivity.
  set (line := EvPrint _). set (w0 := emit line w).
  rewrite bind_lift_result.
  destruct (py_floordiv max_results (Z.of_nat (length business_types))) as [share|e].
  2:{ exists [line]. split; [done|]. done. }
  destruct (search_requests t location 5000 share w0) as (trs & Hts & Hs1 & Hs2 & Hs3).
  destruct (search_businesses env google_api_key t location 5000 share w0)
    as [businesses w1] eqn:Hsearch. cbn [fst snd] in *.
  erewrite bind_run by (unfold total; rewrite Hsearch; reflexivity).
  destruct (process_businesses_requests businesses all w1) as (trp & Htp & Hp1 & Hp2 & Hp3).
  pose proof (process_businesses_result env businesses all) as Hall.
  destruct (process_businesses env businesses all w1) as [[all'|e] w2] eqn:Hproc;
    cbn [fst snd] in *.
  2:{ erewrite bind_run_raise by exact Hproc. exists ([line] ++ trs ++ trp). split; [|done].
      cbn [snd]. rewrite Htp, Hts. subst w0. cbn [trace emit]. by rewrite <- !app_assoc. }
  specialize (Hall all' w1). rewrite Hproc in Hall. specialize (Hall eq_refl). subst all'.
  erewrite bind_run by exact Hproc.
  destruct (IH (all ++ businesses) w2) as (tr' & Ht' & Hres').
  exists ([line] ++ trs ++ trp ++ tr'). split.
  { rewrite Ht', Htp, Hts. subst w0. cbn [trace emit]. by rewrite <- !app_assoc. }
  intros result Hr. destruct (Hres' result Hr) as (news & -> & H1 & H2 & H3).
  exists (businesses ++ news). split; [by rewrite <- app_assoc|].
  assert (text_searches [line] = [] /\ session_gets [line] = [] /\ details_lookups [line] = [])
    as (L1 & L2 & L3) by done.
  rewrite !text_searches_app, !details_lookups_app, !session_gets_app.
  rewrite L1, L2, L3, Hs1, Hs2, Hp1, Hp2, H1. rewrite !length_app. cbn [length app map].
  split_and!; [done|lia|lia].
Qed.

(** X14.  The requests of a scrape.  There is one text search for every type,
    in the order of the types, for the type [in] the location with the
    radius 5000.  The crawls request three pages for every record at
    most.  There are as many details lookups as records at least. *)
Theorem coordinator_request_budget (business_types : list string) (location : string)
    (max_results : Z) (w : World) (businesses : list loc) (w' : World) :
  scrape_business_contacts env google_api_key business_types location max_results w
  = (Ok businesses, w') ->
  exists tr,
    trace w' = trace w ++ tr /\
    text_searches tr
    = map (fun t => search_params google_api_key t location 5000) business_types /\
    (length (session_gets tr) <= 3 * length businesses)%nat /\
    (length businesses <= length (details_lookups tr))%nat.
Proof.
  intros Hrun.
  destruct (scrape_types_requests business_types business_types location max_results [] w)
    as (tr & Ht & Hres).
  unfold scrape_business_contacts in Hrun. rewrite Hrun in Ht, Hres. cbn [fst snd] in *.
  destruct (Hres businesses eq_refl) as (news & -> & H1 & H2 & H3).
  by exists tr.
Qed.

End Budget.

(* --------------------------------------------------------------------- *)
(** ** A cap below the number of types *)
(* --------------------------------------------------------------------- *)

Section SmallCap.

Variable env : Env.
Variable google_api_key : option string.

(** A search for no record at all still makes its text search, and
    nothing else. *)
Lemma search_nothing (query location : string) (radius max_results : Z) (w : World) :
  max_results <= 0 ->
  let run := search_businesses env google_api_key query location radius max_results w in
  fst run = [] /\ heap (snd run) = heap w /\
  exists tr,
    trace (snd run) = trace w ++ tr /\
    text_searches tr = [search_params google_api_key query location radius] /\
    details_lookups tr = [] /\ session_gets tr = [].
Proof.
  intros Hle run.
  destruct (search_requests env google_api_key query location radius max_results w)
    as (tr & Ht & H1 & H2 & _).
  destruct (search_businesses_spec env google_api_key query location radius max_results w)
    as (tr0 & outcomes & rs & Ht0 & Hl0 & _ & Hr0 & Hj & _ & _ & Hh & Hseq).
  fold run in Ht, Ht0, Hr0, Hh, Hseq.
  assert (outcomes = []) as ->.
  { destruct outcomes as [|o outcomes]; [done|]. specialize (Hj 0%nat). cbn in Hj. lia. }
  cbn in Hr0, Hl0.
  rewrite Ht in Ht0. apply app_inv_head in Ht0. subst tr0.
  rewrite Hr0 in Hseq. destruct rs; [|done]. cbn in Hh. rewrite app_nil_r in Hh.
  split; [done|]. split; [done|]. by exists tr.
Qed.

Lemma scrape_with_share_nothing (share : Z) (business_types : list string)
    (location : string) (all : list loc) (w : World) :
  share <= 0 ->
  exists w' tr,
    scrape_with_share env google_api_key share business_types location all w = (Ok all, w') /\
    heap w' = heap w /\ trace w' = trace w ++ tr /\
    text_searches tr
    = map (fun t => search_params google_api_key t location 5000) business_types /\
    details_lookups tr = [] /\ session_gets tr = [] /\ sleeps tr = [].
Proof.
  intros Hle. revert w. induction business_types as [|t rest IH]; intros w.
  - exists w, []. rewrite app_nil_r. done.
  - cbn [scrape_with_share]. erewrite bind_run by reflexivity.
    set (line := EvPrint _). set (w0 := emit line w).
    destruct (search_nothing t location 5000 share w0 Hle) as (Hr & Hh & trs & Hts & H1 & H2 & H3).
    destruct (search_businesses_events env google_api_key t location 5000 share w0)
      as (trl & Htl & _ & Hsl).
    destruct (search_businesses env google_api_key t location 5000 share w0)
      as [businesses w1] eqn:Hs. cbn [fst snd] in *. subst businesses.
    erewrite bind_run by (unfold total; rewrite Hs; reflexivity).
    cbn [process_businesses]. erewrite bind_run by reflexivity.
    destruct (IH w1) as (w' & tr & Hrun & Hh' & Ht & H1' & H2' & H3' & H4').
    exists w', ([line] ++ trs ++ tr). split; [exact Hrun|]. split; [by rewrite Hh', Hh|].
    split. { rewrite Ht, Hts. subst w0. cbn [trace emit]. by rewrite <- !app_assoc. }
    assert (sleeps trs = []) as Hsl'.
    { rewrite Htl in Hts. apply app_inv_head in Hts. subst trs.
      change (details_lookups (EvRequestsGet ?u ?p :: trl)) with (details_lookups trl) in H2.
      change (sleeps (EvRequestsGet ?u ?p :: trl)) with (sleeps trl).
      by rewrite Hsl, H2. }
    assert (text_searches [line] = [] /\ session_gets [line] = [] /\ details_lookups [line] = []
            /\ sleeps [line] = []) as (L1 & L2 & L3 & L4) by done.
    rewrite !text_searches_app, !details_lookups_app, !session_gets_app, !sleeps_app.
    rewrite L1, L2, L3, L4, H1, H2, H3, H1', H2', H3', H4', Hsl'. done.
Qed.

(** X15.  With fewer results asked for than there are types the share of
    every type is zero (or less): the coordinator still makes the text
    search of every type, but it looks no place up, crawls nothing, waits
    for nothing and returns no record. *)
Theorem small_cap_scrapes_nothing (business_types : list string) (location : string)
    (max_results : Z) (w : World) :
  max_results < Z.of_nat (length business_types) ->
  exists w' tr,
    scrape_business_contacts env google_api_key business_types location max_results w
    = (Ok [], w') /\
    heap w' = heap w /\ trace w' = trace w ++ tr /\
    text_searches tr
    = map (fun t => search_params google_api_key t location 5000) business_types /\
    details_lookups tr = [] /\ session_gets tr = [] /\ sleeps tr = [].
Proof.
  intros Hlt. unfold scrape_business_contacts.
  destruct (decide (business_types = [])) as [->|Hne].
  { exists w, []. rewrite app_nil_r. done. }
  rewrite scrape_types_share by done.
  apply scrape_with_share_nothing.
  assert (0 < Z.of_nat (length business_types)) as Hpos
    by (destruct business_types; [done|cbn; lia]).
  assert (max_results / Z.of_nat (length business_types) < 1); [|lia].
  apply Z.div_lt_upper_bound; lia.
Qed.

End SmallCap.

(* --------------------------------------------------------------------- *)
(** ** The CSV file: one row for every record *)
(* --------------------------------------------------------------------- *)

Lemma csv_rows_app (a b : list event) : csv_rows (a ++ b) = csv_rows a ++ csv_rows b.
Proof. unfold csv_rows. by rewrite omap_app. Qed.

(** *** The cells that hold a list *)

(** A string of printable characters other than the apostrophe and the
    backslash stands between apostrophes as it is. *)
Lemma repr_chars_plain (s : string) :
  (forall c, In c (list_ascii_of_string s) ->
     isprintable c = true /\ c <> apostrophe /\ c <> backslash) ->
  occurs apostrophe s = false /\ repr_chars apostrophe s = s.
Proof.
  induction s as [|c s IH]; intros H; [done|].
  destruct (H c) as (Hp & Hq & Hb); [by left|].
  destruct IH as [IH1 IH2]; [intros c' Hc'; apply H; by right|].
  cbn [occurs repr_chars]. rewrite IH1, IH2. unfold repr_char.
  apply Ascii.eqb_neq in Hq, Hb. rewrite Hq, Hb. cbn [orb].
  split; [done|].
  assert (Ascii.eqb c (ascii_of_nat 9) = false /\ Ascii.eqb c (ascii_of_nat 10) = false
          /\ Ascii.eqb c (ascii_of_nat 13) = false) as (-> & -> & ->).
  { split_and!; apply Ascii.eqb_neq; intros ->; done. }
  by rewrite Hp.
Qed.

Lemma py_repr_plain (s : string) :
  (forall c, In c (list_ascii_of_string s) ->
     isprintable c = true /\ c <> apostrophe /\ c <> backslash) ->
  py_repr s = String apostrophe (s +:+ String apostrophe EmptyString).
Proof.
  intros H. destruct (repr_chars_plain s H) as [Ho Hr].
  unfold py_repr. rewrite Ho. cbn [andb]. by rewrite Hr.
Qed.

(** A cell that holds a list shows the [repr] of its elements: a string
    with an apostrophe stands between double quotes. *)
Lemma csv_cell_of_list :
  csv_cell (Some (VList ["it's"; "Law"]))
  = "[" +:+ String double_quote ("it's" +:+ String double_quote ", 'Law']").
Proof. reflexivity. Qed.

Lemma row_dict_cells (d : gmap string pyval) :
  map (fun f => csv_cell (row_dict d !! f)) fieldnames = csv_row d.
Proof.
  unfold row_dict, csv_row, fieldnames. cbn [map].
  repeat (f_equal; [by simplify_map_eq|]). f_equal; by simplify_map_eq.
Qed.

Lemma row_dict_dom (d : gmap string pyval) :
  dom d ⊆ list_to_set fieldnames -> dom (row_dict d) ⊆ list_to_set fieldnames.
Proof.
  intros H x Hx. unfold row_dict in Hx. rewrite !dom_insert in Hx.
  apply elem_of_union in Hx as [Hx|Hx]; [|apply elem_of_union in Hx as [Hx|Hx]]; [| |by apply H];
    apply elem_of_singleton in Hx as ->; apply elem_of_list_to_set, list_elem_of_In;
    cbn; tauto.
Qed.

Lemma run_setitem (l : loc) (key : string) (v : pyval) (w : World) (d : gmap string pyval) :
  heap w !! l = Some d ->
  setitem l key v w
  = (Ok tt, mkWorld (<[l := <[key := v]> d]> (heap w)) (trace w ++ [EvSetItem l key v])).
Proof. intros H. unfold setitem. by rewrite H. Qed.

Lemma run_getitem_missing (l : loc) (key : string) (w : World) (d : gmap string pyval) :
  heap w !! l = Some d -> d !! key = None -> getitem l key w = (Raise (KeyError key), w).
Proof. intros Hl Hk. unfold getitem. rewrite Hl. simpl. by rewrite Hk. Qed.

Lemma run_dict_copy (l : loc) (w : World) (d : gmap string pyval) :
  heap w !! l = Some d ->
  dict_copy l w = (Ok (length (heap w)), mkWorld (heap w ++ [d]) (trace w)).
Proof. intros H. unfold dict_copy, total, alloc. by rewrite H. Qed.

Lemma lookup_snoc_eq {A} (l : list A) (x : A) : (l ++ [x]) !! length l = Some x.
Proof. rewrite lookup_app_r by lia. by rewrite Nat.sub_diag. Qed.

Lemma insert_snoc_eq {A} (l : list A) (x y : A) : <[length l := y]> (l ++ [x]) = l ++ [y].
Proof. rewrite insert_app_r_alt by lia. by rewrite Nat.sub_diag. Qed.

(** One turn of the loop of [save_to_csv] on a record it can write. *)
Lemma write_rows_step (b : loc) (rest : list loc) (w : World) (d : gmap string pyval) :
  heap w !! b = Some d -> writable d ->
  write_rows (b :: rest) w
  = write_rows rest
      (mkWorld (heap w ++ [row_dict d])
         (trace w ++ [EvSetItem (length (heap w)) "emails" (VStr (join "; " (emails_of d)));
                      EvSetItem (length (heap w)) "email_count"
                        (VInt (Z.of_nat (length (emails_of d))));
                      EvWriteRow (csv_row d)])).
Proof.
  intros Hb [[es Hes] Hdom].
  assert (emails_of d = es) as He by (unfold emails_of; by rewrite Hes).
  assert (b < length (heap w))%nat as Hlt by (by eapply lookup_lt_Some).
  assert (forall x tr, heap (mkWorld (heap w ++ [x]) tr) !! b = Some d) as Hbx.
  { intros x tr. cbn. by rewrite lookup_app_l. }
  cbn [write_rows].
  erewrite bind_run by (apply run_dict_copy; exact Hb).
  erewrite bind_run by (eapply run_getitem; [apply Hbx|exact Hes]).
  rewrite bind_lift_result. cbn [py_join].
  erewrite bind_run by (apply run_setitem; apply lookup_snoc_eq).
  cbn [heap trace]. rewrite insert_snoc_eq.
  erewrite bind_run by (eapply run_getitem; [apply Hbx|exact Hes]).
  rewrite bind_lift_result. cbn [py_len].
  erewrite bind_run by (apply run_setitem; apply lookup_snoc_eq).
  cbn [heap trace]. rewrite insert_snoc_eq.
  rewrite <- He. fold (row_dict d).
  set (w3 := mkWorld _ _).
  assert (writerow (length (heap w)) w3 = (Ok tt, emit (EvWriteRow (csv_row d)) w3)) as Hw.
  { unfold writerow. subst w3. cbn [heap]. rewrite lookup_snoc_eq. cbn [default].
    rewrite bool_decide_eq_true_2 by (by apply row_dict_dom).
    by rewrite <- row_dict_cells. }
  erewrite bind_run by exact Hw.
  f_equal. unfold emit. subst w3. cbn [heap trace].
  by rewrite <- !app_assoc.
Qed.

Lemma write_rows_run (bs : list loc) (w : World) :
  (forall b, b ∈ bs -> exists d, heap w !! b = Some d /\ writable d) ->
  exists w' tr,
    write_rows bs w = (Ok tt, w') /\
    trace w' = trace w ++ tr /\
    (forall l, (l < length (heap w))%nat -> heap w' !! l = heap w !! l) /\
    csv_rows tr = map (fun b => csv_row (default ∅ (heap w !! b))) bs /\
    Forall report_event tr /\ prints tr = [].
Proof.
  revert w. induction bs as [|b rest IH]; intros w Hbs.
  - exists w, []. rewrite app_nil_r. done.
  - destruct (Hbs b) as (d & Hb & Hd); [by left|].
    rewrite (write_rows_step b rest w d Hb Hd).
    set (w1 := mkWorld _ _).
    assert (forall l, (l < length (heap w))%nat -> heap w1 !! l = heap w !! l) as Hold.
    { intros l Hl. subst w1. cbn [heap]. by rewrite lookup_app_l. }
    destruct (IH w1) as (w' & tr & Hrun & Ht & Hh & Hrows & Hall & Hpr).
    { intros b' Hb'. destruct (Hbs b') as (d' & Hd' & Hw'); [by right|].
      exists d'. split; [|done]. rewrite Hold; [done|]. by eapply lookup_lt_Some. }
    exists w'. eexists. split; [exact Hrun|]. split.
    { rewrite Ht. subst w1. cbn [trace]. rewrite <- app_assoc. reflexivity. }
    split.
    { intros l Hl. rewrite Hh; [by apply Hold|]. subst w1. cbn [heap].
      rewrite length_app. lia. }
    split.
    { rewrite csv_rows_app, Hrows. cbn [map]. rewrite Hb. cbn [default].
      change (csv_rows [_; _; _]) with [csv_row d]. cbn [app]. f_equal.
      apply map_ext_in. intros b' Hb'. rewrite Hold; [done|].
      destruct (Hbs b') as (d' & Hd' & _); [right; by apply list_elem_of_In|].
      by eapply lookup_lt_Some. }
    split; [apply Forall_app; split; [by repeat constructor|done]|].
    by rewrite prints_app, Hpr.
Qed.

(** The loop of [save_to_csv] at a record without [emails]. *)
Lemma write_rows_stop (pre : list loc) (b : loc) (rest : list loc) (w : World)
    (d : gmap string pyval) :
  (forall b', b' ∈ pre -> exists d', heap w !! b' = Some d' /\ writable d') ->
  heap w !! b = Some d -> d !! "emails" = None ->
  exists w' tr,
    write_rows (pre ++ b :: rest) w = (Raise (KeyError "emails"), w') /\
    trace w' = trace w ++ tr /\
    (forall l, (l < length (heap w))%nat -> heap w' !! l = heap w !! l) /\
    csv_rows tr = map (fun b => csv_row (default ∅ (heap w !! b))) pre /\
    Forall report_event tr /\ prints tr = [].
Proof.
  revert w. induction pre as [|b0 pre IH]; intros w Hpre Hb Hno.
  - cbn [app write_rows].
    erewrite bind_run by (apply run_dict_copy; exact Hb).
    assert (b < length (heap w))%nat as Hlt by (by eapply lookup_lt_Some).
    exists (mkWorld (heap w ++ [d]) (trace w)), []. split.
    { erewrite bind_run_raise; [done|].
      apply (run_getitem_missing _ _ _ d); [|done]. cbn [heap]. by rewrite lookup_app_l. }
    cbn [trace heap]. rewrite app_nil_r. split; [done|]. split; [|done].
    intros l Hl. by rewrite lookup_app_l.
  - destruct (Hpre b0) as (d0 & Hb0 & Hd0); [by left|].
    cbn [app]. rewrite (write_rows_step b0 _ w d0 Hb0 Hd0).
    set (w1 := mkWorld _ _).
    assert (forall l, (l < length (heap w))%nat -> heap w1 !! l = heap w !! l) as Hold.
    { intros l Hl. subst w1. cbn [heap]. by rewrite lookup_app_l. }
    destruct (IH w1) as (w' & tr & Hrun & Ht & Hh & Hrows & Hall & Hpr).
    { intros b' Hb'. destruct (Hpre b') as (d' & Hd' & Hw'); [by right|].
      exists d'. split; [|done]. rewrite Hold; [done|]. by eapply lookup_lt_Some. }
    { rewrite Hold; [done|]. by eapply lookup_lt_Some. }
    { done. }
    exists w'. eexists. split; [exact Hrun|]. split.
    { rewrite Ht. subst w1. cbn [trace]. rewrite <- app_assoc. reflexivity. }
    split.
    { intros l Hl. rewrite Hh; [by apply Hold|]. subst w1. cbn [heap].
      rewrite length_app. lia. }
    split.
    { rewrite csv_rows_app, Hrows. cbn [map]. rewrite Hb0. cbn [default].
      change (csv_rows [_; _; _]) with [csv_row d0]. cbn [app]. f_equal.
      apply map_ext_in. intros b' Hb'. rewrite Hold; [done|].
      destruct (Hpre b') as (d' & Hd' & _); [right; by apply list_elem_of_In|].
      by eapply lookup_lt_Some. }
    split; [apply Forall_app; split; [by repeat constructor|done]|].
    by rewrite prints_app, Hpr.
Qed.

(** X16.  [save_to_csv] on records it can write: it raises nothing, opens the
    file, writes the header and one row for every entry of the list, in
    the order of the list, and logs the number of entries.  The row of a
    record has its five text fields, its e-mails joined by a semicolon and
    a space, and their number. *)
Theorem csv_has_one_row_per_record (businesses : list loc) (filename : string)
    (w : World) :
  (forall b, b ∈ businesses -> exists d, heap w !! b = Some d /\ writable d) ->
  exists w' tr,
    save_to_csv businesses filename w = (Ok tt, w') /\
    trace w'
    = trace w ++ [EvOpen filename] ++ tr
        ++ [EvPrint ("Saved " +:+ pretty (Z.of_nat (length businesses))
                     +:+ " businesses to " +:+ filename)] /\
    csv_rows tr
    = fieldnames :: map (fun b => csv_row (default ∅ (heap w !! b))) businesses /\
    Forall report_event tr.
Proof.
  intros Hbs. unfold save_to_csv.
  erewrite bind_run by reflexivity. erewrite bind_run by reflexivity.
  set (w1 := emit (EvWriteRow fieldnames) (emit (EvOpen filename) w)).
  destruct (write_rows_run businesses w1) as (w2 & tr & Hrun & Ht & _ & Hrows & Hall & _).
  { exact Hbs. }
  erewrite bind_run by exact Hrun.
  eexists. exists (EvWriteRow fieldnames :: tr). split; [reflexivity|]. split.
  { cbn [print snd emit trace]. rewrite Ht. subst w1. cbn [trace emit].
    by rewrite <- !app_assoc. }
  split; [|by constructor].
  change (EvWriteRow fieldnames :: tr) with ([EvWriteRow fieldnames] ++ tr).
  rewrite csv_rows_app, Hrows. done.
Qed.

(** X17.  [save_to_csv] at a record that has no [emails]: it raises
    [KeyError], after it has opened the file and written the header and
    the rows of the records before that one.  Nothing is written after,
    and the line that reports the save is not printed. *)
Theorem csv_stops_at_record_without_emails (pre : list loc) (b : loc) (rest : list loc)
    (filename : string) (w : World) (d : gmap string pyval) :
  (forall b', b' ∈ pre -> exists d', heap w !! b' = Some d' /\ writable d') ->
  heap w !! b = Some d -> d !! "emails" = None ->
  exists w' tr,
    save_to_csv (pre ++ b :: rest) filename w = (Raise (KeyError "emails"), w') /\
    trace w' = trace w ++ [EvOpen filename] ++ tr /\
    csv_rows tr = fieldnames :: map (fun b => csv_row (default ∅ (heap w !! b))) pre /\
    prints tr = [].
Proof.
  intros Hpre Hb Hno. unfold save_to_csv.
  erewrite bind_run by reflexivity. erewrite bind_run by reflexivity.
  set (w1 := emit (EvWriteRow fieldnames) (emit (EvOpen filename) w)).
  destruct (write_rows_stop pre b rest w1 d) as (w2 & tr & Hrun & Ht & _ & Hrows & _ & Hpr);
    [exact Hpre|exact Hb|exact Hno|].
  erewrite bind_run_raise by exact Hrun.
  eexists. exists (EvWriteRow fieldnames :: tr). split; [reflexivity|]. split.
  { rewrite Ht. subst w1. cbn [trace emit]. by rewrite <- !app_assoc. }
  split.
  { change (EvWriteRow fieldnames :: tr) with ([EvWriteRow fieldnames] ++ tr).
    rewrite csv_rows_app, Hrows. done. }
  exact Hpr.
Qed.

(* --------------------------------------------------------------------- *)
(** ** From the scrape to the file *)
(* --------------------------------------------------------------------- *)

Lemma record_keys_fields : record_keys ⊆ list_to_set fieldnames.
Proof.
  intros x Hx. apply elem_of_list_to_set, list_elem_of_In in Hx.
  apply elem_of_list_to_set, list_elem_of_In. cbn in *. tauto.
Qed.

Lemma business_dict_writable (r : PlaceResult) : writable (business_dict r).
Proof.
  split; [exists []; apply business_dict_emails|].
  rewrite business_dict_dom. apply record_keys_fields.
Qed.

Lemma crawled_dict_writable (r : PlaceResult) (emails : list string) :
  writable (<["emails" := VList emails]> (business_dict r)) /\
  dom (<["emails" := VList emails]> (business_dict r)) = record_keys.
Proof.
  assert (dom (<["emails" := VList emails]> (business_dict r)) = record_keys) as Hdom.
  { rewrite dom_insert_L, business_dict_dom. apply set_eq. intros x.
    rewrite elem_of_union, elem_of_singleton. split; [|by right].
    intros [->|H]; [|done]. apply elem_of_list_to_set, list_elem_of_In. cbn. tauto. }
  split; [|done]. split; [exists emails; by simplify_map_eq|].
  rewrite Hdom. apply record_keys_fields.
Qed.

Section Pipeline.

Variable env : Env.
Variable google_api_key : option string.

(** The records the coordinator returns, as the heap has them. *)
Lemma scraped_records (business_types : list string) (location : string)
    (max_results : Z) (w : World) (businesses : list loc) (w' : World) :
  scrape_business_contacts env google_api_key business_types location max_results w
  = (Ok businesses, w') ->
  forall b, b ∈ businesses ->
    exists d, heap w' !! b = Some d /\ writable d /\ dom d = record_keys.
Proof.
  intros Hrun b Hb.
  destruct (scrape_types_spec env google_api_key business_types business_types location
              max_results [] w) as (_ & _ & tr & Ht & _ & Hres).
  unfold scrape_business_contacts in Hrun. rewrite Hrun in Ht, Hres. cbn [fst snd] in *.
  destruct (Hres businesses eq_refl) as (news & -> & Hnd & Hnews).
  destruct (Hnews b Hb) as [_ [r Hr]]. unfold record_after in Hr.
  destruct (has_website r).
  - destruct Hr as (emails & w0 & _ & _ & Hh). eexists. split; [exact Hh|].
    apply crawled_dict_writable.
  - destruct Hr as [_ Hh]. eexists. split; [exact Hh|].
    split; [apply business_dict_writable|apply business_dict_dom].
Qed.

(** X18.  What the coordinator returns can always be saved: every record has
    the six keys of a record, all of them field names of the file, and a
    list of e-mails, so that [save_to_csv] raises nothing and writes the
    header and one row for every record. *)
Theorem scraped_records_can_be_saved (business_types : list string) (location : string)
    (max_results : Z) (w : World) (businesses : list loc) (w' : World)
    (filename : string) :
  scrape_business_contacts env google_api_key business_types location max_results w
  = (Ok businesses, w') ->
  (forall b, b ∈ businesses ->
     exists d, heap w' !! b = Some d /\ writable d /\ dom d = record_keys) /\
  exists w'' tr,
    save_to_csv businesses filename w' = (Ok tt, w'') /\
    trace w'' = trace w' ++ tr /\
    csv_rows tr
    = fieldnames :: map (fun b => csv_row (default ∅ (heap w' !! b))) businesses.
Proof.
  intros Hrun. pose proof (scraped_records _ _ _ _ _ _ Hrun) as Hrec.
  split; [exact Hrec|].
  destruct (write_rows_run businesses
              (emit (EvWriteRow fieldnames) (emit (EvOpen filename) w')))
    as (w2 & tr & Hw & Ht & _ & Hrows & _).
  { intros b Hb. destruct (Hrec b Hb) as (d & Hd & Hwr & _). by exists d. }
  unfold save_to_csv.
  erewrite bind_run by reflexivity. erewrite bind_run by reflexivity.
  erewrite bind_run by exact Hw.
  eexists.
  exists ([EvOpen filename; EvWriteRow fieldnames] ++ tr
          ++ [EvPrint ("Saved " +:+ pretty (Z.of_nat (length businesses))
                       +:+ " businesses to " +:+ filename)]).
  split; [reflexivity|]. split.
  { cbn [print snd emit trace]. rewrite Ht. cbn [trace emit]. by rewrite <- !app_assoc. }
  rewrite !csv_rows_app, Hrows. cbn. by rewrite app_nil_r.
Qed.

End Pipeline.

Section NoFailure.

Variable env : Env.
Variable google_api_key : option string.

(** The websites that the details of a place can give are URLs that
    [urlparse] and [urljoin] accept. *)
Hypothesis websites_accepted :
  forall r, from_details env google_api_key r -> has_website r = true ->
    exists pages, pages_to_check env (default EmptyString (r_website r)) = Ok pages.

Lemma extract_ok (r : PlaceResult) (max_pages : Z) (w : World) :
  from_details env google_api_key r ->
  exists emails,
    fst (extract_emails_from_website env (VStr (default EmptyString (r_website r)))
           max_pages w) = Ok emails.
Proof.
  intros Hr.
  destruct (String.eqb_spec (default EmptyString (r_website r)) EmptyString) as [->|Hne];
    [by exists []|].
  destruct (websites_accepted r Hr) as [pages Hp].
  { unfold has_website. by apply negb_true_iff, String.eqb_neq. }
  rewrite (extract_run env _ pages) by done. by eexists.
Qed.

Lemma process_business_ok (b : loc) (r : PlaceResult) (w : World) :
  heap w !! b = Some (business_dict r) -> from_details env google_api_key r ->
  fst (process_business env b w) = Ok tt.
Proof.
  intros Hb Hr. unfold process_business.
  erewrite bind_run by (eapply run_getitem; [exact Hb|apply business_dict_name]).
  erewrite bind_run by reflexivity.
  set (w1 := emit (EvPrint _) w).
  assert (heap w1 !! b = Some (business_dict r)) as Hb1 by exact Hb.
  erewrite bind_run by (eapply run_getitem; [exact Hb1|apply business_dict_website]).
  destruct (truthy (VStr (default EmptyString (r_website r)))); [|done].
  erewrite bind_run by (eapply run_getitem; [exact Hb1|apply business_dict_website]).
  destruct (extract_ok r 3 w1 Hr) as [emails He].
  destruct (extract_emails_from_website env _ 3 w1) as [[emails'|e] w2] eqn:Hx; [|done].
  erewrite bind_run by exact Hx. erewrite bind_run by reflexivity. done.
Qed.

Lemma process_businesses_ok (bs all : list loc) (w : World) :
  NoDup bs ->
  (forall b, b ∈ bs ->
     exists r, heap w !! b = Some (business_dict r) /\ from_details env google_api_key r) ->
  fst (process_businesses env bs all w) = Ok (all ++ bs).
Proof.
  intros Hnd. revert all w. induction Hnd as [|b rest Hb Hnd IH]; intros all w Hbs.
  - cbn. by rewrite app_nil_r.
  - destruct (Hbs b) as (r & Hr & Hfrom); [by left|].
    pose proof (process_business_ok b r w Hr Hfrom) as Hok.
    destruct (process_business_spec env b r w Hr) as (_ & Hfr & _).
    cbn [process_businesses].
    destruct (process_business env b w) as [[[]|e] w1] eqn:Hrun; [|done]. cbn [snd] in Hfr.
    erewrite bind_run by exact Hrun. erewrite bind_run by reflexivity.
    rewrite IH; [by rewrite <- app_assoc|].
    intros b' Hb'. destruct (Hbs b') as (r' & Hr' & Hfrom'); [by right|]. exists r'.
    split; [|done].
    change (heap (emit (EvSleep 2000) w1)) with (heap w1). rewrite Hfr; [done|].
    by intros ->.
Qed.

(** What a search returns: new dictionaries, each made of the details of
    a place. *)
Lemma search_businesses_records (query location : string) (radius max_results : Z)
    (w : World) :
  let run := search_businesses env google_api_key query location radius max_results w in
  exists rs,
    heap (snd run) = heap w ++ map business_dict rs /\
    fst run = seq (length (heap w)) (length rs) /\
    Forall (from_details env google_api_key) rs.
Proof.
  intros run. subst run. unfold search_businesses.
  destruct (places_textsearch env (trace w) _) as [msg|data].
  { exists []. cbn. by rewrite app_nil_r. }
  destruct (negb (String.eqb (search_status data) "OK")).
  { exists []. destruct (search_error_message data); cbn; by rewrite app_nil_r. }
  destruct (search_loop_events env google_api_key (default [] (search_results data))
              max_results []
              (emit (EvRequestsGet (places_base_url +:+ "/textsearch/json")
                       (search_params google_api_key query location radius)) w))
    as (tr & rs & _ & _ & _ & Hh & Hr & Hres).
  exists rs. done.
Qed.

Lemma scrape_types_ok (business_types remaining : list string) (location : string)
    (max_results : Z) (all : list loc) (w : World) :
  business_types <> [] ->
  exists result,
    fst (scrape_types env google_api_key business_types remaining location
           max_results all w) = Ok result.
Proof.
  intros Hne. revert all w. induction remaining as [|t rest IH]; intros all w.
  { by exists all. }
  cbn [scrape_types]. erewrite bind_run by reflexivity.
  rewrite bind_lift_result.
  rewrite py_floordiv_ok by (destruct business_types; [done|cbn; lia]).
  set (w0 := emit (EvPrint _) w). set (share := max_results / _).
  destruct (search_businesses_records t location 5000 share w0) as (rs & Hhs & Hseq & Hfrom).
  destruct (search_businesses env google_api_key t location 5000 share w0)
    as [businesses w1] eqn:Hsearch. cbn [fst snd] in *.
  erewrite bind_run by (unfold total; rewrite Hsearch; reflexivity).
  pose proof (process_businesses_ok businesses all w1) as Hp.
  destruct (process_businesses env businesses all w1) as [[all'|e] w2] eqn:Hproc.
  - erewrite bind_run by exact Hproc. apply IH.
  - cbn [fst] in Hp. exfalso.
    assert (Raise e = Ok (all ++ businesses)) as Habs; [|done].
    apply Hp.
    + rewrite Hseq. apply NoDup_seq.
    + intros b Hb. rewrite Hseq in Hb. apply elem_of_seq in Hb.
      destruct (lookup_lt_is_Some_2 rs (b - length (heap w0))) as [r Hr]; [lia|].
      exists r. split; [|by eapply Forall_lookup_1].
      rewrite Hhs. rewrite lookup_app_r by lia.
      by rewrite list_lookup_fmap, Hr.
Qed.

(** When the places API gives only websites that [urlparse] and [urljoin]
    accept, the coordinator raises nothing: a record always has the keys
    that are read, a failed request or page is logged and passed over,
    and the only division is by the number of types, made when there is
    one at least. *)
Lemma scrape_ok (business_types : list string) (location : string) (max_results : Z)
    (w : World) :
  exists businesses,
    fst (scrape_business_contacts env google_api_key business_types location
           max_results w) = Ok businesses.
Proof.
  destruct business_types as [|t rest] eqn:E; [by exists []|].
  rewrite <- E. unfold scrape_business_contacts. apply scrape_types_ok. by rewrite E.
Qed.

End NoFailure.

(* --------------------------------------------------------------------- *)
(** ** The summary: the counts *)
(* --------------------------------------------------------------------- *)

Lemma count_with_emails_le (w : World) (businesses : list loc) :
  count_with_emails w businesses <= Z.of_nat (length businesses) /\
  count_with_emails w businesses <= count_emails w businesses.
Proof.
  unfold count_with_emails, count_emails.
  induction businesses as [|b rest [IH1 IH2]]; [done|].
  cbn [List.filter map concat length]. rewrite length_app.
  destruct (emails_at w b) as [|e es]; cbn [length Nat.eqb negb]; lia.
Qed.

(** With fewer than [2 ^ 1023] e-mails the line of the average is made. *)
Lemma average_line_ok (total : Z) (businesses : list loc) :
  0 <= total < 2 ^ 1023 -> exists line, average_line total businesses = Ok line.
Proof.
  intros Ht. destruct businesses as [|b rest]; [by eexists|].
  destruct (py_truediv_number total (Z.of_nat (length (b :: rest))) Ht) as (q & Hq & _).
  { cbn [length]. lia. }
  unfold average_line. rewrite Hq. by eexists.
Qed.

(** X19.  The summary: the number of records, the number of those with an
    e-mail at least, the number of e-mails of all of them together, and
    the average.  The second number is at most the first and at most the
    third.  With fewer than [2 ^ 1023] e-mails nothing is raised, and
    these four lines follow the title: nothing else is printed and the
    heap is not touched. *)
Theorem summary_counts (businesses : list loc) (w : World) :
  (forall b, b ∈ businesses -> has_emails w b) ->
  total_emails_of businesses w = (Ok (count_emails w businesses), w) /\
  businesses_with_emails_of businesses w = (Ok (count_with_emails w businesses), w) /\
  count_with_emails w businesses <= Z.of_nat (length businesses) /\
  count_with_emails w businesses <= count_emails w businesses /\
  (count_emails w businesses < 2 ^ 1023 ->
   exists line,
     average_line (count_emails w businesses) businesses = Ok line /\
     print_summary businesses w
     = (Ok tt,
        mkWorld (heap w)
          (trace w ++
           [EvPrint (newline +:+ "=== SCRAPING SUMMARY ===");
            EvPrint ("Total businesses found: " +:+ pretty (Z.of_nat (length businesses)));
            EvPrint ("Businesses with emails: " +:+ pretty (count_with_emails w businesses));
            EvPrint ("Total emails found: " +:+ pretty (count_emails w businesses));
            EvPrint line]))).
Proof.
  intros H.
  pose proof (total_emails_of_run businesses w H) as Ht.
  pose proof (businesses_with_emails_of_run businesses w H) as Hk.
  destruct (count_with_emails_le w businesses) as [H1 H2].
  split; [done|]. split; [done|]. split; [done|]. split; [done|].
  intros Hlt.
  destruct (average_line_ok (count_emails w businesses) businesses) as [line Hline].
  { unfold count_emails in *. lia. }
  exists line. split; [done|]. unfold print_summary.
  erewrite bind_run by exact Ht. erewrite bind_run by exact Hk.
  do 4 (erewrite bind_run by reflexivity).
  rewrite bind_lift_result, Hline. unfold print, emit. cbn [heap trace].
  by rewrite <- !app_assoc.
Qed.

(* --------------------------------------------------------------------- *)
(** ** The whole run *)
(* --------------------------------------------------------------------- *)

Lemma emits_write_rows (businesses : list loc) :
  emits_only report_event (write_rows businesses).
Proof.
  induction businesses as [|b rest IH]; [apply emits_ret|]. cbn [write_rows].
  apply emits_bind; [apply emits_dict_copy|]. intros c.
  apply emits_bind; [apply emits_getitem|]. intros emails.
  apply emits_bind; [apply emits_lift_result|]. intros joined.
  apply emits_bind; [by apply emits_setitem|]. intros _.
  apply emits_bind; [apply emits_getitem|]. intros emails'.
  apply emits_bind; [apply emits_lift_result|]. intros n.
  apply emits_bind; [by apply emits_setitem|]. intros _.
  apply emits_bind; [by apply emits_writerow|]. intros _. exact IH.
Qed.

Lemma emits_save_to_csv (businesses : list loc) (filename : string) :
  emits_only report_event (save_to_csv businesses filename).
Proof.
  unfold save_to_csv.
  apply emits_bind; [by apply (emits_event report_event (EvOpen _) tt)|]. intros _.
  apply emits_bind; [by apply (emits_event report_event (EvWriteRow _) tt)|]. intros _.
  apply emits_bind; [apply emits_write_rows|]. intros _.
  by apply (emits_event report_event (EvPrint _) tt).
Qed.

Lemma emits_print_summary (businesses : list loc) :
  emits_only report_event (print_summary businesses).
Proof.
  unfold print_summary.
  apply emits_bind.
  { intros w. exists []. by rewrite total_emails_of_pure, app_nil_r. }
  intros total. apply emits_bind.
  { intros w. exists []. by rewrite businesses_with_emails_of_pure, app_nil_r. }
  intros n.
  do 4 (apply emits_bind; [by apply (emits_event report_event (EvPrint _) tt)|]; intros _).
  apply emits_bind; [apply emits_lift_result|]. intros line.
  by apply (emits_event report_event (EvPrint _) tt).
Qed.

Section MainPhases.

Variable env : Env.
Variable GOOGLE_PLACES_API : option string.

(** X20.  [main] scrapes, then reports: all the requests and all the delays
    come before the file is opened, and once it is opened there are only
    rows, assignments of items and printed lines.  If the scrape raises,
    [main] raises the same and no file is opened. *)
Theorem main_scrapes_then_reports (w : World) :
  let w0 := emit (EvPrint "Starting business contact scraping...") w in
  let scrape := scrape_business_contacts env GOOGLE_PLACES_API
                  BUSINESS_TYPES LOCATION MAX_RESULTS w0 in
  exists tr_scrape tr_report,
    trace (snd scrape) = trace w0 ++ tr_scrape /\
    trace (snd (main env GOOGLE_PLACES_API w)) = trace w0 ++ tr_scrape ++ tr_report /\
    Forall coordinator_event tr_scrape /\ csv_rows tr_scrape = [] /\
    Forall report_event tr_report /\ sleeps tr_report = [] /\ session_gets tr_report = [] /\
    (forall e, fst scrape = Raise e ->
       main env GOOGLE_PLACES_API w = (Raise e, snd scrape) /\ tr_report = []).
Proof.
  intros w0 scrape.
  destruct (scrape_types_delays env GOOGLE_PLACES_API BUSINESS_TYPES BUSINESS_TYPES
              LOCATION MAX_RESULTS [] w0) as (trs & Hts & Hs & _).
  fold (scrape_business_contacts env GOOGLE_PLACES_API BUSINESS_TYPES LOCATION MAX_RESULTS w0)
    in Hts. fold scrape in Hts.
  assert (csv_rows trs = []) as Hrows.
  { clear -Hs. induction Hs as [|e tr He _ IH]; [done|]. destruct e; try done. }
  assert (forall tr, Forall report_event tr -> sleeps tr = [] /\ session_gets tr = []) as Hrep.
  { intros tr H. induction H as [|e tr He _ [IH1 IH2]]; [done|]. destruct e; try done. }
  unfold main. erewrite bind_run by reflexivity. fold w0.
  destruct scrape as [[businesses|e] w1] eqn:Hscrape; subst scrape; cbn [fst snd] in *.
  - erewrite bind_run by exact Hscrape.
    destruct (emits_bind report_event (save_to_csv businesses "business_contacts.csv")
                (fun _ => print_summary businesses)
                (emits_save_to_csv _ _) (fun _ => emits_print_summary _) w1)
      as (trr & Htr & Hr).
    exists trs, trr. rewrite Htr, Hts, <- app_assoc.
    destruct (Hrep trr Hr) as [H1 H2]. split_and!; try done.
  - erewrite bind_run_raise by exact Hscrape.
    exists trs, []. rewrite app_nil_r. split_and!; try done.
    intros e' [= <-]. done.
Qed.

End MainPhases.

Lemma emails_at_ext (w w' : World) (b : loc) :
  heap w' !! b = heap w !! b -> emails_at w' b = emails_at w b.
Proof. intros H. unfold emails_at. by rewrite H. Qed.

Lemma count_emails_ext (w w' : World) (businesses : list loc) :
  (forall b, b ∈ businesses -> heap w' !! b = heap w !! b) ->
  count_emails w' businesses = count_emails w businesses.
Proof.
  intros H. unfold count_emails. do 3 f_equal. apply map_ext_in. intros b Hb.
  apply emails_at_ext, H. by apply list_elem_of_In.
Qed.

Section WholeRun.

Variable env : Env.
Variable GOOGLE_PLACES_API : option string.

(** X21.  When every website that the details of a place can give is a
    URL that [urlparse] and [urljoin] accept, [main] runs to its end: the
    scrape raises nothing, its records can be saved, and the summary
    raises nothing as long as the count of e-mails is below [2 ^ 1023],
    where their quotient by the number of records is still a float.
    Nothing is asked of the URL functions on other strings, and nothing
    of the pages, the searches or the lookups, which may all fail. *)
Theorem main_raises_only_from_urls (w : World) :
  (forall r, from_details env GOOGLE_PLACES_API r -> has_website r = true ->
     exists pages, pages_to_check env (default EmptyString (r_website r)) = Ok pages) ->
  exists businesses w1,
    scrape_business_contacts env GOOGLE_PLACES_API BUSINESS_TYPES LOCATION MAX_RESULTS
      (emit (EvPrint "Starting business contact scraping...") w)
    = (Ok businesses, w1) /\
    (count_emails w1 businesses < 2 ^ 1023 -> fst (main env GOOGLE_PLACES_API w) = Ok tt).
Proof.
  intros Hsites.
  set (w0 := emit (EvPrint "Starting business contact scraping...") w).
  destruct (scrape_ok env GOOGLE_PLACES_API Hsites BUSINESS_TYPES LOCATION MAX_RESULTS w0)
    as [businesses Hok].
  destruct (scrape_business_contacts env GOOGLE_PLACES_API BUSINESS_TYPES LOCATION
              MAX_RESULTS w0) as [r w1] eqn:Hscrape.
  cbn [fst] in Hok. subst r. exists businesses, w1. split; [done|]. intros Hlt.
  pose proof (scraped_records env GOOGLE_PLACES_API _ _ _ _ _ _ Hscrape) as Hrec.
  unfold main. erewrite bind_run by reflexivity. fold w0.
  erewrite bind_run by exact Hscrape.
  set (w1' := emit (EvWriteRow fieldnames) (emit (EvOpen "business_contacts.csv") w1)).
  destruct (write_rows_run businesses w1') as (w2 & tr & Hw & _ & Hfr & _).
  { intros b Hb. destruct (Hrec b Hb) as (d & Hd & Hwr & _). by exists d. }
  assert (forall b, b ∈ businesses -> heap w2 !! b = heap w1 !! b) as Hsame.
  { intros b Hb. destruct (Hrec b Hb) as (d & Hd & _). apply Hfr.
    change (heap w1') with (heap w1). by eapply lookup_lt_Some. }
  unfold save_to_csv.
  erewrite bind_run.
  2:{ erewrite bind_run by reflexivity. erewrite bind_run by reflexivity.
      erewrite bind_run by exact Hw. reflexivity. }
  set (w3 := emit _ w2).
  assert (forall b, b ∈ businesses -> has_emails w3 b) as Hhas.
  { intros b Hb. destruct (Hrec b Hb) as (d & Hd & [[es Hes] _] & _).
    exists d, es. split; [|done]. change (heap w3) with (heap w2). by rewrite Hsame. }
  assert (count_emails w3 businesses = count_emails w1 businesses) as Hcount.
  { apply count_emails_ext. intros b Hb. change (heap w3) with (heap w2). by apply Hsame. }
  pose proof (total_emails_of_run businesses w3 Hhas) as Ht.
  pose proof (businesses_with_emails_of_run businesses w3 Hhas) as Hk.
  destruct (average_line_ok (count_emails w3 businesses) businesses) as [line Hline].
  { rewrite Hcount. unfold count_emails in *. lia. }
  unfold print_summary.
  erewrite bind_run by exact Ht. erewrite bind_run by exact Hk.
  do 4 (erewrite bind_run by reflexivity).
  rewrite bind_lift_result, Hline. done.
Qed.

End WholeRun.

(* --------------------------------------------------------------------- *)
(** ** The budget of a run *)
(* --------------------------------------------------------------------- *)

Lemma report_events_requests (tr : list event) :
  Forall report_event tr -> text_searches tr = [] /\ session_gets tr = [].
Proof.
  induction 1 as [|e tr He _ [IH1 IH2]]; [done|]. destruct e; done.
Qed.

Lemma prints_rows (lines : list string) :
  csv_rows (map EvPrint lines) = [] /\ text_searches (map EvPrint lines) = [] /\
  session_gets (map EvPrint lines) = [].
Proof. induction lines as [|l lines IH]; done. Qed.

(** The summary only prints. *)
Lemma print_summary_prints (businesses : list loc) (w : World) :
  exists lines, trace (snd (print_summary businesses w)) = trace w ++ map EvPrint lines.
Proof.
  unfold print_summary.
  pose proof (total_emails_of_pure businesses w) as Hp1.
  destruct (total_emails_of businesses w) as [[total|e] w1] eqn:H1; cbn [snd] in Hp1; subst w1.
  2:{ erewrite bind_run_raise by exact H1. exists []. by rewrite app_nil_r. }
  erewrite bind_run by exact H1.
  pose proof (businesses_with_emails_of_pure businesses w) as Hp2.
  destruct (businesses_with_emails_of businesses w) as [[n|e] w1] eqn:H2;
    cbn [snd] in Hp2; subst w1.
  2:{ erewrite bind_run_raise by exact H2. exists []. by rewrite app_nil_r. }
  erewrite bind_run by exact H2.
  do 4 (erewrite bind_run by reflexivity).
  rewrite bind_lift_result.
  destruct (average_line total businesses) as [line|e].
  - eexists [_; _; _; _; _]. unfold print, emit. cbn [snd trace map]. by rewrite <- !app_assoc.
  - eexists [_; _; _; _]. unfold print, emit. cbn [snd trace map]. by rewrite <- !app_assoc.
Qed.

Section MainBudget.

Variable env : Env.
Variable GOOGLE_PLACES_API : option string.

(** X22.  The run of [main] when the scrape raises nothing: five text
    searches, one for every type of the list in its order; twenty records
    at most, four for every type; sixty pages requested at most, three for
    every record; and a file of one row for every record under the header. *)
Theorem main_request_budget (w : World) (businesses : list loc) (w1 : World) :
  scrape_business_contacts env GOOGLE_PLACES_API BUSINESS_TYPES LOCATION MAX_RESULTS
    (emit (EvPrint "Starting business contact scraping...") w)
  = (Ok businesses, w1) ->
  exists tr,
    trace (snd (main env GOOGLE_PLACES_API w)) = trace w ++ tr /\
    text_searches tr
    = map (fun t => search_params GOOGLE_PLACES_API t LOCATION 5000) BUSINESS_TYPES /\
    (length businesses <= 20)%nat /\
    (length (session_gets tr) <= 60)%nat /\
    length (csv_rows tr) = S (length businesses).
Proof.
  intros Hscrape.
  set (w0 := emit (EvPrint "Starting business contact scraping...") w) in *.
  (* the scrape *)
  destruct (scrape_types_requests env GOOGLE_PLACES_API BUSINESS_TYPES BUSINESS_TYPES
              LOCATION MAX_RESULTS [] w0) as (trs & Hts & Hres).
  destruct (scrape_types_delays env GOOGLE_PLACES_API BUSINESS_TYPES BUSINESS_TYPES
              LOCATION MAX_RESULTS [] w0) as (trs' & Hts' & Hall & _).
  pose proof Hscrape as Hscrape'. unfold scrape_business_contacts in Hscrape'.
  rewrite Hscrape' in Hts, Hts', Hres. cbn [fst snd] in *.
  rewrite Hts in Hts'. apply app_inv_head in Hts'. subst trs'.
  destruct (Hres businesses eq_refl) as (news & Hnews & Hsearch & Hgets & _).
  cbn [app] in Hnews. subst news.
  assert (csv_rows trs = []) as Hrows.
  { clear -Hall. induction Hall as [|e tr He _ IH]; [done|]. destruct e; try done. }
  assert (length businesses <= 20)%nat as Hlen.
  { rewrite scrape_types_share in Hscrape' by done.
    pose proof (scrape_with_share_length env GOOGLE_PLACES_API
                  (MAX_RESULTS / Z.of_nat (length BUSINESS_TYPES)) BUSINESS_TYPES LOCATION []
                  businesses w0) as Hl.
    rewrite Hscrape' in Hl. specialize (Hl eq_refl).
    assert (Z.of_nat (length BUSINESS_TYPES)
            * Z.max 0 (MAX_RESULTS / Z.of_nat (length BUSINESS_TYPES)) = 20) as E by reflexivity.
    rewrite E in Hl. cbn [length] in Hl. lia. }
  (* the file *)
  pose proof (scraped_records env GOOGLE_PLACES_API _ _ _ _ _ _ Hscrape) as Hrec.
  set (w1' := emit (EvWriteRow fieldnames) (emit (EvOpen "business_contacts.csv") w1)).
  destruct (write_rows_run businesses w1') as (w2 & trw & Hw & Htw & _ & Hrw & Hrep & _).
  { intros b Hb. destruct (Hrec b Hb) as (d & Hd & Hwr & _). by exists d. }
  destruct (report_events_requests trw Hrep) as [Hw1 Hw2].
  (* the summary *)
  set (w3 := emit (EvPrint ("Saved " +:+ pretty (Z.of_nat (length businesses))
                            +:+ " businesses to " +:+ "business_contacts.csv")) w2).
  destruct (print_summary_prints businesses w3) as (lines & Hlines).
  destruct (prints_rows lines) as (Hl1 & Hl2 & Hl3).
  assert (main env GOOGLE_PLACES_API w = print_summary businesses w3) as Hmain.
  { unfold main. erewrite bind_run by reflexivity. fold w0.
    erewrite bind_run by exact Hscrape.
    erewrite bind_run; [reflexivity|].
    unfold save_to_csv.
    erewrite bind_run by reflexivity. erewrite bind_run by reflexivity.
    erewrite bind_run by exact Hw. reflexivity. }
  rewrite Hmain, Hlines.
  exists ([EvPrint "Starting business contact scraping..."] ++ trs
          ++ [EvOpen "business_contacts.csv"; EvWriteRow fieldnames] ++ trw
          ++ [EvPrint ("Saved " +:+ pretty (Z.of_nat (length businesses))
                       +:+ " businesses to " +:+ "business_contacts.csv")]
          ++ map EvPrint lines).
  split.
  { subst w3. cbn [trace emit]. rewrite Htw. subst w1'. cbn [trace emit].
    rewrite Hts. subst w0. cbn [trace emit]. by rewrite <- !app_assoc. }
  rewrite !text_searches_app, !session_gets_app, !csv_rows_app.
  rewrite Hsearch, Hw1, Hw2, Hl1, Hl2, Hl3, Hrows, Hrw.
  rewrite !app_nil_r.
  change (text_searches [EvPrint ?l]) with (@nil (list (string * string))).
  change (session_gets [EvPrint ?l]) with (@nil string).
  change (csv_rows [EvPrint ?l]) with (@nil (list string)).
  change (csv_rows [EvOpen ?f; EvWriteRow ?r]) with [r].
  cbn [app length]. rewrite length_map.
  split; [done|]. split; [done|]. split; [lia|done].
Qed.

End MainBudget.

(* --------------------------------------------------------------------- *)
(** ** Further runs on the sample environment *)
(* --------------------------------------------------------------------- *)

(** X1 on the sample site. *)
Lemma crawler_result_lowercase_distinct_witness :
  NoDup ["sales@a.example"; "info@a.example"] /\
  (forall e, e ∈ ["sales@a.example"; "info@a.example"] -> lower e = e) /\
  (forall a b, a ∈ ["sales@a.example"; "info@a.example"] ->
               b ∈ ["sales@a.example"; "info@a.example"] -> lower a = lower b -> a = b) /\
  (forall e, e ∈ ["sales@a.example"; "info@a.example"] ->
     exists seg, split "@" e !! 1%nat = Some seg /\ seg ∉ excluded_domains).
Proof.
  exact (crawler_result_lowercase_distinct env1 (VStr "http://a.example") 3 empty_world
           ["sales@a.example"; "info@a.example"] eq_refl).
Defined.

(** X2 for [info@a.example], found on the sample site. *)
Lemma crawler_result_provenance_witness :
  exists url pages u h page c,
    VStr "http://a.example" = VStr url /\ pages_to_check env1 url = Ok pages /\
    In u (take (Z.to_nat 3) pages) /\ session_get env1 h u = Ok page /\
    In c (found_emails page) /\ "info@a.example" = lower c.
Proof.
  apply (crawler_result_provenance env1 (VStr "http://a.example") 3 empty_world
           ["sales@a.example"; "info@a.example"]).
  - reflexivity.
  - apply list_elem_of_In. right. left. reflexivity.
Defined.

(** X3 on the sample site, whose only link has one recipient. *)
Lemma single_recipient_links_respect_exclusions_witness :
  count_char "@" "info@a.example" = 1%nat /\
  lower (domain_after_last_at "info@a.example") ∉ excluded_domains.
Proof.
  apply (single_recipient_links_respect_exclusions env1 (VStr "http://a.example") 3 empty_world
           ["sales@a.example"; "info@a.example"]).
  - intros h u page href Hget Hin.
    unfold env1, table_env, web1 in Hget. cbn [session_get assoc] in Hget.
    destruct (String.eqb "http://a.example" u); [|discriminate].
    injection Hget as <-. destruct Hin as [<-|[]]. reflexivity.
  - reflexivity.
  - apply list_elem_of_In. right. left. reflexivity.
Defined.

(** X4 for the address in the text of the sample page. *)
Lemma crawler_finds_text_addresses_witness :
  exists emails w',
    extract_emails_from_website env1 (VStr "http://a.example") 3 empty_world = (Ok emails, w') /\
    lower "Info@A.example" ∈ emails.
Proof.
  apply (crawler_finds_text_addresses env1 "http://a.example"
           ["http://a.example"; "http://a.example/contact"; "http://a.example/contact-us";
            "http://a.example/about"; "http://a.example/about-us"]
           3 empty_world "http://a.example"
           (mkPage "Write to Info@A.example or joe@gmail.com"
              ["mailto:sales@a.example?subject=Hi"; "/about"])).
  - discriminate.
  - reflexivity.
  - left. reflexivity.
  - intros h. reflexivity.
  - vm_compute. left. reflexivity.
  - vm_compute. intros H. repeat (apply elem_of_cons in H as [H|H]; [discriminate|]).
    by apply elem_of_nil in H.
Defined.

(** X5 on a page whose link has no address. *)
Lemma mailto_without_at_fails_page_witness :
  exists emails w' rest,
    extract_emails_from_website env2 (VStr "http://shop.example") 1 empty_world
    = (Ok emails, w') /\
    trace w' = trace empty_world ++ EvSessionGet "http://shop.example"
                 :: EvPrint ("Error scraping " +:+ "http://shop.example"
                             +:+ ": list index out of range")
                 :: rest /\
    (rest = [] \/ exists u rest', rest = EvSessionGet u :: rest') /\
    forall m, In m (findall email_pattern "Orders: Orders@Shop.example") ->
              lower (domain_after_last_at m) ∉ excluded_domains -> lower m ∈ emails.
Proof.
  apply (mailto_without_at_fails_page env2 "http://shop.example"
           ["http://shop.example"; "http://shop.example/contact";
            "http://shop.example/contact-us"; "http://shop.example/about";
            "http://shop.example/about-us"]
           1 empty_world
           (mkPage "Orders: Orders@Shop.example" ["mailto:?subject=Hello"])
           "mailto:?subject=Hello").
  - discriminate.
  - reflexivity.
  - reflexivity.
  - reflexivity.
  - left. reflexivity.
  - reflexivity.
Defined.

(** X6 on the sample site with a cap of three pages. *)
Lemma crawler_requests_every_candidate_witness :
  exists emails w' tr,
    extract_emails_from_website env1 (VStr "http://a.example") 3 empty_world = (Ok emails, w') /\
    heap w' = heap empty_world /\ trace w' = trace empty_world ++ tr /\
    session_gets tr
    = take (Z.to_nat 3)
        ["http://a.example"; "http://a.example/contact"; "http://a.example/contact-us";
         "http://a.example/about"; "http://a.example/about-us"] /\
    Z.of_nat (length (session_gets tr)) = Z.min (Z.max 0 3) 5 /\
    (length (sleeps tr) + length (prints tr) = length (session_gets tr))%nat.
Proof.
  apply (crawler_requests_every_candidate env1 "http://a.example").
  - discriminate.
  - reflexivity.
Defined.

(** X7 for a URL with a bracket left open. *)
Lemma malformed_url_escapes_crawler_witness :
  (forall max_pages w,
     extract_emails_from_website offline (VStr "http://[") max_pages w
     = (Raise (ValueError "Invalid IPv6 URL"), w)) /\
  (forall b r rest all w,
     heap w !! b = Some (business_dict r) -> r_website r = Some "http://[" ->
     process_businesses offline (b :: rest) all w
     = (Raise (ValueError "Invalid IPv6 URL"),
        emit (EvPrint ("Processing: " +:+ default EmptyString (r_name r))) w)).
Proof.
  apply (malformed_url_escapes_crawler offline "http://[").
  - discriminate.
  - reflexivity.
Defined.

(** X11 with no network, and with a key the API refuses. *)
Lemma search_failures_logged_witness :
  (fst (search_businesses offline (Some "AIzaSyD-0123456789") "law firm" "Town" 5000 4
          empty_world) = [] /\
   trace (snd (search_businesses offline (Some "AIzaSyD-0123456789") "law firm" "Town" 5000 4
                 empty_world))
   = [EvRequestsGet (places_base_url +:+ "/textsearch/json")
        (search_params (Some "AIzaSyD-0123456789") "law firm" "Town" 5000);
      EvPrint "Error searching businesses: connection error"]) /\
  exists shown p,
    prints (trace (snd (search_businesses
                          (table_env [] [("law firm in Town",
                                          mkSearchData "REQUEST_DENIED"
                                            (Some "The provided API key is invalid.") None)] [])
                          (Some "AIzaSyD-0123456789") "law firm" "Town" 5000 4 empty_world)))
    = ["API Error: REQUEST_DENIED"; "Error details: The provided API key is invalid."; shown] /\
    shown = "API Key being used: " +:+ p +:+ "..." /\
    String.length p = 10%nat.
Proof.
  split.
  - destruct (proj1 (search_failures_logged offline (Some "AIzaSyD-0123456789")
                       "law firm" "Town" 5000 4 empty_world) "connection error" eq_refl)
      as (H1 & _ & H2).
    split; [exact H1|exact H2].
  - destruct (proj2 (search_failures_logged
                       (table_env [] [("law firm in Town",
                                       mkSearchData "REQUEST_DENIED"
                                         (Some "The provided API key is invalid.") None)] [])
                       (Some "AIzaSyD-0123456789")
                       "law firm" "Town" 5000 4 empty_world)
                _ eq_refl ltac:(discriminate))
      as (_ & _ & shown & Ht & _ & Hk).
    destruct (Hk _ eq_refl ltac:(discriminate)) as (p & Hp & _ & Hlen).
    exists shown, p. split; [|split; [exact Hp|exact Hlen]].
    rewrite Ht. reflexivity.
Defined.

(** X14 on the sample run. *)
Lemma coordinator_request_budget_witness :
  let run := scrape_business_contacts env1 None ["law firm"] "Town" 2 empty_world in
  exists tr,
    trace (snd run) = trace empty_world ++ tr /\
    text_searches tr = map (fun t => search_params None t "Town" 5000) ["law firm"] /\
    (length (session_gets tr) <= 3 * length [0; 1]%nat)%nat /\
    (length [0; 1]%nat <= length (details_lookups tr))%nat.
Proof.
  intros run.
  exact (coordinator_request_budget env1 None ["law firm"] "Town" 2 empty_world
           [0; 1]%nat (snd run) eq_refl).
Defined.

(** X15 for two types and a cap of one. *)
Lemma small_cap_scrapes_nothing_witness :
  exists w' tr,
    scrape_business_contacts env1 None ["law firm"; "bank"] "Town" 1 empty_world = (Ok [], w') /\
    heap w' = heap empty_world /\ trace w' = trace empty_world ++ tr /\
    text_searches tr = map (fun t => search_params None t "Town" 5000) ["law firm"; "bank"] /\
    details_lookups tr = [] /\ session_gets tr = [] /\ sleeps tr = [].
Proof.
  apply (small_cap_scrapes_nothing env1 None ["law firm"; "bank"] "Town" 1 empty_world).
  reflexivity.
Defined.

(** The two records of [three_dicts] can be written. *)
Lemma three_dicts_writable (b : loc) :
  b ∈ [0; 1]%nat -> exists d, heap three_dicts !! b = Some d /\ writable d.
Proof.
  intros Hb. apply elem_of_cons in Hb as [->|Hb]; [|apply elem_of_cons in Hb as [->|Hb]].
  - eexists. split; [reflexivity|]. apply crawled_dict_writable.
  - eexists. split; [reflexivity|]. apply business_dict_writable.
  - by apply elem_of_nil in Hb.
Defined.

(** X12 on the sample run. *)
Lemma coordinator_one_long_delay_per_record_witness :
  let run := scrape_business_contacts env1 None ["law firm"] "Town" 2 empty_world in
  exists tr,
    trace (snd run) = trace empty_world ++ tr /\
    long_delays tr = replicate (length [0; 1]%nat) 2000 /\
    Forall coordinator_event tr /\ csv_rows tr = [].
Proof.
  intros run.
  exact (coordinator_one_long_delay_per_record env1 None ["law firm"] "Town" 2 empty_world
           [0; 1]%nat (snd run) eq_refl).
Defined.

(** X16 on the two sample records. *)
Lemma csv_has_one_row_per_record_witness :
  exists w' tr,
    save_to_csv [0; 1]%nat "business_contacts.csv" three_dicts = (Ok tt, w') /\
    trace w'
    = trace three_dicts ++ [EvOpen "business_contacts.csv"] ++ tr
        ++ [EvPrint ("Saved " +:+ pretty (Z.of_nat (length [0; 1]%nat))
                     +:+ " businesses to " +:+ "business_contacts.csv")] /\
    csv_rows tr
    = fieldnames :: map (fun b => csv_row (default ∅ (heap three_dicts !! b))) [0; 1]%nat /\
    Forall report_event tr.
Proof.
  exact (csv_has_one_row_per_record [0; 1]%nat "business_contacts.csv" three_dicts
           three_dicts_writable).
Defined.

(** X17 when the third entry of the list has no [emails]. *)
Lemma csv_stops_at_record_without_emails_witness :
  exists w' tr,
    save_to_csv ([0; 1]%nat ++ 2%nat :: [0%nat]) "business_contacts.csv" three_dicts
    = (Raise (KeyError "emails"), w') /\
    trace w' = trace three_dicts ++ [EvOpen "business_contacts.csv"] ++ tr /\
    csv_rows tr
    = fieldnames :: map (fun b => csv_row (default ∅ (heap three_dicts !! b))) [0; 1]%nat /\
    prints tr = [].
Proof.
  apply (csv_stops_at_record_without_emails [0; 1]%nat 2%nat [0%nat]
           "business_contacts.csv" three_dicts (<["name" := VStr "C"]> ∅)).
  - exact three_dicts_writable.
  - reflexivity.
  - reflexivity.
Defined.

(** X18 on the sample run. *)
Lemma scraped_records_can_be_saved_witness :
  let run := scrape_business_contacts env1 None ["law firm"] "Town" 2 empty_world in
  exists w'' tr,
    save_to_csv [0; 1]%nat "business_contacts.csv" (snd run) = (Ok tt, w'') /\
    trace w'' = trace (snd run) ++ tr /\
    csv_rows tr
    = fieldnames :: map (fun b => csv_row (default ∅ (heap (snd run) !! b))) [0; 1]%nat.
Proof.
  intros run.
  exact (proj2 (scraped_records_can_be_saved env1 None ["law firm"] "Town" 2 empty_world
                  [0; 1]%nat (snd run) "business_contacts.csv" eq_refl)).
Defined.

(** X19 on the two sample records: two e-mails, one record with e-mails. *)
Lemma summary_counts_witness :
  total_emails_of [0; 1]%nat three_dicts = (Ok 2, three_dicts) /\
  businesses_with_emails_of [0; 1]%nat three_dicts = (Ok 1, three_dicts) /\
  exists line,
    average_line 2 [0; 1]%nat = Ok line /\
    prints (trace (snd (print_summary [0; 1]%nat three_dicts)))
    = [newline +:+ "=== SCRAPING SUMMARY ==="; "Total businesses found: 2";
       "Businesses with emails: 1"; "Total emails found: 2"; line].
Proof.
  destruct (summary_counts [0; 1]%nat three_dicts) as (Ht & Hk & _ & _ & Hs).
  - intros b Hb. destruct (three_dicts_writable b Hb) as (d & Hd & [[es Hes] _]).
    by exists d, es.
  - split; [exact Ht|]. split; [exact Hk|].
    destruct Hs as (line & Hline & Hrun); [reflexivity|].
    exists line. split; [exact Hline|]. rewrite Hrun. reflexivity.
Defined.

(** The places of the sample have the sample site or no website. *)
Lemma caringbah_websites (r : PlaceResult) :
  from_details caringbah None r -> has_website r = true ->
  exists pages, pages_to_check caringbah (default EmptyString (r_website r)) = Ok pages.
Proof.
  intros (h & place_id & data & Hd & _ & ->) Hw.
  unfold caringbah, table_env in Hd. cbn [places_details] in Hd.
  change (assoc "place_id" (details_params None place_id)) with (Some place_id) in Hd.
  cbn [default assoc] in Hd. unfold id in Hd.
  destruct (String.eqb "pA" place_id); cbv beta iota in Hd.
  - injection Hd as <-. eexists. reflexivity.
  - destruct (String.eqb "pB" place_id); cbv beta iota in Hd; [|discriminate].
    injection Hd as <-. discriminate.
Defined.

(** X21 on the sample places at the location of [main], with the URL
    functions of the sample, which reject a URL with a lone bracket:
    [main] runs to its end. *)
Lemma main_raises_only_from_urls_witness : fst (main caringbah None empty_world) = Ok tt.
Proof.
  destruct (main_raises_only_from_urls caringbah None empty_world caringbah_websites)
    as (businesses & w1 & Hrun & Hmain).
  apply Hmain. vm_compute in Hrun. injection Hrun as <- <-. reflexivity.
Defined.

(** X13 on the sample run: one type, one batch. *)
Lemma coordinator_concatenates_searches_witness :
  exists batches,
    [0; 1]%nat = concat batches /\
    Forall2 (fun business_type batch =>
               exists w0,
                 batch = fst (search_businesses env1 None business_type "Town"
                                5000 (2 / Z.of_nat (length ["law firm"])) w0))
      ["law firm"] batches.
Proof.
  exact (coordinator_concatenates_searches env1 None ["law firm"] "Town" 2 empty_world
           [0; 1]%nat eq_refl).
Defined.

(** X8 for the address in the sample text. *)
Lemma text_matches_are_addresses_witness :
  (exists before after,
     "Write to Info@A.example or joe@gmail.com" = before +:+ "Info@A.example" +:+ after) /\
  exists local domain tld,
    "Info@A.example" = local +:+ "@" +:+ domain +:+ "." +:+ tld /\
    (1 <= String.length local)%nat /\ all_in local_class local = true /\
    (1 <= String.length domain)%nat /\ all_in domain_class domain = true /\
    (2 <= String.length tld)%nat /\ all_in tld_class tld = true.
Proof.
  apply (text_matches_are_addresses "Write to Info@A.example or joe@gmail.com").
  vm_compute. left. reflexivity.
Defined.

(** X22 on the lenient environment. *)
Lemma main_request_budget_witness :
  exists tr,
    trace (snd (main lenient None empty_world)) = trace empty_world ++ tr /\
    text_searches tr = map (fun t => search_params None t LOCATION 5000) BUSINESS_TYPES /\
    (length [0; 1]%nat <= 20)%nat /\
    (length (session_gets tr) <= 60)%nat /\
    length (csv_rows tr) = S (length [0; 1]%nat).
Proof.
  apply (main_request_budget lenient None empty_world [0; 1]%nat
           (snd (scrape_business_contacts lenient None BUSINESS_TYPES LOCATION MAX_RESULTS
                   (emit (EvPrint "Starting business contact scraping...") empty_world)))).
  vm_compute. reflexivity.
Defined.
